(** * Free/busy slot computation of the calendar tools

    A shallow embedding of [calendar_mcp/calendar.py] (with the messages of
    [calendar_mcp/errors.py]) and the properties of its free-slot
    computation.

    Conventions of the embedding.
    - A Python [datetime] is its reading on the local clock, counted in
      microseconds from the midnight that starts proleptic ordinal day 0,
      together with its [tzinfo]: [None] for a naive value, [Some off] for
      an aware one whose [utcoffset()] is [off] microseconds.  Every
      [tzinfo] met by the code is a fixed offset ([fromisoformat] and
      [datetime.now().astimezone()] only build such ones).  The calendar
      date of a value is [date.toordinal()], that is, the clock reading
      divided by the length of a day.
    - Code that can raise returns a [result]; the exception classes are the
      ones the code can meet.
    - The [while] loop of the generator [clip_to_working_hours] is run with
      fuel; [clip_fuel] always gives enough (lemma [clip_fuel_enough]).
    - The collaborators (credentials, provider, clock) are a record of
      answers, [world]; the standard-library functions [fromisoformat],
      [isoformat] and [str] of an exception are parameters of the tools.
    - Embedded are the five tools of [calendar.py] with what they call, and
      [get_credentials] of [calendar_mcp/auth.py] over the two files and
      the Google libraries it uses. *)

From Stdlib Require Import ZArith List Bool Ascii String DecimalString Lia Permutation.
Import ListNotations.
Open Scope Z_scope.
Set Warnings "-notation-for-abbreviation".

(** ** Exceptions and results *)

Inductive exn : Type :=
| FileNotFoundError
| HttpError (status : Z) (reason : string)
| ValueError
| TypeError
| KeyError
| OverflowError
| OtherException.

Inductive result (A : Type) : Type :=
| Ok (a : A)
| Raise (e : exn).
Arguments Ok {A} a.
Arguments Raise {A} e.

Definition bind {A B : Type} (c : result A) (k : A -> result B) : result B :=
  match c with
  | Ok a => k a
  | Raise e => Raise e
  end.

Notation "x <- c ;; k" := (bind c (fun x => k))
  (at level 61, c at next level, right associativity).

(** ** datetime *)

Definition MICROS_PER_MINUTE : Z := 60000000.
Definition MICROS_PER_HOUR : Z := 3600000000.
Definition MICROS_PER_DAY : Z := 86400000000.

(** [date.max.toordinal()], the ordinal of 9999-12-31. *)
Definition MAXORDINAL : Z := 3652059.

Record datetime : Type := mkdt {
  wall : Z;
  tzinfo : option Z
}.

Definition toordinal (d : datetime) : Z := wall d / MICROS_PER_DAY.

Definition utcoffset (d : datetime) : Z :=
  match tzinfo d with
  | Some off => off
  | None => 0
  end.

(** The instant of an aware value on the UTC time line (for a naive value,
    its clock reading). *)
Definition utc (d : datetime) : Z := wall d - utcoffset d.

Definition aware (d : datetime) : Prop := tzinfo d <> None.

(** Order comparisons: two aware values compare by instant, two naive ones
    by clock reading, and a naive value against an aware one raises
    [TypeError]. *)
Definition comparable (a b : datetime) : bool :=
  match tzinfo a, tzinfo b with
  | Some _, Some _ | None, None => true
  | _, _ => false
  end.

Definition dt_lt (a b : datetime) : result bool :=
  if comparable a b then Ok (utc a <? utc b) else Raise TypeError.

Definition dt_le (a b : datetime) : result bool :=
  if comparable a b then Ok (utc a <=? utc b) else Raise TypeError.

Definition dt_gt (a b : datetime) : result bool := dt_lt b a.
Definition dt_ge (a b : datetime) : result bool := dt_le b a.

(** [max(a, b)] keeps [a] unless [b > a]; [min(a, b)] keeps [a] unless
    [b < a]. *)
Definition py_max (a b : datetime) : result datetime :=
  gt <- dt_gt b a ;; Ok (if gt then b else a).

Definition py_min (a b : datetime) : result datetime :=
  lt <- dt_lt b a ;; Ok (if lt then b else a).

(** [a - b] as a [timedelta], in microseconds. *)
Definition dt_sub (a b : datetime) : result Z :=
  if comparable a b then Ok (utc a - utc b) else Raise TypeError.

(** [td.total_seconds() >= n] for an integer [n].  The float quotient is
    exact enough here: the code only asks it of the length of a slot inside
    one day's working window, far below the 2^33 seconds where a float
    stops separating microseconds. *)
Definition total_seconds_ge (td : Z) (n : Z) : bool := n * 1000000 <=? td.

Definition valid_hour (hour : Z) : bool := (0 <=? hour) && (hour <=? 23).

(** [d.replace(hour=hour, minute=0, second=0, microsecond=0)] *)
Definition replace_hour (d : datetime) (hour : Z) : result datetime :=
  if valid_hour hour
  then Ok (mkdt (toordinal d * MICROS_PER_DAY + hour * MICROS_PER_HOUR) (tzinfo d))
  else Raise ValueError.

(** [d.date() + timedelta(days=n)], as an ordinal. *)
Definition date_add_days (d : datetime) (n : Z) : result Z :=
  let o := toordinal d + n in
  if (0 <? o) && (o <=? MAXORDINAL) then Ok o else Raise OverflowError.

(** [datetime(day.year, day.month, day.day, hour, 0, 0, tzinfo=tz)] *)
Definition datetime_at (day : Z) (hour : Z) (tz : option Z) : result datetime :=
  if valid_hour hour
  then Ok (mkdt (day * MICROS_PER_DAY + hour * MICROS_PER_HOUR) tz)
  else Raise ValueError.

(** ** The slot computation of [get_free_slots] *)

Definition interval : Type := (datetime * datetime)%type.

Section SlotEngine.

Variable min_duration_minutes : Z.
Variable working_hours_start : Z.
Variable working_hours_end : Z.

(** One turn of the [while] loop of [clip_to_working_hours]: what it yields
    and the next value of [current]. *)
Definition clip_body (gap_start gap_end current : datetime)
  : result (list interval * datetime) :=
  work_start <- replace_hour current working_hours_start ;;
  work_end <- replace_hour current working_hours_end ;;
  slot_start <- py_max current work_start ;;
  slot_end <- py_min gap_end work_end ;;
  nonempty <- dt_lt slot_start slot_end ;;
  yielded <-
    (if nonempty
     then td <- dt_sub slot_end slot_start ;;
          Ok (if total_seconds_ge td (min_duration_minutes * 60)
              then [(slot_start, slot_end)] else [])
     else Ok []) ;;
  next_day <- date_add_days current 1 ;;
  current' <- datetime_at next_day working_hours_start (tzinfo gap_start) ;;
  Ok (yielded, current').

Fixpoint clip_loop (fuel : nat) (gap_start gap_end current : datetime)
  : option (result (list interval)) :=
  match fuel with
  | O => None
  | S fuel' =>
      match dt_lt current gap_end with
      | Raise e => Some (Raise e)
      | Ok false => Some (Ok [])
      | Ok true =>
          match clip_body gap_start gap_end current with
          | Raise e => Some (Raise e)
          | Ok (yielded, current') =>
              match clip_loop fuel' gap_start gap_end current' with
              | None => None
              | Some (Raise e) => Some (Raise e)
              | Some (Ok rest) => Some (Ok (yielded ++ rest))
              end
          end
      end
  end.

(** The number of calendar days, on the clock of [gap_start], from the day
    of [gap_start] to the day of [gap_end], and two more turns. *)
Definition clip_fuel (gap_start gap_end : datetime) : nat :=
  Z.to_nat ((utc gap_end + utcoffset gap_start) / MICROS_PER_DAY
            - toordinal gap_start) + 2.

Definition clip_to_working_hours (gap_start gap_end : datetime)
  : result (list interval) :=
  match clip_loop (clip_fuel gap_start gap_end) gap_start gap_end gap_start with
  | Some r => r
  | None => Ok []
  end.

(** [busy_ranges.sort(key=lambda x: x[0])]: a stable sort that only asks
    [<] of the keys. *)
Fixpoint sort_insert (x : interval) (l : list interval) : result (list interval) :=
  match l with
  | [] => Ok [x]
  | y :: l' =>
      lt <- dt_lt (fst y) (fst x) ;;
      if lt then r <- sort_insert x l' ;; Ok (y :: r)
      else Ok (x :: l)
  end.

Fixpoint sort_by_start (l : list interval) : result (list interval) :=
  match l with
  | [] => Ok []
  | x :: l' => s <- sort_by_start l' ;; sort_insert x s
  end.

Variable start_dt : datetime.
Variable end_dt : datetime.

(** The [for bs, be in busy_ranges] loop; [continue] and [break] are the
    two exits of a turn.  It returns the final [current] and [free_slots]. *)
Fixpoint sweep (busy_ranges : list interval) (current : datetime)
    (free_slots : list interval) : result (datetime * list interval) :=
  match busy_ranges with
  | [] => Ok (current, free_slots)
  | (bs, be) :: rest =>
      consumed <- dt_le be current ;;
      if consumed then sweep rest current free_slots
      else
        gap <- dt_gt bs current ;;
        free_slots' <-
          (if gap
           then gap_end <- py_min bs end_dt ;;
                slots <- clip_to_working_hours current gap_end ;;
                Ok (free_slots ++ slots)
           else Ok free_slots) ;;
        current' <- py_max current be ;;
        done <- dt_ge current' end_dt ;;
        if done then Ok (current', free_slots')
        else sweep rest current' free_slots'
  end.

(** Lines 223-260: sort, sweep, and the gap after the last busy range. *)
Definition free_slots_of (busy_ranges : list interval) : result (list interval) :=
  sorted <- sort_by_start busy_ranges ;;
  swept <- sweep sorted start_dt [] ;;
  let '(current, free_slots) := swept in
  trailing <- dt_lt current end_dt ;;
  if trailing
  then slots <- clip_to_working_hours current end_dt ;; Ok (free_slots ++ slots)
  else Ok free_slots.

End SlotEngine.


(** ** Text *)

(** ASCII white space, what [str.strip()] removes of a text that is ASCII.
    Of a text with other characters Python removes the white space of
    Unicode as well, a no-break space for one, which is left where it is
    here. *)
Definition is_space (c : ascii) : bool :=
  let n := nat_of_ascii c in
  (Nat.leb 9 n && Nat.leb n 13) || (Nat.leb 28 n && Nat.leb n 32).

Fixpoint lstrip (s : string) : string :=
  match s with
  | EmptyString => EmptyString
  | String c r => if is_space c then lstrip r else s
  end.

Fixpoint rstrip (s : string) : string :=
  match s with
  | EmptyString => EmptyString
  | String c r =>
      match rstrip r with
      | EmptyString => if is_space c then EmptyString else String c EmptyString
      | r' => String c r'
      end
  end.

Definition strip (s : string) : string := rstrip (lstrip s).

(** [Some (s[:-1])] when [s.endswith("Z")]. *)
Fixpoint chop_Z (s : string) : option string :=
  match s with
  | EmptyString => None
  | String c EmptyString => if Ascii.eqb c "Z" then Some EmptyString else None
  | String c r => option_map (String c) (chop_Z r)
  end.

(** ASCII [str.lower()] and the [in] of two strings. *)
Definition lower_ascii (c : ascii) : ascii :=
  let n := nat_of_ascii c in
  if Nat.leb 65 n && Nat.leb n 90 then ascii_of_nat (n + 32) else c.

Fixpoint lower (s : string) : string :=
  match s with
  | EmptyString => EmptyString
  | String c r => String (lower_ascii c) (lower r)
  end.

Fixpoint contains (needle s : string) : bool :=
  prefix needle s
  || match s with
     | EmptyString => false
     | String _ r => contains needle r
     end.

(** [str(n)] of an integer. *)
Definition str_int (n : Z) : string := NilZero.string_of_int (Z.to_int n).

Definition newline : string := String (ascii_of_nat 10) EmptyString.

(** ** errors.py *)

Module errors.

Definition AUTH_EXPIRED : string :=
  "Error: Authentication expired. Please re-run OAuth flow.".

Definition QUOTA_EXCEEDED : string :=
  "Error: Google Calendar API quota exceeded. Try again later.".

Definition NETWORK_FAILURE : string :=
  "Error: Could not reach Google Calendar API. Check network connection.".

Definition event_not_found (event_id : string) : string :=
  ("Error: Event ID '" ++ event_id ++ "' not found.")%string.

Definition event_in_past (start_time : string) : string :=
  ("Error: Cannot create event in the past. Start time " ++ start_time
   ++ " is before now.")%string.

Definition unexpected_failure (message : string) : string :=
  ("Error: Unexpected failure — " ++ message)%string.

End errors.

(** Every message of errors.py starts with the same word. *)
Definition is_error_reply (reply : string) : bool := prefix "Error:" reply.

(** ** The collaborators *)

(** One entry of the provider's busy list, a dict that may lack a key. *)
Record busy_entry : Type := {
  entry_start : option string;
  entry_end : option string
}.

Record freebusy_body : Type := {
  timeMin : string;
  timeMax : string;
  items : list string
}.

Record event_body : Type := {
  body_summary : string;
  body_start : string * string;
  body_end : string * string;
  body_description : option string;
  body_location : option string
}.

(** An event as the provider returns it. *)
Record event : Type := {
  event_id : option string;
  event_summary : option string;
  event_start : option string * option string;
  event_end : option string * option string;
  event_location : option string
}.

(** What lies outside the code: the credentials, the provider and the
    clock.  [settings_timezone] is the answer to
    [settings().get(setting="timezone").execute()], read at its key
    ["value"]; [freebusy_query] is the answer to [freebusy().query], read
    at [calendars], the calendar and [busy]; [local_utcoffset] is the
    offset of [datetime.now().astimezone()] and [now_utc] its instant. *)
Record world : Type := {
  get_credentials : result unit;
  build : result unit;
  settings_timezone : result (option string);
  local_utcoffset : Z;
  now_utc : Z;
  freebusy_query : freebusy_body -> result (list busy_entry);
  events_insert : string -> event_body -> result event
}.

Section Tools.

Local Open Scope string_scope.

(** The standard library: [datetime.fromisoformat] ([None] for its
    [ValueError]), [datetime.isoformat], and [str(e)] of an exception. *)
Variable fromisoformat : string -> option datetime.
Variable isoformat : datetime -> string.
Variable exn_text : exn -> string.

Variable w : world.

Definition _DEFAULT_TIMEZONE : string := "UTC".

Definition _get_service : result unit :=
  _ <- get_credentials w ;; build w.

Definition _get_user_timezone : string :=
  match settings_timezone w with
  | Ok (Some value) => value
  | Ok None => _DEFAULT_TIMEZONE
  | Raise _ => _DEFAULT_TIMEZONE
  end.

Definition _parse_iso8601 (s : string) : result datetime :=
  let s := strip s in
  let s := match chop_Z s with
           | Some p => (p ++ "+00:00")%string
           | None => s
           end in
  match fromisoformat s with
  | Some d => Ok d
  | None => Raise ValueError
  end.

Definition _format_event_summary (ev : event) : string :=
  let get (field : option string) (default : string) :=
    match field with Some v => v | None => default end in
  let first_of (a : option string) (b : option string) :=
    match a with
    | Some (String c r) => String c r
    | _ => get b "?"
    end in
  let eid := get (event_id ev) "?" in
  let summary := get (event_summary ev) "(No title)" in
  let start_str := first_of (fst (event_start ev)) (snd (event_start ev)) in
  let end_str := first_of (fst (event_end ev)) (snd (event_end ev)) in
  let location := get (event_location ev) EmptyString in
  let loc_part := match location with
                  | EmptyString => EmptyString
                  | _ => (" @ " ++ location)
                  end%string in
  ("ID: " ++ eid ++ " | " ++ summary ++ " | " ++ start_str ++ " - " ++ end_str
   ++ loc_part)%string.

Definition _get_tz_aware_now : datetime :=
  mkdt (now_utc w + local_utcoffset w) (Some (local_utcoffset w)).

(** [d.replace(tzinfo=tz)] *)
Definition replace_tzinfo (d : datetime) (tz : option Z) : datetime :=
  mkdt (wall d) tz.

(** [d + timedelta(minutes=n)]: the result must be a date of the
    calendar. *)
Definition add_minutes (d : datetime) (n : Z) : result datetime :=
  let t := wall d + n * MICROS_PER_MINUTE in
  if ((MICROS_PER_DAY <=? t) && (t <? (MAXORDINAL + 1) * MICROS_PER_DAY))%Z
  then Ok (mkdt t (tzinfo d)) else Raise OverflowError.

(** The [except] clauses shared by the tools. *)
Definition http_reply (e : exn) : string :=
  match e with
  | HttpError status _ =>
      if (status =? 403)%Z && contains "quota" (lower (exn_text e))
      then errors.QUOTA_EXCEEDED
      else if (500 <=? status)%Z then errors.NETWORK_FAILURE
      else errors.unexpected_failure (exn_text e)
  | _ => errors.unexpected_failure (exn_text e)
  end.

(** [create_event]: the reply and the insert requests sent to the
    provider. *)
Definition create_event (title start_time : string) (duration_minutes : Z)
    (description location calendar_id : string)
  : string * list (string * event_body) :=
  let prepared : result (option event_body) :=
    _ <- _get_service ;;
    start_dt <- _parse_iso8601 start_time ;;
    let start_dt :=
      match tzinfo start_dt with
      | None => replace_tzinfo start_dt (tzinfo _get_tz_aware_now)
      | Some _ => start_dt
      end in
    past <- dt_lt start_dt _get_tz_aware_now ;;
    if past then Ok None
    else
      end_dt <- add_minutes start_dt duration_minutes ;;
      Ok (Some {| body_summary := title;
                  body_start := (isoformat start_dt, "UTC"%string);
                  body_end := (isoformat end_dt, "UTC"%string);
                  body_description :=
                    match description with EmptyString => None | _ => Some description end;
                  body_location :=
                    match location with EmptyString => None | _ => Some location end |}) in
  let handler (e : exn) : string :=
    match e with
    | FileNotFoundError => errors.AUTH_EXPIRED
    | _ => http_reply e
    end in
  match prepared with
  | Raise e => (handler e, [])
  | Ok None => (errors.event_in_past start_time, [])
  | Ok (Some event_body) =>
      match events_insert w calendar_id event_body with
      | Raise e => (handler e, [(calendar_id, event_body)])
      | Ok ev => (("Created event: " ++ _format_event_summary ev)%string,
                  [(calendar_id, event_body)])
      end
  end.

(** Lines 185-192 of [get_free_slots]: the bounds of the range, made
    aware. *)
Definition range_bounds (start_date end_date : string) : result (datetime * datetime) :=
  _ <- _get_service ;;
  let tz := _get_user_timezone in
  start_dt <- _parse_iso8601 start_date ;;
  end_dt <- _parse_iso8601 end_date ;;
  let start_dt :=
    match tzinfo start_dt with
    | None => replace_tzinfo start_dt (Some (local_utcoffset w))
    | Some _ => start_dt
    end in
  let end_dt :=
    match tzinfo end_dt with
    | None => replace_tzinfo end_dt (tzinfo start_dt)
    | Some _ => end_dt
    end in
  Ok (start_dt, end_dt).

(** Lines 218-222: the busy ranges, parsed in the order of the list. *)
Definition getitem (field : option string) : result string :=
  match field with
  | Some v => Ok v
  | None => Raise KeyError
  end.

Fixpoint build_busy_ranges (busy_list : list busy_entry) : result (list interval) :=
  match busy_list with
  | [] => Ok []
  | b :: rest =>
      s <- getitem (entry_start b) ;;
      bs <- _parse_iso8601 s ;;
      e <- getitem (entry_end b) ;;
      be <- _parse_iso8601 e ;;
      busy_ranges <- build_busy_ranges rest ;;
      Ok ((bs, be) :: busy_ranges)
  end.

Definition render_free_slots (min_duration_minutes working_hours_start working_hours_end : Z)
    (free_slots : list interval) : string :=
  match free_slots with
  | [] => "No free slots found in the given range."
  | _ =>
      fold_left
        (fun text slot =>
           text ++ newline ++ "  " ++ isoformat (fst slot) ++ " - " ++ isoformat (snd slot))
        free_slots
        ("Free slots (" ++ str_int min_duration_minutes ++ "min min, "
         ++ str_int working_hours_start ++ ":00-" ++ str_int working_hours_end ++ ":00):")
  end%string.

(** [get_free_slots]: [Ok] is the text it returns, [Raise] an exception
    that leaves it. *)
Definition get_free_slots (start_date end_date : string)
    (min_duration_minutes working_hours_start working_hours_end : Z)
    (calendar_id : string) : result string :=
  match range_bounds start_date end_date with
  | Raise FileNotFoundError => Ok errors.AUTH_EXPIRED
  | Raise e => Ok (errors.unexpected_failure (exn_text e))
  | Ok (start_dt, end_dt) =>
      match freebusy_query w {| timeMin := isoformat start_dt;
                                timeMax := isoformat end_dt;
                                items := [calendar_id] |} with
      | Raise e => Ok (http_reply e)
      | Ok busy_list =>
          busy_ranges <- build_busy_ranges busy_list ;;
          free_slots <- free_slots_of min_duration_minutes working_hours_start
                          working_hours_end start_dt end_dt busy_ranges ;;
          Ok (render_free_slots min_duration_minutes working_hours_start
                working_hours_end free_slots)
      end
  end.

End Tools.

(** ** A reference for the two standard-library functions

    [datetime.fromisoformat] and [datetime.isoformat] on the extended
    format [YYYY-MM-DD[THH:MM[:SS]][+HH:MM]], with the calendar arithmetic
    of the standard library; fractions of a second are written by
    [isoformat] and not read by [fromisoformat].  The properties hold for
    any pair of functions; this pair serves the examples. *)

Module Iso.

Local Open Scope string_scope.

Definition is_leap (year : Z) : bool :=
  ((year mod 4 =? 0) && (negb (year mod 100 =? 0) || (year mod 400 =? 0)))%Z.

Definition days_before_year (year : Z) : Z :=
  let y := year - 1 in y * 365 + y / 4 - y / 100 + y / 400.

Definition days_in_month (year month : Z) : Z :=
  if (month =? 2)%Z then (if is_leap year then 29 else 28)
  else if ((month =? 4) || (month =? 6) || (month =? 9) || (month =? 11))%Z then 30
  else 31.

Fixpoint days_before_month_from (year : Z) (month : nat) : Z :=
  match month with
  | O => 0
  | S m => days_before_month_from year m + days_in_month year (Z.of_nat m)
  end.

(** Days of the year before the first day of [month]. *)
Definition days_before_month (year month : Z) : Z :=
  days_before_month_from year (Z.to_nat month) - days_in_month year 0.

Definition ymd2ord (year month day : Z) : Z :=
  days_before_year year + days_before_month year month + day.

Definition ord2ymd (ordinal : Z) : Z * Z * Z :=
  let n := ordinal - 1 in
  let n400 := n / 146097 in
  let n := n mod 146097 in
  let n100 := n / 36524 in
  let n := n mod 36524 in
  let n4 := n / 1461 in
  let n := n mod 1461 in
  let n1 := n / 365 in
  let n := n mod 365 in
  let year := n400 * 400 + 1 + n100 * 100 + n4 * 4 + n1 in
  if ((n1 =? 4) || (n100 =? 4))%Z then (year - 1, 12, 31)
  else
    let month := (n + 50) / 32 in
    let preceding := days_before_month year month in
    if (n <? preceding)%Z
    then (year, month - 1, n - (preceding - days_in_month year (month - 1)) + 1)
    else (year, month, n - preceding + 1).

Definition digit (c : ascii) : option Z :=
  let n := nat_of_ascii c in
  if Nat.leb 48 n && Nat.leb n 57 then Some (Z.of_nat (n - 48)) else None.

Fixpoint read_digits (count : nat) (acc : Z) (s : string) : option (Z * string) :=
  match count with
  | O => Some (acc, s)
  | S count' =>
      match s with
      | String c r =>
          match digit c with
          | Some d => read_digits count' (acc * 10 + d) r
          | None => None
          end
      | EmptyString => None
      end
  end.

Definition expect (c : ascii) (s : string) : option string :=
  match s with
  | String c' r => if Ascii.eqb c c' then Some r else None
  | EmptyString => None
  end.

Notation "'let?' p := c 'in' k" :=
  (match c with Some p => k | None => None end)
  (at level 10, p pattern, c at level 100, k at level 200).

Definition read_offset (s : string) : option (option Z) :=
  match s with
  | EmptyString => Some None
  | String sign r =>
      let? factor := (if Ascii.eqb sign "+" then Some 1
                      else if Ascii.eqb sign "-" then Some (-1) else None) in
      let? (hh, r) := read_digits 2 0 r in
      let? r := expect ":" r in
      let? (mm, r) := read_digits 2 0 r in
      match r with
      | EmptyString =>
          if ((hh <? 24) && (mm <? 60))%Z
          then Some (Some (factor * (hh * MICROS_PER_HOUR + mm * MICROS_PER_MINUTE)))
          else None
      | _ => None
      end
  end.

Definition read_time (s : string) : option (Z * option Z) :=
  let? (hh, r) := read_digits 2 0 s in
  let? r := expect ":" r in
  let? (mm, r) := read_digits 2 0 r in
  let? (ss, r) := (match expect ":" r with
                   | Some r' => read_digits 2 0 r'
                   | None => Some (0, r)
                   end) in
  let? tz := read_offset r in
  if ((hh <? 24) && (mm <? 60) && (ss <? 60))%Z
  then Some (hh * MICROS_PER_HOUR + mm * MICROS_PER_MINUTE + ss * 1000000, tz)
  else None.

Definition fromisoformat (s : string) : option datetime :=
  let? (year, r) := read_digits 4 0 s in
  let? r := expect "-" r in
  let? (month, r) := read_digits 2 0 r in
  let? r := expect "-" r in
  let? (day, r) := read_digits 2 0 r in
  if ((1 <=? year) && (1 <=? month) && (month <=? 12) && (1 <=? day)
      && (day <=? days_in_month year month))%Z
  then
    let midnight := ymd2ord year month day * MICROS_PER_DAY in
    match r with
    | EmptyString => Some (mkdt midnight None)
    | String sep r =>
        if Ascii.eqb sep "T" || Ascii.eqb sep " "
        then let? (time, tz) := read_time r in Some (mkdt (midnight + time) tz)
        else None
    end
  else None.

Fixpoint zeros (n : nat) : string :=
  match n with
  | O => EmptyString
  | S n' => String "0" (zeros n')
  end.

Definition pad (width : nat) (n : Z) : string :=
  let s := str_int n in zeros (width - String.length s) ++ s.

Definition isoformat (d : datetime) : string :=
  let '(year, month, day) := ord2ymd (toordinal d) in
  let time := wall d mod MICROS_PER_DAY in
  let us := time mod 1000000 in
  pad 4 year ++ "-" ++ pad 2 month ++ "-" ++ pad 2 day ++ "T"
  ++ pad 2 (time / MICROS_PER_HOUR) ++ ":"
  ++ pad 2 (time mod MICROS_PER_HOUR / MICROS_PER_MINUTE) ++ ":"
  ++ pad 2 (time mod MICROS_PER_MINUTE / 1000000)
  ++ (if (us =? 0)%Z then EmptyString else "." ++ pad 6 us)
  ++ match tzinfo d with
     | None => EmptyString
     | Some off =>
         let a := Z.abs off in
         (if (off <? 0)%Z then "-" else "+")
         ++ pad 2 (a / MICROS_PER_HOUR) ++ ":"
         ++ pad 2 (a mod MICROS_PER_HOUR / MICROS_PER_MINUTE)
         ++ (if (a mod 1000000 =? 0)%Z
             then (if (a mod MICROS_PER_MINUTE =? 0)%Z then EmptyString
                   else ":" ++ pad 2 (a mod MICROS_PER_MINUTE / 1000000))
             else ":" ++ pad 2 (a mod MICROS_PER_MINUTE / 1000000)
                  ++ "." ++ pad 6 (a mod 1000000))
     end.

(** [str(e)] for the exceptions of the examples, one text for each
    exception: the texts of Python that tell the value as well, as
    [Invalid isoformat string: '12 o'clock'], are cut to their first
    words. *)
Definition exn_text (e : exn) : string :=
  match e with
  | FileNotFoundError => "No credentials"
  | HttpError _ reason => reason
  | ValueError => "Invalid isoformat string"
  | TypeError => "can't compare offset-naive and offset-aware datetimes"
  | KeyError => "'start'"
  | OverflowError => "date value out of range"
  | OtherException => EmptyString
  end.

End Iso.


(** ** Worlds of the examples *)

(** Monday 2026-03-02 is day 739677.  The account's timezone setting is
    UTC, the machine runs eight hours ahead of UTC, it is noon UTC, and the
    calendar is empty. *)
Definition example_world : world := {|
  get_credentials := Ok tt;
  build := Ok tt;
  settings_timezone := Ok (Some "UTC"%string);
  local_utcoffset := 8 * MICROS_PER_HOUR;
  now_utc := 739677 * MICROS_PER_DAY + 12 * MICROS_PER_HOUR;
  freebusy_query := fun _ => Ok [];
  events_insert := fun _ body =>
    Ok {| event_id := Some "ev123"%string;
          event_summary := Some (body_summary body);
          event_start := (Some (fst (body_start body)), None);
          event_end := (Some (fst (body_end body)), None);
          event_location := body_location body |}
|}.

(** The same, with no credentials file. *)
Definition world_without_credentials : world := {|
  get_credentials := Raise FileNotFoundError;
  build := build example_world;
  settings_timezone := settings_timezone example_world;
  local_utcoffset := local_utcoffset example_world;
  now_utc := now_utc example_world;
  freebusy_query := freebusy_query example_world;
  events_insert := events_insert example_world
|}.

(** The same, with a provider whose busy list holds a start that is no
    timestamp. *)
Definition world_with_malformed_busy : world := {|
  get_credentials := get_credentials example_world;
  build := build example_world;
  settings_timezone := settings_timezone example_world;
  local_utcoffset := local_utcoffset example_world;
  now_utc := now_utc example_world;
  freebusy_query := fun _ =>
    Ok [ {| entry_start := Some "12 o'clock"%string;
            entry_end := Some "2026-03-02T13:00:00Z"%string |} ];
  events_insert := events_insert example_world
|}.

(** ** One turn of the clipper, without the exceptions

    The day's [work_start] or [work_end], the candidate slot, what the turn
    yields and the next cursor, as [clip_body] computes them when nothing is
    raised (lemma [clip_body_eq]). *)
Definition work_at (current : datetime) (hour : Z) : datetime :=
  mkdt (toordinal current * MICROS_PER_DAY + hour * MICROS_PER_HOUR) (tzinfo current).

Definition slot_start_of (working_hours_start : Z) (current : datetime) : datetime :=
  if utc current <? utc (work_at current working_hours_start)
  then work_at current working_hours_start else current.

Definition slot_end_of (working_hours_end : Z) (gap_end current : datetime) : datetime :=
  if utc (work_at current working_hours_end) <? utc gap_end
  then work_at current working_hours_end else gap_end.

Definition yield_of (min_duration_minutes working_hours_start working_hours_end : Z)
    (gap_end current : datetime) : list interval :=
  let s := slot_start_of working_hours_start current in
  let e := slot_end_of working_hours_end gap_end current in
  if (utc s <? utc e) && total_seconds_ge (utc e - utc s) (min_duration_minutes * 60)
  then [(s, e)] else [].

Definition next_cursor (working_hours_start : Z) (gap_start current : datetime)
  : datetime :=
  mkdt ((toordinal current + 1) * MICROS_PER_DAY + working_hours_start * MICROS_PER_HOUR)
       (tzinfo gap_start).

(** ** Vocabulary of the properties *)

(** The slots of [l] follow one another on the time line, none empty, from
    [lo] on and up to [hi]: each starts no earlier than the one before it
    ends. *)
Fixpoint chain (lo : Z) (l : list interval) (hi : Z) : Prop :=
  match l with
  | [] => True
  | s :: r =>
      lo <= utc (fst s) /\ utc (fst s) < utc (snd s) /\ utc (snd s) <= hi
      /\ chain (utc (snd s)) r hi
  end.

(** Two intervals intersect when they share more than an end point. *)
Definition intersects (a b : interval) : Prop :=
  Z.max (utc (fst a)) (utc (fst b)) < Z.min (utc (snd a)) (utc (snd b)).

Definition duration (s : interval) : Z := utc (snd s) - utc (fst s).

Definition total_duration (l : list interval) : Z :=
  fold_right (fun s acc => duration s + acc) 0 l.

Definition aware_interval (b : interval) : Prop := aware (fst b) /\ aware (snd b).

(** [start <= end], the invariant of an interval of the data model. *)
Definition well_formed (b : interval) : Prop := utc (fst b) <= utc (snd b).

(** [d] is a day of the calendar from which the clipper can walk to
    [end_dt]: its date is not before ordinal 0 and [end_dt], read on the
    clock of [d], is no later than the midnight that starts the last day of
    the calendar (9999-12-31), the day that has no next day. *)
Definition in_calendar (end_dt d : datetime) : Prop :=
  0 <= wall d /\ utc end_dt + utcoffset d <= MAXORDINAL * MICROS_PER_DAY.

(** The part of the range [[rs, re]] that falls in the working window of
    calendar day [day], the days being those of the clock of [rs]; its
    length in microseconds. *)
Definition window_overlap (working_hours_start working_hours_end : Z)
    (rs re : datetime) (day : Z) : Z :=
  Z.max 0
    (Z.min (utc re) (day * MICROS_PER_DAY + working_hours_end * MICROS_PER_HOUR - utcoffset rs)
     - Z.max (utc rs) (day * MICROS_PER_DAY + working_hours_start * MICROS_PER_HOUR - utcoffset rs)).

(** A length counts when it reaches the minimum duration. *)
Definition at_least (min_duration_minutes : Z) (x : Z) : Z :=
  if min_duration_minutes * MICROS_PER_MINUTE <=? x then x else 0.

(** The sum of [f] over the [n] days from [first] on. *)
Fixpoint sum_days (f : Z -> Z) (first : Z) (n : nat) : Z :=
  match n with
  | O => 0
  | S n' => f first + sum_days f (first + 1) n'
  end.

(** The busy ranges of [l] start no earlier than [lo] and are in the order
    of their starts. *)
Fixpoint sorted_from (lo : Z) (l : list interval) : Prop :=
  match l with
  | [] => True
  | b :: r => lo <= utc (fst b) /\ sorted_from (utc (fst b)) r
  end.

(** Returned slots are pairwise non-overlapping and strictly increasing by
    start: of two slots, the one returned first starts strictly earlier and
    ends no later than the other starts. *)
Fixpoint increasing_disjoint (l : list interval) : Prop :=
  match l with
  | [] => True
  | s :: r =>
      Forall (fun s' => utc (fst s) < utc (fst s') /\ utc (snd s) <= utc (fst s')) r
      /\ increasing_disjoint r
  end.

(** The aware value that reads [hour]:00, or [hour]:[minute], on calendar
    day [day] at the offset [off]. *)
Definition at_hour (day hour off : Z) : datetime :=
  mkdt (day * MICROS_PER_DAY + hour * MICROS_PER_HOUR) (Some off).

Definition at_time (day hour minute off : Z) : datetime :=
  mkdt (day * MICROS_PER_DAY + hour * MICROS_PER_HOUR + minute * MICROS_PER_MINUTE)
       (Some off).

(** The instant that [create_event] compares with now: a naive start time
    is read on the clock of the machine. *)
Definition instant_of (w : world) (d : datetime) : Z :=
  match tzinfo d with
  | None => wall d - local_utcoffset w
  | Some off => wall d - off
  end.

(** ** Merging two busy intervals *)

(** Two busy intervals overlap or are adjacent when each starts no later
    than the other ends; their union runs from the earlier start to the
    later end, written [min(a1, b1)] and [max(a2, b2)]. *)
Definition overlapping_or_adjacent (a b : interval) : Prop :=
  utc (fst a) <= utc (snd b) /\ utc (fst b) <= utc (snd a).

Definition interval_union (a b : interval) : interval :=
  (if utc (fst b) <? utc (fst a) then fst b else fst a,
   if utc (snd a) <? utc (snd b) then snd b else snd a).

Definition endpoints (l : list interval) : list datetime :=
  flat_map (fun b => [fst b; snd b]) l.

(** The busy intervals write one instant in one way (as they do when the
    provider reports them all at one offset). *)
Definition coherent (l : list interval) : Prop :=
  forall x y, In x (endpoints l) -> In y (endpoints l) -> utc x = utc y -> x = y.

(** The sort and the sweep on aware values, where no comparison raises:
    [pure_sort] is [sort_by_start], and [emitted] is what the sweep from
    [current] adds to [free_slots], the gap after the last busy range
    included and the [break] left out. *)
Fixpoint pure_insert (x : interval) (l : list interval) : list interval :=
  match l with
  | [] => [x]
  | y :: l' => if utc (fst y) <? utc (fst x) then y :: pure_insert x l' else x :: l
  end.

Fixpoint pure_sort (l : list interval) : list interval :=
  match l with
  | [] => []
  | x :: l' => pure_insert x (pure_sort l')
  end.

Fixpoint emitted (min_duration_minutes working_hours_start working_hours_end : Z)
    (end_dt : datetime) (busy : list interval) (current : datetime)
  : result (list interval) :=
  match busy with
  | [] =>
      if utc current <? utc end_dt
      then clip_to_working_hours min_duration_minutes working_hours_start
             working_hours_end current end_dt
      else Ok []
  | b :: rest =>
      if utc (snd b) <=? utc current
      then emitted min_duration_minutes working_hours_start working_hours_end
             end_dt rest current
      else
        slots <- (if utc current <? utc (fst b)
                  then clip_to_working_hours min_duration_minutes working_hours_start
                         working_hours_end current
                         (if utc end_dt <? utc (fst b) then end_dt else fst b)
                  else Ok []) ;;
        more <- emitted min_duration_minutes working_hours_start working_hours_end
                  end_dt rest (snd b) ;;
        Ok (slots ++ more)
  end.

(** Two orders of one list that differ in the order of busy ranges with the
    same start. *)
Inductive tie_equiv : list interval -> list interval -> Prop :=
| tie_refl (l : list interval) : tie_equiv l l
| tie_swap (x y : interval) (l : list interval) :
    utc (fst x) = utc (fst y) -> tie_equiv (x :: y :: l) (y :: x :: l)
| tie_cons (x : interval) (l l' : list interval) :
    tie_equiv l l' -> tie_equiv (x :: l) (x :: l')
| tie_trans (l1 l2 l3 : list interval) :
    tie_equiv l1 l2 -> tie_equiv l2 l3 -> tie_equiv l1 l3.

(** Busy intervals of 2026-03-02 for the examples: 10:00-10:45 and
    10:30-11:00 at +00:00, and 10:15-11:00 with its end written
    12:00+01:00. *)
Definition busy_early : interval := (at_hour 739677 10 0, at_time 739677 10 45 0).
Definition busy_late : interval := (at_time 739677 10 30 0, at_hour 739677 11 0).
Definition busy_other_offset : interval :=
  (at_time 739677 10 15 0, at_hour 739677 12 MICROS_PER_HOUR).

(** ** The cursor of the clipper *)

(** The loop of [clip_to_working_hours] once more, turn for turn as
    [clip_loop], returning with the slots the value [current] has when the
    test [current < gap_end] fails and the loop is left. *)
Fixpoint clip_loop_cursor (min_duration_minutes working_hours_start working_hours_end : Z)
    (fuel : nat) (gap_start gap_end current : datetime)
  : option (result (list interval * datetime)) :=
  match fuel with
  | O => None
  | S fuel' =>
      match dt_lt current gap_end with
      | Raise e => Some (Raise e)
      | Ok false => Some (Ok ([], current))
      | Ok true =>
          match clip_body min_duration_minutes working_hours_start working_hours_end
                  gap_start gap_end current with
          | Raise e => Some (Raise e)
          | Ok (yielded, current') =>
              match clip_loop_cursor min_duration_minutes working_hours_start
                      working_hours_end fuel' gap_start gap_end current' with
              | None => None
              | Some (Raise e) => Some (Raise e)
              | Some (Ok (rest, final)) => Some (Ok (yielded ++ rest, final))
              end
          end
      end
  end.

(** What a run of the loop with its cursor leaves when the cursor is
    dropped. *)
Definition slots_of_run (r : option (result (list interval * datetime)))
  : option (result (list interval)) :=
  match r with
  | None => None
  | Some (Raise e) => Some (Raise e)
  | Some (Ok (slots, _)) => Some (Ok slots)
  end.

(** ** The tools that read and change events *)

(** The body of a [patch] request: the keys that [update_event] can set,
    [None] for a key that the dict does not hold. *)
Record patch_body : Type := {
  patch_summary : option string;
  patch_description : option string;
  patch_location : option string;
  patch_start : option (string * string);
  patch_end : option (string * string)
}.

(** The arguments of [events().list]. *)
Record list_request : Type := {
  list_calendarId : string;
  list_timeMin : string;
  list_timeMax : option string;
  list_maxResults : option Z;
  list_singleEvents : bool;
  list_orderBy : string
}.

(** The other answers of the provider: [events().get(calendarId,
    eventId)], [events().patch(calendarId, eventId, body)] and
    [events().list(...)], each after [execute()]; the last is read at its
    key ["items"], an absent key being the empty list. *)
Record provider : Type := {
  events_get : string -> string -> result event;
  events_patch : string -> string -> patch_body -> result event;
  events_list : list_request -> result (list event)
}.

(** The truth value of what [dict.get] returns for a text: a missing key
    and the empty string are false; and [a or b]. *)
Definition truthy (v : option string) : bool :=
  match v with
  | Some (String _ _) => true
  | _ => false
  end.

Definition py_or (a b : option string) : option string :=
  if truthy a then a else b.

(** [d + td] for a [timedelta] of [td] microseconds: the result must be a
    date of the calendar. *)
Definition add_timedelta (d : datetime) (td : Z) : result datetime :=
  let t := wall d + td in
  if (MICROS_PER_DAY <=? t) && (t <? (MAXORDINAL + 1) * MICROS_PER_DAY)
  then Ok (mkdt t (tzinfo d)) else Raise OverflowError.

Definition patch_is_empty (patch : patch_body) : bool :=
  match patch_summary patch, patch_description patch, patch_location patch,
        patch_start patch, patch_end patch with
  | None, None, None, None, None => true
  | _, _, _, _, _ => false
  end.

Section EventTools.

Local Open Scope string_scope.

Variable fromisoformat : string -> option datetime.
Variable isoformat : datetime -> string.
Variable exn_text : exn -> string.

(** [timedelta(minutes=td.total_seconds() / 60)] in microseconds, for a
    [timedelta] [td] of the given number of microseconds: the two float
    quotients and the rounding of the [timedelta] constructor. *)
Variable float_minutes : Z -> Z.

Variable w : world.
Variable p : provider.

Notation _parse_iso8601 := (_parse_iso8601 fromisoformat).
Notation http_reply := (http_reply exn_text).

(** The [except HttpError] clauses of [update_event], which look at the
    status 404 first. *)
Definition http_reply_404 (event_id : string) (e : exn) : string :=
  match e with
  | HttpError status _ =>
      if (status =? 404)%Z then errors.event_not_found event_id else http_reply e
  | _ => http_reply e
  end.

(** Lines 124-152 of [update_event]: the patch body. *)
Definition build_patch (existing : event) (title start_time : option string)
    (duration_minutes : option Z) (description location : option string)
  : result patch_body :=
  let timed (d : datetime) := Some (isoformat d, "UTC") in
  times <-
    match start_time with
    | Some start_time =>
        start_dt <- _parse_iso8601 start_time ;;
        match duration_minutes with
        | Some duration_minutes =>
            end_dt <- add_minutes start_dt duration_minutes ;;
            Ok (timed start_dt, timed end_dt)
        | None =>
            let old_start := py_or (fst (event_start existing)) (snd (event_start existing)) in
            let old_end := py_or (fst (event_end existing)) (snd (event_end existing)) in
            match old_start, old_end with
            | Some (String _ _ as old_start), Some (String _ _ as old_end) =>
                s <- _parse_iso8601 old_start ;;
                e <- _parse_iso8601 old_end ;;
                td <- dt_sub e s ;;
                end_dt <- add_timedelta start_dt (float_minutes td) ;;
                Ok (timed start_dt, timed end_dt)
            | _, _ => Ok (timed start_dt, None)
            end
        end
    | None =>
        match duration_minutes with
        | Some duration_minutes =>
            let old_start := py_or (fst (event_start existing)) (snd (event_start existing)) in
            match old_start with
            | Some (String _ _ as old_start) =>
                start_dt <- _parse_iso8601 old_start ;;
                end_dt <- add_minutes start_dt duration_minutes ;;
                Ok (None, timed end_dt)
            | _ => Ok (None, None)
            end
        | None => Ok (None, None)
        end
    end ;;
  Ok {| patch_summary := title;
        patch_description := description;
        patch_location := location;
        patch_start := fst times;
        patch_end := snd times |}.

(** [update_event]: the reply, or the exception that leaves it, and the
    patch requests sent to the provider. *)
Definition update_event (event_id : string) (title start_time : option string)
    (duration_minutes : option Z) (description location : option string)
    (calendar_id : string)
  : result string * list (string * string * patch_body) :=
  match (_ <- _get_service w ;; events_get p calendar_id event_id) with
  | Raise FileNotFoundError => (Ok errors.AUTH_EXPIRED, [])
  | Raise e => (Ok (http_reply_404 event_id e), [])
  | Ok existing =>
      match build_patch existing title start_time duration_minutes description location with
      | Raise e => (Raise e, [])
      | Ok patch =>
          if patch_is_empty patch
          then (Ok ("No changes provided. Event: " ++ _format_event_summary existing), [])
          else
            match events_patch p calendar_id event_id patch with
            | Raise e =>
                (Ok (http_reply_404 event_id e), [(calendar_id, event_id, patch)])
            | Ok updated =>
                (Ok ("Updated event: " ++ _format_event_summary updated),
                 [(calendar_id, event_id, patch)])
            end
      end
  end.

(** ["\n".join(lines)] for the lines of a list of events under a header. *)
Definition render_events (header : string) (events : list event) : string :=
  fold_left (fun text ev => text ++ newline ++ "  " ++ _format_event_summary ev)
    events header.

(** Lines 309-322 of [get_events_at_time]: the events that overlap [dt]. *)
Fixpoint overlapping_events (dt : datetime) (events : list event) : result (list event) :=
  match events with
  | [] => Ok []
  | ev :: rest =>
      let start_raw := py_or (fst (event_start ev)) (snd (event_start ev)) in
      let end_raw := py_or (fst (event_end ev)) (snd (event_end ev)) in
      match start_raw, end_raw with
      | Some (String _ _ as start_raw), Some (String _ _ as end_raw) =>
          ev_start <- _parse_iso8601 start_raw ;;
          ev_end <- _parse_iso8601 end_raw ;;
          let ev_start :=
            match tzinfo ev_start with
            | None => replace_tzinfo ev_start (tzinfo dt)
            | Some _ => ev_start
            end in
          let ev_end :=
            match tzinfo ev_end with
            | None => replace_tzinfo ev_end (tzinfo dt)
            | Some _ => ev_end
            end in
          started <- dt_le ev_start dt ;;
          covers <- (if started then dt_le dt ev_end else Ok false) ;;
          overlapping <- overlapping_events dt rest ;;
          Ok (if covers then ev :: overlapping else overlapping)
      | _, _ => overlapping_events dt rest
      end
  end.

(** Lines 273-278: the instant asked about, made aware, and the window of
    one day before and after it. *)
Definition window_of (datetime_str : string) : result (datetime * datetime * datetime) :=
  _ <- _get_service w ;;
  dt <- _parse_iso8601 datetime_str ;;
  let dt :=
    match tzinfo dt with
    | None => replace_tzinfo dt (Some (local_utcoffset w))
    | Some _ => dt
    end in
  window_start <- add_timedelta dt (- MICROS_PER_DAY) ;;
  window_end <- add_timedelta dt MICROS_PER_DAY ;;
  Ok (dt, window_start, window_end).

(** [get_events_at_time]: the reply, or the exception that leaves it, and
    the list requests sent to the provider. *)
Definition get_events_at_time (datetime_str calendar_id : string)
  : result string * list list_request :=
  match window_of datetime_str with
  | Raise FileNotFoundError => (Ok errors.AUTH_EXPIRED, [])
  | Raise e => (Ok (errors.unexpected_failure (exn_text e)), [])
  | Ok (dt, window_start, window_end) =>
      let request := {| list_calendarId := calendar_id;
                        list_timeMin := isoformat window_start;
                        list_timeMax := Some (isoformat window_end);
                        list_maxResults := None;
                        list_singleEvents := true;
                        list_orderBy := "startTime" |} in
      match events_list p request with
      | Raise e => (Ok (http_reply e), [request])
      | Ok events =>
          (overlapping <- overlapping_events dt events ;;
           Ok match overlapping with
              | [] => "No events at " ++ datetime_str ++ "."
              | _ => render_events ("Events at " ++ datetime_str ++ ":") overlapping
              end,
           [request])
      end
  end.

(** [list_events]: the reply and the list requests sent to the provider. *)
Definition list_events (max_results : Z) (calendar_id : string)
  : string * list list_request :=
  let handler (e : exn) : string :=
    match e with
    | FileNotFoundError => errors.AUTH_EXPIRED
    | _ => http_reply e
    end in
  match _get_service w with
  | Raise e => (handler e, [])
  | Ok _ =>
      let now := _get_tz_aware_now w in
      let request := {| list_calendarId := calendar_id;
                        list_timeMin := isoformat now;
                        list_timeMax := None;
                        list_maxResults := Some max_results;
                        list_singleEvents := true;
                        list_orderBy := "startTime" |} in
      match events_list p request with
      | Raise e => (handler e, [request])
      | Ok events =>
          (match events with
           | [] => "No upcoming events."
           | _ => render_events ("Next " ++ str_int max_results ++ " upcoming events:")
                    events
           end,
           [request])
      end
  end.

End EventTools.

(** ** auth.py *)

Module auth.

(** What the code reads of a [Credentials] object. *)
Record Credentials : Type := {
  valid : bool;
  expired : bool;
  refresh_token : option string;
  to_json : string
}.

(** How the writing of token.json in lines 43-45 ends.  [mkdir] or
    [open(_TOKEN_FILE, "w")] raises, and the file is as it was; or [open]
    has emptied the file and [creds.to_json()] or [f.write] raises, the
    file holding what was written by then, nothing when it is [to_json()]
    that raised; or the text is written. *)
Inductive write_end : Type :=
| NotOpened (e : exn)
| Broken (e : exn) (written : string)
| Written.

(** The two files, each with its text, [None] when it does not exist, and
    how the file system answers the writing of a text to token.json. *)
Record files : Type := {
  _TOKEN_FILE : option string;
  _CREDENTIALS_FILE : option string;
  write_token : string -> write_end
}.

(** The Google libraries: [Credentials.from_authorized_user_file] on the
    text of token.json, [creds.refresh(Request())], which changes the
    object, and [InstalledAppFlow.from_client_secrets_file(...)
    .run_local_server(port=0)] on the text of client_secret.json. *)
Record google : Type := {
  from_authorized_user_file : string -> result Credentials;
  refresh : Credentials -> result Credentials;
  run_local_server : string -> result Credentials
}.

Inductive call : Type :=
| Refresh (creds : Credentials)
| RunLocalServer (client_secret : string).

(** What a run leaves: what it returns or raises, the files, and the calls
    made to the Google libraries after the token was read. *)
Record outcome : Type := {
  returned : result Credentials;
  disk : files;
  calls : list call
}.

Definition with_token (fs : files) (text : string) : files :=
  {| _TOKEN_FILE := Some text;
     _CREDENTIALS_FILE := _CREDENTIALS_FILE fs;
     write_token := write_token fs |}.

(** Lines 42-45: the token is written, or the writing raises. *)
Definition persist (fs : files) (creds : Credentials) : result unit * files :=
  match write_token fs (to_json creds) with
  | NotOpened e => (Raise e, fs)
  | Broken e written => (Raise e, with_token fs written)
  | Written => (Ok tt, with_token fs (to_json creds))
  end.

Definition get_credentials (g : google) (fs : files) : outcome :=
  let loaded : result (option Credentials) :=
    match _TOKEN_FILE fs with
    | Some text => creds <- from_authorized_user_file g text ;; Ok (Some creds)
    | None => Ok None
    end in
  let persisted (creds : Credentials) (made : list call) : outcome :=
    let (written, fs') := persist fs creds in
    {| returned := _ <- written ;; Ok creds; disk := fs'; calls := made |} in
  let run_flow : outcome :=
    match _CREDENTIALS_FILE fs with
    | None => {| returned := Raise FileNotFoundError; disk := fs; calls := [] |}
    | Some client_secret =>
        match run_local_server g client_secret with
        | Raise e => {| returned := Raise e; disk := fs;
                        calls := [RunLocalServer client_secret] |}
        | Ok creds => persisted creds [RunLocalServer client_secret]
        end
    end in
  match loaded with
  | Raise e => {| returned := Raise e; disk := fs; calls := [] |}
  | Ok None => run_flow
  | Ok (Some creds) =>
      if valid creds
      then {| returned := Ok creds; disk := fs; calls := [] |}
      else if expired creds && truthy (refresh_token creds)
      then
        match refresh g creds with
        | Raise e => {| returned := Raise e; disk := fs; calls := [Refresh creds] |}
        | Ok creds' => persisted creds' [Refresh creds]
        end
      else run_flow
  end.

End auth.

(** The credentials of a [world] taken from [auth.get_credentials] on the
    files as they are. *)
Definition world_with_files (g : auth.google) (fs : auth.files) (w : world) : world := {|
  get_credentials := _ <- auth.returned (auth.get_credentials g fs) ;; Ok tt;
  build := build w;
  settings_timezone := settings_timezone w;
  local_utcoffset := local_utcoffset w;
  now_utc := now_utc w;
  freebusy_query := freebusy_query w;
  events_insert := events_insert w
|}.

(** ** Vocabulary of the further properties *)

(** A busy interval meets the range when it ends after [start_dt] and
    starts no later than [end_dt]. *)
Definition meets_range (start_dt end_dt : datetime) (b : interval) : bool :=
  (utc start_dt <? utc (snd b)) && (utc (fst b) <=? utc end_dt).

(** A text of white space only. *)
Fixpoint all_space (s : string) : bool :=
  match s with
  | EmptyString => true
  | String c r => is_space c && all_space r
  end.

(** The start and the end of an event as the tools read them: the
    ["dateTime"], or else the ["date"]. *)
Definition start_raw (ev : event) : option string :=
  py_or (fst (event_start ev)) (snd (event_start ev)).

Definition end_raw (ev : event) : option string :=
  py_or (fst (event_end ev)) (snd (event_end ev)).

Section EventVocabulary.

Variable fromisoformat : string -> option datetime.

(** The instant that a timestamp of an event denotes for a question about
    [dt]: a timestamp without offset, such as the date of an all-day event,
    is read at the offset of [dt]. *)
Definition event_time (dt : datetime) (raw : option string) : option datetime :=
  match raw with
  | Some (String _ _ as text) =>
      match _parse_iso8601 fromisoformat text with
      | Ok d => Some (match tzinfo d with
                      | None => mkdt (wall d) (tzinfo dt)
                      | Some _ => d
                      end)
      | Raise _ => None
      end
  | _ => None
  end.

(** An event that lacks a start or an end, or whose start and end are both
    timestamps. *)
Definition readable (dt : datetime) (ev : event) : bool :=
  negb (truthy (start_raw ev) && truthy (end_raw ev))
  || match event_time dt (start_raw ev), event_time dt (end_raw ev) with
     | Some _, Some _ => true
     | _, _ => false
     end.

(** The event has a start and an end, and [dt] lies between them, end
    points included. *)
Definition happening_at (dt : datetime) (ev : event) : bool :=
  match event_time dt (start_raw ev), event_time dt (end_raw ev) with
  | Some s, Some e => (utc s <=? utc dt) && (utc dt <=? utc e)
  | _, _ => false
  end.

End EventVocabulary.

(** ** Examples of the further properties *)

(** A provider that knows one event, a meeting of one hour on 2026-03-02,
    and answers every request with it. *)
Definition example_event : event := {|
  event_id := Some "ev123"%string;
  event_summary := Some "Review"%string;
  event_start := (Some "2026-03-02T10:00:00+00:00"%string, None);
  event_end := (Some "2026-03-02T11:00:00+00:00"%string, None);
  event_location := None
|}.

(** An all-day event of 2026-03-02 and an event without dates. *)
Definition example_all_day : event := {|
  event_id := Some "ev456"%string;
  event_summary := Some "Fair"%string;
  event_start := (None, Some "2026-03-02"%string);
  event_end := (None, Some "2026-03-03"%string);
  event_location := Some "Hall 4"%string
|}.

Definition example_undated : event := {|
  event_id := Some "ev789"%string;
  event_summary := None;
  event_start := (None, None);
  event_end := (None, None);
  event_location := None
|}.

Definition example_provider : provider := {|
  events_get := fun _ _ => Ok example_event;
  events_patch := fun _ _ _ => Ok example_event;
  events_list := fun _ => Ok [example_all_day; example_undated; example_event]
|}.

(** Exact arithmetic for the float quotient, as for a duration of whole
    minutes. *)
Definition exact_minutes (td : Z) : Z := td.

(** Credentials that are valid, and expired ones with a refresh token; the
    libraries read a token back as it was written and refresh to the valid
    ones. *)
Definition valid_credentials : auth.Credentials := {|
  auth.valid := true;
  auth.expired := false;
  auth.refresh_token := Some "1//refresh"%string;
  auth.to_json := "{valid}"%string
|}.

Definition expired_credentials : auth.Credentials := {|
  auth.valid := false;
  auth.expired := true;
  auth.refresh_token := Some "1//refresh"%string;
  auth.to_json := "{expired}"%string
|}.

Definition example_google : auth.google := {|
  auth.from_authorized_user_file := fun text =>
    if String.eqb text "{valid}" then Ok valid_credentials
    else if String.eqb text "{expired}" then Ok expired_credentials
    else Raise ValueError;
  auth.refresh := fun _ => Ok valid_credentials;
  auth.run_local_server := fun _ => Ok valid_credentials
|}.

Definition no_files : auth.files :=
  {| auth._TOKEN_FILE := None;
     auth._CREDENTIALS_FILE := None;
     auth.write_token := fun _ => auth.Written |}.

Definition files_with_expired_token : auth.files :=
  {| auth._TOKEN_FILE := Some "{expired}"%string;
     auth._CREDENTIALS_FILE := Some "{client}"%string;
     auth.write_token := fun _ => auth.Written |}.

(** The same two files on a disk that is full: token.json can be opened,
    and the writing then fails with nothing written. *)
Definition files_on_full_disk : auth.files :=
  {| auth._TOKEN_FILE := Some "{expired}"%string;
     auth._CREDENTIALS_FILE := Some "{client}"%string;
     auth.write_token := fun _ => auth.Broken OtherException EmptyString |}.

(** The text holds no vertical bar, as the event ids of the provider. *)
Fixpoint no_bar (s : string) : bool :=
  match s with
  | EmptyString => true
  | String c r => negb (Ascii.eqb c "|") && no_bar r
  end.

(** The cases of [get_credentials] are met by taking apart, in the order
    of the code, the token, the credentials read, the call made and the
    end of the writing. *)
Ltac auth_cases :=
  unfold auth.get_credentials, auth.persist;
  repeat match goal with
    | |- context [match auth._TOKEN_FILE ?fs with _ => _ end] =>
        destruct (auth._TOKEN_FILE fs) eqn:?
    | |- context [bind (auth.from_authorized_user_file ?g ?t) _] =>
        destruct (auth.from_authorized_user_file g t) eqn:?; cbn [bind]
    | |- context [if auth.valid ?c then _ else _] => destruct (auth.valid c) eqn:?
    | |- context [if auth.expired ?c && truthy (auth.refresh_token ?c) then _ else _] =>
        destruct (auth.expired c && truthy (auth.refresh_token c)) eqn:?
    | |- context [match auth.refresh ?g ?c with _ => _ end] =>
        destruct (auth.refresh g c) eqn:?
    | |- context [match auth._CREDENTIALS_FILE ?fs with _ => _ end] =>
        destruct (auth._CREDENTIALS_FILE fs) eqn:?
    | |- context [match auth.run_local_server ?g ?t with _ => _ end] =>
        destruct (auth.run_local_server g t) eqn:?
    | |- context [match auth.write_token ?fs ?t with _ => _ end] =>
        destruct (auth.write_token fs t) eqn:?
    end;
  cbn.
(** * Properties *)

(** ** Results and comparisons *)

Lemma bind_ok {A B : Type} (c : result A) (k : A -> result B) (b : B) :
  bind c k = Ok b -> exists a, c = Ok a /\ k a = Ok b.
Proof.
  destruct c as [a|e]; simpl; intros H; [exists a; auto | discriminate].
Qed.

Tactic Notation "bind_inv" hyp(H) "as" ident(a) ident(Ha) :=
  apply bind_ok in H; destruct H as (a & Ha & H).

Lemma aware_some (d : datetime) : aware d -> exists off, tzinfo d = Some off.
Proof.
  unfold aware; destruct (tzinfo d) as [off|]; [exists off; reflexivity | congruence].
Qed.

Lemma comparable_aware (a b : datetime) :
  aware a -> aware b -> comparable a b = true.
Proof.
  intros Ha Hb; apply aware_some in Ha, Hb.
  destruct Ha as [x Ha], Hb as [y Hb]; unfold comparable; rewrite Ha, Hb; reflexivity.
Qed.

Lemma comparable_same_tz (a b : datetime) :
  tzinfo a = tzinfo b -> comparable a b = true.
Proof.
  unfold comparable; intros ->; destruct (tzinfo b); reflexivity.
Qed.

Lemma comparable_aware_l (a b : datetime) :
  comparable a b = true -> aware b -> aware a.
Proof.
  unfold comparable, aware; destruct (tzinfo a), (tzinfo b); congruence.
Qed.

Lemma comparable_aware_r (a b : datetime) :
  comparable a b = true -> aware a -> aware b.
Proof.
  unfold comparable, aware; destruct (tzinfo a), (tzinfo b); congruence.
Qed.

Lemma dt_lt_ok (a b : datetime) (r : bool) :
  dt_lt a b = Ok r -> comparable a b = true /\ r = (utc a <? utc b).
Proof.
  unfold dt_lt; destruct (comparable a b); [intros [= <-]; auto | discriminate].
Qed.

Lemma dt_le_ok (a b : datetime) (r : bool) :
  dt_le a b = Ok r -> comparable a b = true /\ r = (utc a <=? utc b).
Proof.
  unfold dt_le; destruct (comparable a b); [intros [= <-]; auto | discriminate].
Qed.

Lemma py_max_ok (a b m : datetime) :
  py_max a b = Ok m ->
  comparable a b = true /\ m = (if utc a <? utc b then b else a).
Proof.
  unfold py_max, dt_gt; intros H; bind_inv H as v E.
  apply dt_lt_ok in E; destruct E as [C ->]; injection H as <-; auto.
Qed.

Lemma py_min_ok (a b m : datetime) :
  py_min a b = Ok m ->
  comparable b a = true /\ m = (if utc b <? utc a then b else a).
Proof.
  unfold py_min; intros H; bind_inv H as v E.
  apply dt_lt_ok in E; destruct E as [C ->]; injection H as <-; auto.
Qed.

Lemma dt_lt_aware (a b : datetime) :
  aware a -> aware b -> dt_lt a b = Ok (utc a <? utc b).
Proof. intros; unfold dt_lt; rewrite comparable_aware; auto. Qed.

Lemma dt_le_aware (a b : datetime) :
  aware a -> aware b -> dt_le a b = Ok (utc a <=? utc b).
Proof. intros; unfold dt_le; rewrite comparable_aware; auto. Qed.

Lemma py_max_aware (a b : datetime) :
  aware a -> aware b -> py_max a b = Ok (if utc a <? utc b then b else a).
Proof. intros; unfold py_max, dt_gt; rewrite dt_lt_aware; auto. Qed.

Lemma py_min_aware (a b : datetime) :
  aware a -> aware b -> py_min a b = Ok (if utc b <? utc a then b else a).
Proof. intros; unfold py_min; rewrite dt_lt_aware; auto. Qed.

Lemma dt_sub_aware (a b : datetime) :
  aware a -> aware b -> dt_sub a b = Ok (utc a - utc b).
Proof. intros; unfold dt_sub; rewrite comparable_aware; auto. Qed.

(** ** Calendar days *)

Lemma toordinal_bounds (d : datetime) :
  toordinal d * MICROS_PER_DAY <= wall d < toordinal d * MICROS_PER_DAY + MICROS_PER_DAY.
Proof.
  unfold toordinal.
  pose proof (Z.div_mod (wall d) MICROS_PER_DAY) as E.
  pose proof (Z.mod_pos_bound (wall d) MICROS_PER_DAY) as B.
  unfold MICROS_PER_DAY in *; lia.
Qed.

Lemma ordinal_unique (w o : Z) :
  o * MICROS_PER_DAY <= w < o * MICROS_PER_DAY + MICROS_PER_DAY ->
  w / MICROS_PER_DAY = o.
Proof.
  intros H; symmetry; apply (Z.div_unique w MICROS_PER_DAY o (w - o * MICROS_PER_DAY));
    unfold MICROS_PER_DAY in *; lia.
Qed.

Lemma valid_hour_spec (h : Z) : valid_hour h = true <-> 0 <= h <= 23.
Proof. unfold valid_hour; rewrite andb_true_iff, !Z.leb_le; tauto. Qed.

Lemma toordinal_at_hour (day hour : Z) (tz : option Z) :
  0 <= hour <= 23 ->
  toordinal (mkdt (day * MICROS_PER_DAY + hour * MICROS_PER_HOUR) tz) = day.
Proof.
  intros H; unfold toordinal; simpl; apply ordinal_unique.
  unfold MICROS_PER_DAY, MICROS_PER_HOUR; lia.
Qed.

Lemma replace_hour_ok (d : datetime) (h : Z) (r : datetime) :
  replace_hour d h = Ok r ->
  0 <= h <= 23 /\ r = mkdt (toordinal d * MICROS_PER_DAY + h * MICROS_PER_HOUR) (tzinfo d).
Proof.
  unfold replace_hour; destruct (valid_hour h) eqn:V; [|discriminate].
  intros [= <-]; apply valid_hour_spec in V; auto.
Qed.

Lemma date_add_days_ok (d : datetime) (n o : Z) :
  date_add_days d n = Ok o -> o = toordinal d + n /\ 0 < o <= MAXORDINAL.
Proof.
  unfold date_add_days.
  destruct ((0 <? toordinal d + n) && (toordinal d + n <=? MAXORDINAL)) eqn:B; [|discriminate].
  intros [= <-]; apply andb_true_iff in B; destruct B as [B1 B2].
  apply Z.ltb_lt in B1; apply Z.leb_le in B2; auto.
Qed.

Lemma datetime_at_ok (day hour : Z) (tz : option Z) (r : datetime) :
  datetime_at day hour tz = Ok r ->
  0 <= hour <= 23 /\ r = mkdt (day * MICROS_PER_DAY + hour * MICROS_PER_HOUR) tz.
Proof.
  unfold datetime_at; destruct (valid_hour hour) eqn:V; [|discriminate].
  intros [= <-]; apply valid_hour_spec in V; auto.
Qed.

(** ** One day of the working-hours clipper *)

Section ClipFacts.

Variable min_duration_minutes : Z.
Variable working_hours_start : Z.
Variable working_hours_end : Z.

Notation clip_body := (clip_body min_duration_minutes working_hours_start working_hours_end).
Notation clip_loop := (clip_loop min_duration_minutes working_hours_start working_hours_end).
Notation clip_to_working_hours :=
  (clip_to_working_hours min_duration_minutes working_hours_start working_hours_end).
Notation slot_start_of := (slot_start_of working_hours_start).
Notation slot_end_of := (slot_end_of working_hours_end).
Notation yield_of := (yield_of min_duration_minutes working_hours_start working_hours_end).
Notation next_cursor := (next_cursor working_hours_start).

Lemma clip_body_eq (gap_start gap_end current : datetime) :
  comparable current gap_end = true ->
  clip_body gap_start gap_end current =
  if valid_hour working_hours_start && valid_hour working_hours_end
  then if (0 <? toordinal current + 1) && (toordinal current + 1 <=? MAXORDINAL)
       then Ok (yield_of gap_end current, next_cursor gap_start current)
       else Raise OverflowError
  else Raise ValueError.
Proof.
  intros C.
  assert (Cge : forall x, tzinfo x = tzinfo current -> comparable gap_end x = true).
  { intros x Hx; revert C; unfold comparable; rewrite Hx.
    destruct (tzinfo current), (tzinfo gap_end); auto. }
  assert (Cx : forall x y, (tzinfo x = tzinfo current \/ x = gap_end) ->
                      (tzinfo y = tzinfo current \/ y = gap_end) -> comparable x y = true).
  { intros x y [Hx| ->] [Hy| ->]; unfold comparable; rewrite ?Hx, ?Hy;
      revert C; unfold comparable; destruct (tzinfo current), (tzinfo gap_end); auto. }
  unfold clip_body, replace_hour.
  destruct (valid_hour working_hours_start) eqn:Vs; simpl; [|reflexivity].
  destruct (valid_hour working_hours_end) eqn:Ve; simpl; [|reflexivity].
  fold (work_at current working_hours_start) (work_at current working_hours_end).
  unfold py_max, py_min, dt_gt, dt_lt at 1 2.
  rewrite (comparable_same_tz current (work_at current working_hours_start)) by reflexivity.
  rewrite (Cx (work_at current working_hours_end) gap_end) by auto.
  simpl.
  fold (slot_start_of current) (slot_end_of gap_end current).
  assert (Cs : comparable (slot_start_of current) (slot_end_of gap_end current) = true).
  { apply Cx; unfold slot_start_of, slot_end_of;
      repeat match goal with |- context [if ?b then _ else _] => destruct b end; auto. }
  assert (Cs' : comparable (slot_end_of gap_end current) (slot_start_of current) = true).
  { apply Cx; unfold slot_start_of, slot_end_of;
      repeat match goal with |- context [if ?b then _ else _] => destruct b end; auto. }
  unfold dt_lt, dt_sub; rewrite Cs, Cs'; simpl.
  unfold date_add_days, datetime_at; rewrite Vs.
  unfold yield_of, next_cursor.
  destruct (utc (slot_start_of current) <? utc (slot_end_of gap_end current)); simpl;
    destruct ((0 <? toordinal current + 1) && (toordinal current + 1 <=? MAXORDINAL));
    reflexivity.
Qed.

Lemma next_cursor_ordinal (gap_start current : datetime) :
  valid_hour working_hours_start = true ->
  toordinal (next_cursor gap_start current) = toordinal current + 1.
Proof.
  intros V; apply valid_hour_spec in V; unfold next_cursor; apply toordinal_at_hour; auto.
Qed.


(** ** The loop of the clipper: fuel *)

Lemma clip_loop_fuel (gap_start gap_end : datetime) (n : nat) :
  forall current,
    tzinfo current = tzinfo gap_start ->
    (Z.to_nat ((utc gap_end + utcoffset gap_start) / MICROS_PER_DAY
               - toordinal current + 1) + 1 <= n)%nat ->
    exists r, clip_loop n gap_start gap_end current = Some r.
Proof.
  induction n as [|n IH]; intros current Htz Hn; [lia|].
  simpl. unfold dt_lt.
  destruct (comparable current gap_end) eqn:C; [|eauto].
  destruct (utc current <? utc gap_end) eqn:L; [|eauto].
  rewrite clip_body_eq by exact C.
  destruct (valid_hour working_hours_start) eqn:Vs; simpl; [|eauto].
  destruct (valid_hour working_hours_end) eqn:Ve; simpl; [|eauto].
  destruct ((0 <? toordinal current + 1) && (toordinal current + 1 <=? MAXORDINAL));
    [|eauto].
  destruct (IH (next_cursor gap_start current)) as [r Hr].
  - reflexivity.
  - rewrite next_cursor_ordinal by exact Vs.
    apply Z.ltb_lt in L.
    assert (toordinal current <= (utc gap_end + utcoffset gap_start) / MICROS_PER_DAY).
    { unfold toordinal; apply Z.div_le_mono; [reflexivity|].
      unfold utc at 1 in L. unfold utcoffset in L at 1. rewrite Htz in L.
      fold (utcoffset gap_start) in L. lia. }
    lia.
  - rewrite Hr; destruct r; eauto.
Qed.

Lemma clip_loop_more_fuel (gap_start gap_end : datetime) (n : nat) :
  forall current r m,
    clip_loop n gap_start gap_end current = Some r ->
    (n <= m)%nat ->
    clip_loop m gap_start gap_end current = Some r.
Proof.
  induction n as [|n IH]; intros current r m H Hm; [discriminate|].
  destruct m as [|m]; [lia|].
  simpl in *.
  destruct (dt_lt current gap_end) as [[|]|]; auto.
  destruct (clip_body gap_start gap_end current) as [[yielded current']|]; auto.
  destruct (clip_loop n gap_start gap_end current') as [r'|] eqn:R; [|discriminate].
  rewrite (IH _ _ m R) by lia. exact H.
Qed.

Lemma clip_fuel_enough (gap_start gap_end : datetime) :
  clip_loop (clip_fuel gap_start gap_end) gap_start gap_end gap_start
  = Some (clip_to_working_hours gap_start gap_end).
Proof.
  unfold clip_to_working_hours.
  destruct (clip_loop_fuel gap_start gap_end (clip_fuel gap_start gap_end) gap_start)
    as [r Hr]; [reflexivity | unfold clip_fuel; lia |].
  rewrite Hr; reflexivity.
Qed.

Lemma clip_loop_run (gap_start gap_end : datetime) (n : nat) (r : result (list interval)) :
  clip_loop n gap_start gap_end gap_start = Some r ->
  clip_to_working_hours gap_start gap_end = r.
Proof.
  intros H.
  pose proof (clip_fuel_enough gap_start gap_end) as F.
  apply (clip_loop_more_fuel _ _ _ _ _ (Nat.max n (clip_fuel gap_start gap_end))) in H; [|lia].
  apply (clip_loop_more_fuel _ _ _ _ _ (Nat.max n (clip_fuel gap_start gap_end))) in F; [|lia].
  congruence.
Qed.

(** ** The loop of the clipper: what it yields *)

Lemma utcoffset_eq (a b : datetime) : tzinfo a = tzinfo b -> utcoffset a = utcoffset b.
Proof. unfold utcoffset; intros ->; reflexivity. Qed.

Lemma utc_work_at (current : datetime) (hour : Z) :
  utc (work_at current hour)
  = toordinal current * MICROS_PER_DAY + hour * MICROS_PER_HOUR - utcoffset current.
Proof. reflexivity. Qed.

Lemma utc_next_cursor (gap_start current : datetime) :
  utc (next_cursor gap_start current)
  = (toordinal current + 1) * MICROS_PER_DAY + working_hours_start * MICROS_PER_HOUR
    - utcoffset gap_start.
Proof. reflexivity. Qed.

Lemma chain_weaken (l : list interval) :
  forall lo lo' hi hi', lo' <= lo -> hi <= hi' -> chain lo l hi -> chain lo' l hi'.
Proof.
  induction l as [|s r IH]; simpl; intros lo lo' hi hi' Hlo Hhi H; [exact I|].
  destruct H as (H1 & H2 & H3 & H4); repeat split; try lia.
  apply (IH (utc (snd s)) (utc (snd s)) hi hi'); auto; lia.
Qed.

Lemma chain_app (l1 l2 : list interval) :
  forall a b b' c hi,
    chain a l1 b -> chain b' l2 c -> a <= b' -> b <= b' -> b <= hi -> c <= hi ->
    chain a (l1 ++ l2) hi.
Proof.
  induction l1 as [|s r IH]; simpl; intros a b b' c hi H1 H2 Hab Hb Hhi Hc.
  - apply (chain_weaken l2 b' a c hi); auto; lia.
  - destruct H1 as (H11 & H12 & H13 & H14); repeat split; try lia.
    apply (IH (utc (snd s)) b b' c hi); auto; lia.
Qed.



Lemma chain_In (l : list interval) :
  forall lo hi s, chain lo l hi -> In s l ->
                  lo <= utc (fst s) /\ utc (fst s) < utc (snd s) /\ utc (snd s) <= hi.
Proof.
  induction l as [|x r IH]; simpl; intros lo hi s H Hin; [contradiction|].
  destruct H as (H1 & H2 & H3 & H4); destruct Hin as [->|Hin]; [auto|].
  destruct (IH _ _ _ H4 Hin) as (A & B & C); repeat split; lia.
Qed.

Lemma chain_increasing (l : list interval) :
  forall lo hi, chain lo l hi -> increasing_disjoint l.
Proof.
  induction l as [|s r IH]; simpl; intros lo hi H; [exact I|].
  destruct H as (H1 & H2 & H3 & H4). split; [|eapply IH; eauto].
  apply Forall_forall; intros s' Hin.
  destruct (chain_In _ _ _ _ H4 Hin) as (A & B & C). lia.
Qed.

(** The slot of one day lies in the gap, after the cursor and inside the
    day's working window. *)
Lemma yield_of_spec (gap_end current : datetime) (s : interval) :
  In s (yield_of gap_end current) ->
  s = (slot_start_of current, slot_end_of gap_end current)
  /\ utc current <= utc (fst s) /\ utc (fst s) < utc (snd s) /\ utc (snd s) <= utc gap_end
  /\ utc (work_at current working_hours_start) <= utc (fst s)
  /\ utc (snd s) <= utc (work_at current working_hours_end)
  /\ min_duration_minutes * MICROS_PER_MINUTE <= duration s.
Proof.
  unfold yield_of.
  destruct (utc (slot_start_of current) <? utc (slot_end_of gap_end current)) eqn:L;
    simpl; [|contradiction].
  destruct (total_seconds_ge _ _) eqn:D; simpl; [|contradiction].
  intros [<-|[]]; unfold duration; simpl.
  apply Z.ltb_lt in L. unfold total_seconds_ge in D; apply Z.leb_le in D.
  unfold MICROS_PER_MINUTE.
  revert L D; unfold slot_start_of, slot_end_of.
  destruct (utc current <? utc (work_at current working_hours_start)) eqn:A;
    destruct (utc (work_at current working_hours_end) <? utc gap_end) eqn:B;
    rewrite ?Z.ltb_lt, ?Z.ltb_ge in *; intros; repeat split; lia.
Qed.

Lemma clip_loop_chain (gap_start gap_end : datetime) (n : nat) :
  forall current l,
    tzinfo current = tzinfo gap_start ->
    clip_loop n gap_start gap_end current = Some (Ok l) ->
    chain (utc current) l (utc gap_end).
Proof.
  induction n as [|n IH]; intros current l Htz H; [discriminate|].
  simpl in H. unfold dt_lt in H.
  destruct (comparable current gap_end) eqn:C; [|discriminate].
  destruct (utc current <? utc gap_end) eqn:L; [|injection H as <-; exact I].
  rewrite clip_body_eq in H by exact C.
  destruct (valid_hour working_hours_start) eqn:Vs; simpl in H; [|discriminate].
  destruct (valid_hour working_hours_end) eqn:Ve; simpl in H; [|discriminate].
  destruct ((0 <? toordinal current + 1) && (toordinal current + 1 <=? MAXORDINAL));
    [|discriminate].
  destruct (clip_loop n gap_start gap_end (next_cursor gap_start current))
    as [[rest|e]|] eqn:R; try discriminate.
  injection H as <-.
  apply IH in R; [|reflexivity].
  apply valid_hour_spec in Vs, Ve. apply Z.ltb_lt in L.
  pose proof (toordinal_bounds current) as B.
  pose proof (utcoffset_eq _ _ Htz) as O.
  assert (Hnext : utc current <= utc (next_cursor gap_start current)).
  { rewrite utc_next_cursor. unfold utc. unfold MICROS_PER_DAY, MICROS_PER_HOUR in *. lia. }
  destruct (yield_of gap_end current) as [|s [|s' y]] eqn:Y.
  - simpl. apply (chain_weaken rest _ _ _ _ Hnext (Z.le_refl _) R).
  - assert (Hin : In s (yield_of gap_end current)) by (rewrite Y; left; reflexivity).
    apply yield_of_spec in Hin. destruct Hin as (_ & A1 & A2 & A3 & A4 & A5 & _).
    simpl. repeat split; auto.
    apply (chain_weaken rest (utc (next_cursor gap_start current)) _ (utc gap_end) (utc gap_end));
      auto; [|lia].
    rewrite utc_next_cursor; rewrite utc_work_at in A5.
    unfold MICROS_PER_DAY, MICROS_PER_HOUR in *. lia.
  - exfalso. revert Y. unfold yield_of.
    destruct (_ && _); discriminate.
Qed.

Lemma clip_chain (gap_start gap_end : datetime) (l : list interval) :
  clip_to_working_hours gap_start gap_end = Ok l ->
  chain (utc gap_start) l (utc gap_end).
Proof.
  intros H. pose proof (clip_fuel_enough gap_start gap_end) as F. rewrite H in F.
  apply (clip_loop_chain _ _ _ _ _ eq_refl F).
Qed.

(** A gap that is empty or runs backwards yields nothing and raises
    nothing. *)
Lemma clip_empty_gap (gap_start gap_end : datetime) :
  comparable gap_start gap_end = true ->
  utc gap_end <= utc gap_start ->
  clip_to_working_hours gap_start gap_end = Ok [].
Proof.
  intros C H. apply (clip_loop_run _ _ 1%nat). simpl.
  unfold dt_lt. rewrite C.
  destruct (utc gap_start <? utc gap_end) eqn:L; [apply Z.ltb_lt in L; lia | reflexivity].
Qed.

(** ** The loop of the clipper: no exception inside the calendar *)

Lemma clip_loop_no_raise (gap_start gap_end : datetime) (n : nat) :
  valid_hour working_hours_start = true ->
  valid_hour working_hours_end = true ->
  comparable gap_start gap_end = true ->
  utc gap_end + utcoffset gap_start <= MAXORDINAL * MICROS_PER_DAY ->
  forall current e,
    tzinfo current = tzinfo gap_start ->
    0 <= wall current ->
    clip_loop n gap_start gap_end current <> Some (Raise e).
Proof.
  intros Vs Ve C Hmax.
  induction n as [|n IH]; intros current e Htz Hlo; [discriminate|].
  simpl. unfold dt_lt.
  assert (C' : comparable current gap_end = true).
  { revert C; unfold comparable; rewrite Htz; auto. }
  rewrite C'.
  destruct (utc current <? utc gap_end) eqn:L; [|discriminate].
  rewrite clip_body_eq by exact C'. rewrite Vs, Ve; simpl.
  apply Z.ltb_lt in L.
  pose proof (toordinal_bounds current) as B.
  pose proof (utcoffset_eq _ _ Htz) as O.
  assert (Hord : 0 <= toordinal current < MAXORDINAL).
  { unfold utc in L at 1. unfold MAXORDINAL, MICROS_PER_DAY in *. lia. }
  replace ((0 <? toordinal current + 1) && (toordinal current + 1 <=? MAXORDINAL)) with true
    by (symmetry; apply andb_true_iff; rewrite Z.ltb_lt, Z.leb_le; lia).
  specialize (IH (next_cursor gap_start current) e eq_refl).
  destruct (clip_loop n gap_start gap_end (next_cursor gap_start current)) as [[rest|e']|];
    try discriminate.
  intros [= ->]. apply IH; [|reflexivity].
  apply valid_hour_spec in Vs. unfold next_cursor; simpl.
  unfold MICROS_PER_DAY, MICROS_PER_HOUR. lia.
Qed.

Lemma clip_total (gap_start gap_end : datetime) :
  valid_hour working_hours_start = true ->
  valid_hour working_hours_end = true ->
  comparable gap_start gap_end = true ->
  0 <= wall gap_start ->
  utc gap_end + utcoffset gap_start <= MAXORDINAL * MICROS_PER_DAY ->
  exists l, clip_to_working_hours gap_start gap_end = Ok l.
Proof.
  intros Vs Ve C Hlo Hmax.
  pose proof (clip_fuel_enough gap_start gap_end) as F.
  destruct (clip_to_working_hours gap_start gap_end) as [l|e]; [eauto|].
  exfalso; revert F; apply clip_loop_no_raise; auto.
Qed.

(** ** The loop of the clipper: time covered *)

Lemma total_duration_app (l1 l2 : list interval) :
  total_duration (l1 ++ l2) = total_duration l1 + total_duration l2.
Proof.
  induction l1 as [|s r IH]; simpl; [reflexivity|].
  unfold total_duration in *; simpl; rewrite IH; lia.
Qed.

Lemma sum_days_zero (f : Z -> Z) (n : nat) :
  forall first, (forall d, first <= d < first + Z.of_nat n -> f d = 0) ->
                sum_days f first n = 0.
Proof.
  induction n as [|n IH]; intros first H; simpl; [reflexivity|].
  rewrite H by lia. rewrite IH; [reflexivity|].
  intros d Hd; apply H; lia.
Qed.

Lemma sum_days_split (f : Z -> Z) (a b : nat) :
  forall first,
    sum_days f first (a + b) = sum_days f first a + sum_days f (first + Z.of_nat a) b.
Proof.
  induction a as [|a IH]; intros first.
  - simpl. f_equal. lia.
  - change (S a + b)%nat with (S (a + b)).
    change (sum_days f first (S (a + b))) with (f first + sum_days f (first + 1) (a + b)).
    change (sum_days f first (S a)) with (f first + sum_days f (first + 1) a).
    rewrite IH.
    replace (first + 1 + Z.of_nat a) with (first + Z.of_nat (S a)) by lia. lia.
Qed.

Lemma at_least_zero (m : Z) : at_least m 0 = 0.
Proof. unfold at_least; destruct (_ <=? _); reflexivity. Qed.

Notation counted rs re :=
  (fun day => at_least min_duration_minutes
                (window_overlap working_hours_start working_hours_end rs re day)).

(** The slot of the day of [current] is that day's share of the range. *)
Lemma yield_of_counted (gap_start gap_end current : datetime) :
  tzinfo current = tzinfo gap_start ->
  Z.max (utc current) (utc (work_at current working_hours_start))
  = Z.max (utc gap_start) (utc (work_at current working_hours_start)) ->
  total_duration (yield_of gap_end current)
  = counted gap_start gap_end (toordinal current).
Proof.
  intros Htz Inv. pose proof (utcoffset_eq _ _ Htz) as O.
  assert (Es : utc (slot_start_of current)
               = Z.max (utc current) (utc (work_at current working_hours_start))).
  { unfold slot_start_of.
    destruct (utc current <? utc (work_at current working_hours_start)) eqn:A;
      rewrite ?Z.ltb_lt, ?Z.ltb_ge in A; lia. }
  assert (Ee : utc (slot_end_of gap_end current)
               = Z.min (utc gap_end) (utc (work_at current working_hours_end))).
  { unfold slot_end_of.
    destruct (utc (work_at current working_hours_end) <? utc gap_end) eqn:A;
      rewrite ?Z.ltb_lt, ?Z.ltb_ge in A; lia. }
  unfold window_overlap. rewrite <- O, <- !utc_work_at, <- Inv, <- Es, <- Ee.
  unfold yield_of, at_least, total_seconds_ge, MICROS_PER_MINUTE.
  destruct (utc (slot_start_of current) <? utc (slot_end_of gap_end current)) eqn:L;
    rewrite ?Z.ltb_lt, ?Z.ltb_ge in L; simpl.
  - rewrite Z.max_r by lia.
    replace (min_duration_minutes * 60 * 1000000) with (min_duration_minutes * 60000000) by lia.
    destruct (min_duration_minutes * 60000000 <=? _); unfold total_duration, duration; simpl; lia.
  - rewrite Z.max_l by lia.
    destruct (min_duration_minutes * 60000000 <=? 0); reflexivity.
Qed.

Lemma clip_loop_sum (gap_start gap_end : datetime) (n : nat) :
  forall current l k,
    tzinfo current = tzinfo gap_start ->
    Z.max (utc current) (utc (work_at current working_hours_start))
    = Z.max (utc gap_start) (utc (work_at current working_hours_start)) ->
    clip_loop n gap_start gap_end current = Some (Ok l) ->
    (utc gap_end + utcoffset gap_start) / MICROS_PER_DAY < toordinal current + Z.of_nat k ->
    total_duration l = sum_days (counted gap_start gap_end) (toordinal current) k.
Proof.
  induction n as [|n IH]; intros current l k Htz Inv H Hk; [discriminate|].
  pose proof (utcoffset_eq _ _ Htz) as O.
  pose proof (toordinal_bounds current) as B.
  simpl in H. unfold dt_lt in H.
  destruct (comparable current gap_end) eqn:C; [|discriminate].
  destruct (utc current <? utc gap_end) eqn:L; rewrite ?Z.ltb_lt, ?Z.ltb_ge in L.
  2:{ injection H as <-. symmetry; apply sum_days_zero.
      intros d Hd. rewrite <- (at_least_zero min_duration_minutes); f_equal.
      unfold window_overlap. rewrite utc_work_at in Inv.
      unfold MICROS_PER_DAY, MICROS_PER_HOUR in *. lia. }
  rewrite clip_body_eq in H by exact C.
  destruct (valid_hour working_hours_start) eqn:Vs; simpl in H; [|discriminate].
  destruct (valid_hour working_hours_end) eqn:Ve; simpl in H; [|discriminate].
  destruct ((0 <? toordinal current + 1) && (toordinal current + 1 <=? MAXORDINAL));
    [|discriminate].
  destruct (clip_loop n gap_start gap_end (next_cursor gap_start current))
    as [[rest|e]|] eqn:R; try discriminate.
  injection H as <-.
  assert (Hd : toordinal current <= (utc gap_end + utcoffset gap_start) / MICROS_PER_DAY).
  { unfold toordinal; apply Z.div_le_mono; [reflexivity|]. unfold utc in L at 1. lia. }
  destruct k as [|k]; [lia|].
  rewrite total_duration_app. simpl sum_days.
  rewrite (yield_of_counted gap_start) by assumption. f_equal.
  pose proof (next_cursor_ordinal gap_start current Vs) as No.
  rewrite <- No. apply IH; auto.
  - apply valid_hour_spec in Vs.
    assert (On : utcoffset (next_cursor gap_start current) = utcoffset gap_start)
      by reflexivity.
    rewrite utc_work_at, No, utc_next_cursor, On.
    rewrite utc_work_at in Inv. unfold utc in *.
    unfold MICROS_PER_DAY, MICROS_PER_HOUR in *. lia.
  - rewrite No. lia.
Qed.

Lemma counted_before (rs re : datetime) (d : Z) :
  valid_hour working_hours_end = true ->
  d < toordinal rs -> counted rs re d = 0.
Proof.
  intros Ve Hd. apply valid_hour_spec in Ve.
  rewrite <- (at_least_zero min_duration_minutes); f_equal.
  pose proof (toordinal_bounds rs) as B.
  unfold window_overlap, utc. unfold MICROS_PER_DAY, MICROS_PER_HOUR in *. lia.
Qed.

Lemma counted_backwards (rs re : datetime) (d : Z) :
  utc re <= utc rs -> counted rs re d = 0.
Proof.
  intros H. rewrite <- (at_least_zero min_duration_minutes); f_equal.
  unfold window_overlap. lia.
Qed.

Lemma clip_sum (gap_start gap_end : datetime) (l : list interval) (first : Z) (n : nat) :
  clip_to_working_hours gap_start gap_end = Ok l ->
  valid_hour working_hours_end = true ->
  first <= toordinal gap_start ->
  (utc gap_end + utcoffset gap_start) / MICROS_PER_DAY < first + Z.of_nat n ->
  total_duration l = sum_days (counted gap_start gap_end) first n.
Proof.
  intros H Ve Hfirst Hn.
  pose proof (clip_fuel_enough gap_start gap_end) as F. rewrite H in F.
  destruct (Z_le_gt_dec (first + Z.of_nat n) (toordinal gap_start)) as [Hs|Hs].
  - rewrite (clip_loop_sum _ _ _ _ _ 0%nat eq_refl eq_refl F) by lia.
    simpl. symmetry; apply sum_days_zero. intros d Hd; apply counted_before; auto; lia.
  - replace n with (Z.to_nat (toordinal gap_start - first)
                    + (n - Z.to_nat (toordinal gap_start - first)))%nat by lia.
    rewrite sum_days_split.
    rewrite (sum_days_zero _ (Z.to_nat (toordinal gap_start - first)))
      by (intros d Hd; apply counted_before; auto; lia).
    replace (first + Z.of_nat (Z.to_nat (toordinal gap_start - first)))
      with (toordinal gap_start) by lia.
    simpl. apply (clip_loop_sum _ _ _ _ _ _ eq_refl eq_refl F). lia.
Qed.

End ClipFacts.

(** ** The loop of the clipper: where the cursor ends *)

Section CursorFacts.

Variable min_duration_minutes : Z.
Variable working_hours_start : Z.
Variable working_hours_end : Z.

Notation clip_body := (clip_body min_duration_minutes working_hours_start working_hours_end).
Notation clip_loop := (clip_loop min_duration_minutes working_hours_start working_hours_end).
Notation clip_loop_cursor :=
  (clip_loop_cursor min_duration_minutes working_hours_start working_hours_end).
Notation clip_to_working_hours :=
  (clip_to_working_hours min_duration_minutes working_hours_start working_hours_end).
Notation next_cursor := (next_cursor working_hours_start).

(** The loop with its cursor is the loop: same turns, same slots, same
    exception, same need of fuel. *)
Lemma clip_loop_cursor_slots (gap_start gap_end : datetime) (n : nat) :
  forall current,
    slots_of_run (clip_loop_cursor n gap_start gap_end current)
    = clip_loop n gap_start gap_end current.
Proof.
  induction n as [|n IH]; intros current; [reflexivity|].
  simpl. destruct (dt_lt current gap_end) as [[|]|]; try reflexivity.
  destruct (clip_body gap_start gap_end current) as [[yielded current']|]; [|reflexivity].
  rewrite <- (IH current').
  destruct (clip_loop_cursor n gap_start gap_end current') as [[[rest final]|e]|];
    reflexivity.
Qed.

(** When the loop ends with slots, the cursor it ends with has reached or
    passed [gap_end]; it is the cursor the loop began with when no turn was
    made, and otherwise the start of the working hours of a later day. *)
Lemma clip_loop_cursor_run (gap_start gap_end : datetime) (n : nat) :
  forall current l,
    tzinfo current = tzinfo gap_start ->
    clip_loop n gap_start gap_end current = Some (Ok l) ->
    exists final,
      clip_loop_cursor n gap_start gap_end current = Some (Ok (l, final))
      /\ utc gap_end <= utc final
      /\ ((final = current /\ l = [])
          \/ (utc current < utc gap_end
              /\ toordinal current < toordinal final
              /\ final = mkdt (toordinal final * MICROS_PER_DAY
                               + working_hours_start * MICROS_PER_HOUR)
                              (tzinfo gap_start))).
Proof.
  induction n as [|n IH]; intros current l Htz H; [discriminate|].
  simpl in H |- *. unfold dt_lt in H |- *.
  destruct (comparable current gap_end) eqn:C; [|discriminate].
  destruct (utc current <? utc gap_end) eqn:L.
  2:{ injection H as <-. exists current. apply Z.ltb_ge in L. auto. }
  rewrite clip_body_eq in H |- * by exact C.
  destruct (valid_hour working_hours_start) eqn:Vs; simpl in H |- *; [|discriminate].
  destruct (valid_hour working_hours_end) eqn:Ve; simpl in H |- *; [|discriminate].
  destruct ((0 <? toordinal current + 1) && (toordinal current + 1 <=? MAXORDINAL));
    [|discriminate].
  destruct (clip_loop n gap_start gap_end (next_cursor gap_start current))
    as [[rest|e]|] eqn:R; try discriminate.
  injection H as <-.
  destruct (IH (next_cursor gap_start current) rest eq_refl R)
    as (final & -> & Hge & Hfinal).
  exists final. split; [reflexivity|]. split; [exact Hge|]. right.
  apply Z.ltb_lt in L. split; [exact L|].
  pose proof (next_cursor_ordinal working_hours_start gap_start current Vs) as Hord.
  destruct Hfinal as [[-> _]|(_ & Hlt & Hshape)].
  - split; [lia|]. rewrite Hord. reflexivity.
  - split; [lia | exact Hshape].
Qed.

End CursorFacts.

(** ** Sorting the busy ranges *)

Lemma sort_insert_perm (x : interval) (l : list interval) :
  forall r, sort_insert x l = Ok r -> Permutation (x :: l) r.
Proof.
  induction l as [|y l IH]; simpl; intros r H.
  - injection H as <-; reflexivity.
  - bind_inv H as lt E. destruct lt.
    + bind_inv H as r' E0. injection H as <-. apply IH in E0.
      rewrite perm_swap. apply perm_skip, E0.
    + injection H as <-; reflexivity.
Qed.

Lemma sort_by_start_perm (l : list interval) :
  forall s, sort_by_start l = Ok s -> Permutation l s.
Proof.
  induction l as [|x l IH]; simpl; intros s H.
  - injection H as <-; constructor.
  - bind_inv H as s' E. apply sort_insert_perm in H. apply IH in E.
    rewrite <- H. apply perm_skip, E.
Qed.

Lemma sorted_from_weaken (l : list interval) (lo lo' : Z) :
  lo' <= lo -> sorted_from lo l -> sorted_from lo' l.
Proof. intros H; destruct l; simpl; [auto|]; intros [? ?]; split; [lia|auto]. Qed.

Lemma sorted_from_In (l : list interval) :
  forall lo b, sorted_from lo l -> In b l -> lo <= utc (fst b).
Proof.
  induction l as [|x l IH]; simpl; intros lo b Hs Hin; [contradiction|].
  destruct Hs as [H1 H2]. destruct Hin as [->|Hin]; [exact H1|].
  specialize (IH _ _ H2 Hin); lia.
Qed.

Lemma sort_insert_sorted (x : interval) (l : list interval) :
  forall lo r, sorted_from lo l -> lo <= utc (fst x) ->
               sort_insert x l = Ok r -> sorted_from lo r.
Proof.
  induction l as [|y l IH]; simpl; intros lo r Hs Hx H.
  - injection H as <-; simpl; auto.
  - destruct Hs as [Hy Hs]. bind_inv H as lt E. apply dt_lt_ok in E; destruct E as [_ ->].
    destruct (utc (fst y) <? utc (fst x)) eqn:L; rewrite ?Z.ltb_lt, ?Z.ltb_ge in L.
    + bind_inv H as v E. injection H as <-. simpl; split; [exact Hy|].
      apply (IH _ _ Hs); [lia | exact E].
    + injection H as <-. simpl. split; [exact Hx|]. split; [exact L|exact Hs].
Qed.

Lemma sort_by_start_sorted (l : list interval) :
  forall s, sort_by_start l = Ok s -> exists lo, sorted_from lo s.
Proof.
  induction l as [|x l IH]; simpl; intros s H.
  - injection H as <-; exists 0; exact I.
  - bind_inv H as v E. destruct (IH _ E) as [lo Hlo].
    exists (Z.min lo (utc (fst x))).
    apply (sort_insert_sorted x v); [|lia|exact H].
    apply (sorted_from_weaken v lo); auto; lia.
Qed.

Lemma sort_insert_aware (x : interval) (l : list interval) :
  aware (fst x) -> Forall (fun b => aware (fst b)) l ->
  exists r, sort_insert x l = Ok r.
Proof.
  intros Hx; induction l as [|y l IH]; simpl; intros Hl; [eauto|].
  inversion Hl as [|? ? Hy Hl']; subst.
  rewrite dt_lt_aware by assumption; simpl.
  destruct (utc (fst y) <? utc (fst x)); [|eauto].
  destruct (IH Hl') as [r ->]; simpl; eauto.
Qed.

Lemma sort_by_start_aware (l : list interval) :
  Forall (fun b => aware (fst b)) l -> exists s, sort_by_start l = Ok s.
Proof.
  induction l as [|x l IH]; simpl; intros Hl; [eauto|].
  inversion Hl as [|? ? Hx Hl']; subst.
  destruct (IH Hl') as [s Hs]; rewrite Hs; simpl.
  apply sort_insert_aware; auto.
  apply sort_by_start_perm in Hs.
  apply (Permutation_Forall Hs); exact Hl'.
Qed.

(** ** The sweep over the busy ranges *)

Section SweepFacts.

Variable min_duration_minutes : Z.
Variable working_hours_start : Z.
Variable working_hours_end : Z.
Variable end_dt : datetime.

Notation clip_to_working_hours :=
  (clip_to_working_hours min_duration_minutes working_hours_start working_hours_end).
Notation sweep :=
  (sweep min_duration_minutes working_hours_start working_hours_end end_dt).
Notation free_slots_of start_dt :=
  (free_slots_of min_duration_minutes working_hours_start working_hours_end start_dt end_dt).

(** What one busy range does to the sweep when nothing is raised: it is
    skipped, or it moves the cursor to its end, after the slots of the gap
    before it if there is one. *)
Lemma sweep_cons_ok (bs be : datetime) (rest : list interval) (current : datetime)
    (free_slots : list interval) (out : datetime * list interval) :
  sweep ((bs, be) :: rest) current free_slots = Ok out ->
  (utc be <= utc current /\ sweep rest current free_slots = Ok out)
  \/ (utc current < utc be
      /\ exists slots,
          ((utc current < utc bs
            /\ clip_to_working_hours current
                 (if utc end_dt <? utc bs then end_dt else bs) = Ok slots)
           \/ (utc bs <= utc current /\ slots = []))
          /\ ((utc end_dt <= utc be /\ out = (be, free_slots ++ slots))
              \/ (utc be < utc end_dt
                  /\ sweep rest be (free_slots ++ slots) = Ok out))).
Proof.
  simpl. intros H. bind_inv H as consumed E. apply dt_le_ok in E; destruct E as [_ ->].
  destruct (utc be <=? utc current) eqn:L; rewrite ?Z.leb_le, ?Z.leb_gt in L; [auto|].
  right; split; [exact L|].
  bind_inv H as gap E. unfold dt_gt in E. apply dt_lt_ok in E; destruct E as [_ ->].
  bind_inv H as free_slots' E. bind_inv H as current' E0.
  apply py_max_ok in E0; destruct E0 as [_ ->].
  replace (utc current <? utc be) with true in * by (symmetry; apply Z.ltb_lt; exact L).
  bind_inv H as done E0. unfold dt_ge in E0. apply dt_le_ok in E0; destruct E0 as [_ ->].
  assert (G : exists slots, free_slots' = free_slots ++ slots
          /\ ((utc current < utc bs
               /\ clip_to_working_hours current
                    (if utc end_dt <? utc bs then end_dt else bs) = Ok slots)
              \/ (utc bs <= utc current /\ slots = []))).
  { destruct (utc current <? utc bs) eqn:G; rewrite ?Z.ltb_lt, ?Z.ltb_ge in G.
    - bind_inv E as gap_end E1. bind_inv E as slots E2. injection E as <-.
      apply py_min_ok in E1; destruct E1 as [_ ->]. exists slots; auto.
    - injection E as <-. exists []; rewrite app_nil_r; auto. }
  destruct G as (slots & -> & G). exists slots; split; [exact G|].
  destruct (utc end_dt <=? utc be) eqn:D; rewrite ?Z.leb_le, ?Z.leb_gt in D.
  - left; split; [exact D|]. injection H as <-; reflexivity.
  - right; auto.
Qed.

Lemma sweep_chain (busy : list interval) :
  forall current free_slots out lo,
    Forall well_formed busy ->
    sweep busy current free_slots = Ok out ->
    lo <= utc current ->
    chain lo free_slots (utc current) ->
    chain lo (snd out) (utc (fst out)) /\ utc current <= utc (fst out).
Proof.
  induction busy as [|[bs be] rest IH]; intros current free_slots out lo Hwf H Hlo Hc.
  - simpl in H; injection H as <-; simpl; split; [auto|lia].
  - inversion Hwf as [|? ? Hb Hrest]; subst. unfold well_formed in Hb; simpl in Hb.
    apply sweep_cons_ok in H.
    destruct H as [[L H]|(L & slots & G & H)]; [eapply IH; eauto|].
    assert (A : chain lo (free_slots ++ slots) (utc be)).
    { destruct G as [[G1 G2]|[G1 ->]].
      - apply clip_chain in G2.
        apply (chain_app _ _ lo (utc current) (utc current) _ (utc be) Hc G2); try lia.
        destruct (utc end_dt <? utc bs) eqn:D; rewrite ?Z.ltb_lt, ?Z.ltb_ge in D; lia.
      - rewrite app_nil_r. apply (chain_weaken _ lo lo (utc current)); auto; lia. }
    destruct H as [[D ->]|[D H]]; [simpl; split; [auto|lia]|].
    destruct (IH be (free_slots ++ slots) out lo Hrest H) as [B1 B2]; auto; try lia.
    split; [auto|lia].
Qed.

(** A slot of the sweep meets no busy range: the ranges already passed end
    before the cursor, the others start after the gap. *)
Lemma sweep_exclusion (busy : list interval) :
  forall current free_slots out lo,
    sorted_from lo busy ->
    sweep busy current free_slots = Ok out ->
    utc current <= utc (fst out)
    /\ (utc (fst out) < utc end_dt -> forall b, In b busy -> utc (snd b) <= utc (fst out))
    /\ exists new, snd out = free_slots ++ new
         /\ forall s, In s new ->
              utc current <= utc (fst s) /\ utc (fst s) < utc (snd s)
              /\ forall b, In b busy -> ~ intersects s b.
Proof.
  induction busy as [|[bs be] rest IH]; intros current free_slots out lo Hs H.
  - simpl in H; injection H as <-; simpl. split; [lia|]. split; [tauto|].
    exists []; rewrite app_nil_r; split; [reflexivity | intros s []].
  - simpl in Hs; destruct Hs as [_ Hs].
    apply sweep_cons_ok in H.
    destruct H as [[L H]|(L & slots & G & H)].
    + destruct (IH _ _ _ _ Hs H) as (A & B & new & -> & C). split; [exact A|].
      split; [intros Hlt b [<-|Hin]; simpl; [lia | apply B; auto]|].
      exists new; split; [reflexivity|]. intros s Hin.
      destruct (C s Hin) as (C1 & C2 & C3). repeat split; auto.
      intros b [<-|Hb]; [|apply C3; exact Hb].
      unfold intersects; simpl. lia.
    + assert (Gs : forall s, In s slots ->
                utc current <= utc (fst s) /\ utc (fst s) < utc (snd s)
                /\ utc (snd s) <= utc bs).
      { intros s Hin. destruct G as [[G1 G2]|[G1 ->]]; [|destruct Hin].
        apply clip_chain in G2. destruct (chain_In _ _ _ _ G2 Hin) as (A & B & C).
        repeat split; auto.
        destruct (utc end_dt <? utc bs) eqn:D; rewrite ?Z.ltb_lt, ?Z.ltb_ge in D; lia. }
      assert (Gx : forall s, In s slots -> forall b, In b ((bs, be) :: rest) -> ~ intersects s b).
      { intros s Hin b Hb. destruct (Gs s Hin) as (A & B & C).
        assert (utc bs <= utc (fst b)).
        { destruct Hb as [<-|Hb]; [simpl; lia | apply (sorted_from_In rest); auto]. }
        unfold intersects. lia. }
      destruct H as [[D ->]|[D H]].
      * simpl. split; [lia|]. split; [intros; lia|].
        exists slots; split; [reflexivity|].
        intros s Hin; destruct (Gs s Hin) as (A & B & C); repeat split; auto.
      * destruct (IH _ _ _ _ Hs H) as (A & B & new & -> & C). split; [lia|].
        split; [intros Hlt b [<-|Hin]; simpl; [lia | apply B; auto]|].
        exists (slots ++ new); split; [rewrite app_assoc; reflexivity|].
        intros s Hin; apply in_app_or in Hin; destruct Hin as [Hin|Hin].
        -- destruct (Gs s Hin) as (A1 & B1 & C1); repeat split; auto.
        -- destruct (C s Hin) as (C1 & C2 & C3). repeat split; auto; try lia.
           intros b [<-|Hb]; [|apply C3; exact Hb].
           unfold intersects; simpl. lia.
Qed.

Lemma free_slots_of_ok (start_dt : datetime) (busy : list interval) (l : list interval) :
  free_slots_of start_dt busy = Ok l ->
  exists sorted current free_slots,
    sort_by_start busy = Ok sorted
    /\ sweep sorted start_dt [] = Ok (current, free_slots)
    /\ ((utc current < utc end_dt
         /\ exists slots, clip_to_working_hours current end_dt = Ok slots
                          /\ l = free_slots ++ slots)
        \/ (utc end_dt <= utc current /\ l = free_slots)).
Proof.
  unfold free_slots_of. intros H.
  bind_inv H as sorted E. bind_inv H as swept E0. destruct swept as [current free_slots].
  bind_inv H as trailing E1. apply dt_lt_ok in E1; destruct E1 as [_ ->].
  exists sorted, current, free_slots. repeat split; auto.
  destruct (utc current <? utc end_dt) eqn:L; rewrite ?Z.ltb_lt, ?Z.ltb_ge in L.
  - bind_inv H as slots E2. injection H as <-. left; split; [exact L|]. exists slots; auto.
  - injection H as <-. right; auto.
Qed.

Lemma sweep_total (busy : list interval) :
  valid_hour working_hours_start = true ->
  valid_hour working_hours_end = true ->
  aware end_dt ->
  Forall aware_interval busy ->
  Forall (fun b => in_calendar end_dt (snd b)) busy ->
  forall current free_slots,
    aware current -> in_calendar end_dt current ->
    exists out, sweep busy current free_slots = Ok out
                /\ aware (fst out) /\ in_calendar end_dt (fst out).
Proof.
  intros Vs Ve Ae.
  induction busy as [|[bs be] rest IH]; intros Ab Cb current free_slots Ac Cc.
  - simpl; eauto.
  - inversion Ab as [|? ? [Abs Abe] Ab']; subst. inversion Cb as [|? ? Cbe Cb']; subst.
    simpl in Abs, Abe, Cbe. simpl.
    rewrite dt_le_aware by assumption; simpl.
    destruct (utc be <=? utc current); [apply IH; auto|].
    unfold dt_gt; rewrite dt_lt_aware by assumption; simpl.
    assert (G : exists free_slots',
               (if utc current <? utc bs
                then gap_end <- py_min bs end_dt ;;
                     slots <- clip_to_working_hours current gap_end ;;
                     Ok (free_slots ++ slots)
                else Ok free_slots) = Ok free_slots').
    { destruct (utc current <? utc bs); [|eauto].
      rewrite py_min_aware by assumption; simpl.
      destruct (clip_total min_duration_minutes working_hours_start working_hours_end
                  current (if utc end_dt <? utc bs then end_dt else bs)) as [slots Hslots];
        auto.
      - apply comparable_aware; [assumption|]. destruct (_ <? _); assumption.
      - apply Cc.
      - destruct Cc as [_ Cc].
        destruct (utc end_dt <? utc bs) eqn:D; rewrite ?Z.ltb_lt, ?Z.ltb_ge in D; lia.
      - rewrite Hslots; simpl; eauto. }
    destruct G as [free_slots' ->]; simpl.
    rewrite py_max_aware by assumption; simpl.
    assert (Am : aware (if utc current <? utc be then be else current))
      by (destruct (_ <? _); assumption).
    assert (Cm : in_calendar end_dt (if utc current <? utc be then be else current))
      by (destruct (_ <? _); assumption).
    unfold dt_ge; rewrite dt_le_aware by assumption; simpl.
    destruct (utc end_dt <=? utc _); [eauto | apply IH; auto].
Qed.

Lemma free_slots_of_total (start_dt : datetime) (busy : list interval) :
  valid_hour working_hours_start = true ->
  valid_hour working_hours_end = true ->
  aware start_dt -> aware end_dt ->
  Forall aware_interval busy ->
  in_calendar end_dt start_dt ->
  Forall (fun b => in_calendar end_dt (snd b)) busy ->
  exists l, free_slots_of start_dt busy = Ok l.
Proof.
  intros Vs Ve As Ae Ab Cs Cb. unfold free_slots_of.
  destruct (sort_by_start_aware busy) as [sorted Hs].
  { apply (Forall_impl _ (fun b (H : aware_interval b) => proj1 H) Ab). }
  rewrite Hs; simpl.
  pose proof (sort_by_start_perm _ _ Hs) as P.
  destruct (sweep_total sorted Vs Ve Ae (Permutation_Forall P Ab) (Permutation_Forall P Cb)
              start_dt [] As Cs) as ([current free_slots] & -> & Ac & Cc); simpl in *.
  rewrite dt_lt_aware by assumption; simpl.
  destruct (utc current <? utc end_dt); [|eauto].
  destruct (clip_total min_duration_minutes working_hours_start working_hours_end
              current end_dt) as [slots Hslots]; auto.
  - apply comparable_aware; assumption.
  - apply Cc.
  - apply Cc.
  - rewrite Hslots; simpl; eauto.
Qed.

End SweepFacts.

(** ** The sort, without exceptions *)

Lemma sort_insert_pure (x : interval) (l : list interval) :
  aware (fst x) -> Forall (fun b => aware (fst b)) l ->
  sort_insert x l = Ok (pure_insert x l).
Proof.
  intros Hx; induction l as [|y l IH]; simpl; intros Hl; [reflexivity|].
  inversion Hl as [|? ? Hy Hl']; subst.
  rewrite dt_lt_aware by assumption; simpl.
  destruct (utc (fst y) <? utc (fst x)); [|reflexivity].
  rewrite (IH Hl'); reflexivity.
Qed.

Lemma pure_insert_perm (x : interval) (l : list interval) :
  Permutation (x :: l) (pure_insert x l).
Proof.
  induction l as [|y l IH]; simpl; [reflexivity|].
  destruct (utc (fst y) <? utc (fst x)); [|reflexivity].
  rewrite perm_swap. apply perm_skip, IH.
Qed.

Lemma pure_sort_perm (l : list interval) : Permutation l (pure_sort l).
Proof.
  induction l as [|x l IH]; simpl; [constructor|].
  rewrite <- pure_insert_perm. apply perm_skip, IH.
Qed.

Lemma sort_by_start_pure (l : list interval) :
  Forall (fun b => aware (fst b)) l -> sort_by_start l = Ok (pure_sort l).
Proof.
  induction l as [|x l IH]; simpl; intros Hl; [reflexivity|].
  inversion Hl as [|? ? Hx Hl']; subst.
  rewrite (IH Hl'); simpl. apply sort_insert_pure; [exact Hx|].
  apply (Permutation_Forall (pure_sort_perm l)); exact Hl'.
Qed.

Lemma pure_sort_sorted (l : list interval) : exists lo, sorted_from lo (pure_sort l).
Proof.
  induction l as [|x l [lo IH]]; simpl; [exists 0; exact I|].
  exists (Z.min lo (utc (fst x))).
  assert (G : forall s lo', sorted_from lo' s -> lo' <= utc (fst x) ->
                            sorted_from lo' (pure_insert x s)).
  { induction s as [|y s IHs]; simpl; intros lo' Hs Hle; [auto|].
    destruct Hs as [Hy Hs].
    destruct (utc (fst y) <? utc (fst x)) eqn:L; rewrite ?Z.ltb_lt, ?Z.ltb_ge in L; simpl.
    - split; [exact Hy|]. apply IHs; [exact Hs | lia].
    - auto. }
  apply G; [|lia]. apply (sorted_from_weaken _ lo); [lia | exact IH].
Qed.

(** ** Orders that differ at equal starts *)

Lemma tie_equiv_perm (l l' : list interval) : tie_equiv l l' -> Permutation l l'.
Proof.
  induction 1 as [l|x y l _|x l l' _ IH|l1 l2 l3 _ IH1 _ IH2].
  - reflexivity.
  - apply perm_swap.
  - apply perm_skip, IH.
  - rewrite IH1; exact IH2.
Qed.

Lemma pure_insert_tie (x : interval) (s s' : list interval) :
  tie_equiv s s' -> tie_equiv (pure_insert x s) (pure_insert x s').
Proof.
  induction 1 as [l|a b l Hab|a l l' Hl IH|l1 l2 l3 _ IH1 _ IH2].
  - apply tie_refl.
  - simpl. rewrite Hab.
    destruct (utc (fst b) <? utc (fst x)).
    + apply tie_swap; exact Hab.
    + apply tie_cons, tie_swap; exact Hab.
  - simpl. destruct (utc (fst a) <? utc (fst x)).
    + apply tie_cons; exact IH.
    + apply tie_cons, tie_cons; assumption.
  - apply (tie_trans _ _ _ IH1 IH2).
Qed.

Lemma pure_insert_comm (x y : interval) (s : list interval) :
  tie_equiv (pure_insert x (pure_insert y s)) (pure_insert y (pure_insert x s)).
Proof.
  induction s as [|a s IH]; simpl.
  - destruct (utc (fst y) <? utc (fst x)) eqn:A; destruct (utc (fst x) <? utc (fst y)) eqn:B;
      rewrite ?Z.ltb_lt, ?Z.ltb_ge in *; try lia; try apply tie_refl.
    apply tie_swap; lia.
  - destruct (utc (fst a) <? utc (fst y)) eqn:Ay; destruct (utc (fst a) <? utc (fst x)) eqn:Ax;
      simpl; rewrite ?Ay, ?Ax.
    + apply tie_cons; exact IH.
    + destruct (utc (fst x) <? utc (fst y)) eqn:B;
        rewrite ?Z.ltb_lt, ?Z.ltb_ge in *; try lia. apply tie_refl.
    + destruct (utc (fst y) <? utc (fst x)) eqn:B;
        rewrite ?Z.ltb_lt, ?Z.ltb_ge in *; try lia. apply tie_refl.
    + destruct (utc (fst y) <? utc (fst x)) eqn:A;
        destruct (utc (fst x) <? utc (fst y)) eqn:B;
        rewrite ?Z.ltb_lt, ?Z.ltb_ge in *; try lia; try apply tie_refl.
      apply tie_swap; lia.
Qed.

Lemma pure_sort_tie (l l' : list interval) :
  Permutation l l' -> tie_equiv (pure_sort l) (pure_sort l').
Proof.
  induction 1 as [|x l l' _ IH|x y l|l1 l2 l3 _ IH1 _ IH2]; simpl.
  - apply tie_refl.
  - apply pure_insert_tie; exact IH.
  - apply pure_insert_comm.
  - apply (tie_trans _ _ _ IH1 IH2).
Qed.

(** ** The sweep, without exceptions and without [break] *)

Section EmittedFacts.

Variable min_duration_minutes : Z.
Variable working_hours_start : Z.
Variable working_hours_end : Z.
Variable end_dt : datetime.

Notation clip_to_working_hours :=
  (clip_to_working_hours min_duration_minutes working_hours_start working_hours_end).
Notation sweep :=
  (sweep min_duration_minutes working_hours_start working_hours_end end_dt).
Notation free_slots_of start_dt :=
  (free_slots_of min_duration_minutes working_hours_start working_hours_end start_dt end_dt).
Notation emitted :=
  (emitted min_duration_minutes working_hours_start working_hours_end end_dt).

Lemma bind_ret_nil (c : result (list interval)) :
  (more <- c ;; Ok ([] ++ more)) = c.
Proof. destruct c; reflexivity. Qed.

Lemma emitted_past_end (l : list interval) :
  aware end_dt -> Forall aware_interval l ->
  forall current, aware current -> utc end_dt <= utc current -> emitted l current = Ok [].
Proof.
  intros Ae. induction l as [|[bs be] rest IH]; intros Al current Ac Hc; simpl.
  - destruct (utc current <? utc end_dt) eqn:L; rewrite ?Z.ltb_lt in L; [lia | reflexivity].
  - inversion Al as [|? ? [Abs Abe] Al']; subst; simpl in Abs, Abe.
    destruct (utc be <=? utc current) eqn:L; rewrite ?Z.leb_le, ?Z.leb_gt in L; [auto|].
    rewrite (IH Al' be Abe) by lia.
    destruct (utc current <? utc bs) eqn:G; rewrite ?Z.ltb_lt, ?Z.ltb_ge in G;
      [|reflexivity].
    replace (utc end_dt <? utc bs) with true by (symmetry; apply Z.ltb_lt; lia).
    rewrite clip_empty_gap; auto using comparable_aware.
Qed.

Lemma sweep_emitted (l : list interval) :
  aware end_dt -> Forall aware_interval l ->
  forall current free_slots,
    aware current ->
    (swept <- sweep l current free_slots ;;
     let '(current', free_slots') := swept in
     trailing <- dt_lt current' end_dt ;;
     if trailing
     then slots <- clip_to_working_hours current' end_dt ;; Ok (free_slots' ++ slots)
     else Ok free_slots')
    = (s <- emitted l current ;; Ok (free_slots ++ s)).
Proof.
  intros Ae. induction l as [|[bs be] rest IH]; intros Al current free_slots Ac.
  - simpl. rewrite dt_lt_aware by assumption; simpl.
    destruct (utc current <? utc end_dt); [reflexivity|].
    simpl; rewrite app_nil_r; reflexivity.
  - inversion Al as [|? ? [Abs Abe] Al']; subst; simpl in Abs, Abe.
    simpl sweep. simpl emitted.
    rewrite dt_le_aware by assumption; simpl bind at 2.
    destruct (utc be <=? utc current) eqn:L; rewrite ?Z.leb_le, ?Z.leb_gt in L;
      [apply IH; auto|].
    unfold dt_gt. rewrite dt_lt_aware by assumption. simpl bind at 2.
    assert (Hmax : py_max current be = Ok be).
    { rewrite py_max_aware by assumption.
      replace (utc current <? utc be) with true by (symmetry; apply Z.ltb_lt; lia).
      reflexivity. }
    assert (Hstep : forall slots,
      (swept <- (current' <- py_max current be ;;
                 done <- dt_ge current' end_dt ;;
                 if done then Ok (current', free_slots ++ slots)
                 else sweep rest current' (free_slots ++ slots)) ;;
       let '(current', free_slots') := swept in
       trailing <- dt_lt current' end_dt ;;
       if trailing
       then tail <- clip_to_working_hours current' end_dt ;; Ok (free_slots' ++ tail)
       else Ok free_slots')
      = (s <- (more <- emitted rest be ;; Ok (slots ++ more)) ;; Ok (free_slots ++ s))).
    { intros slots. rewrite Hmax; simpl bind at 2.
      unfold dt_ge. rewrite dt_le_aware by assumption. simpl bind at 2.
      destruct (utc end_dt <=? utc be) eqn:D; rewrite ?Z.leb_le, ?Z.leb_gt in D.
      - rewrite (emitted_past_end rest Ae Al' be Abe D). simpl.
        rewrite dt_lt_aware by assumption; simpl.
        replace (utc be <? utc end_dt) with false by (symmetry; apply Z.ltb_ge; lia).
        rewrite app_nil_r; reflexivity.
      - rewrite (IH Al' be (free_slots ++ slots) Abe).
        destruct (emitted rest be); simpl; [rewrite app_assoc|]; reflexivity. }
    destruct (utc current <? utc bs).
    + rewrite py_min_aware by assumption. simpl bind at 3.
      destruct (clip_to_working_hours current (if utc end_dt <? utc bs then end_dt else bs))
        as [slots|e]; [|reflexivity].
      simpl bind at 2. simpl bind at 4. apply Hstep.
    + simpl bind at 2. simpl bind at 3.
      specialize (Hstep []). rewrite app_nil_r in Hstep. exact Hstep.
Qed.

Lemma free_slots_of_emitted (start_dt : datetime) (busy : list interval) :
  aware start_dt -> aware end_dt -> Forall aware_interval busy ->
  free_slots_of start_dt busy = emitted (pure_sort busy) start_dt.
Proof.
  intros As Ae Ab. unfold free_slots_of.
  rewrite sort_by_start_pure
    by (apply (Forall_impl _ (fun b (H : aware_interval b) => proj1 H) Ab)).
  simpl bind at 1.
  rewrite (sweep_emitted (pure_sort busy) Ae
             (Permutation_Forall (pure_sort_perm busy) Ab) start_dt [] As).
  apply bind_ret_nil.
Qed.

End EmittedFacts.

(** ** Merging busy ranges *)

Section MergeFacts.

Variable min_duration_minutes : Z.
Variable working_hours_start : Z.
Variable working_hours_end : Z.
Variable end_dt : datetime.

(** The values among which one instant is written in one way. *)
Variable C : datetime -> Prop.
Hypothesis C_inj : forall x y, C x -> C y -> utc x = utc y -> x = y.

Notation emitted :=
  (emitted min_duration_minutes working_hours_start working_hours_end end_dt).
Notation written := (fun b : interval => C (fst b) /\ C (snd b)).
Notation pmax x y := (if utc x <? utc y then y else x).

Ltac split_tests :=
  repeat match goal with
         | |- context [?a <=? ?b] => destruct (Z.leb_spec a b)
         | |- context [?a <? ?b] => destruct (Z.ltb_spec a b)
         end.

Ltac run_binds :=
  simpl;
  repeat match goal with
         | |- context [bind ?c _] =>
             lazymatch c with
             | bind _ _ => fail
             | _ => destruct c; simpl
             end
         end;
  rewrite ?app_nil_r; try reflexivity.

Lemma pmax_comm (x y : datetime) : C x -> C y -> pmax x y = pmax y x.
Proof. intros Cx Cy; split_tests; try reflexivity; try lia. apply C_inj; auto; lia. Qed.

Lemma pmax_swap (x y z : datetime) :
  C x -> C y -> C z -> pmax (pmax x y) z = pmax (pmax x z) y.
Proof.
  intros Cx Cy Cz.
  destruct (Z.ltb_spec (utc x) (utc y)); destruct (Z.ltb_spec (utc x) (utc z));
    split_tests; try reflexivity; try lia; apply C_inj; auto; lia.
Qed.

Lemma emitted_cons_ext (x : interval) (l l' : list interval) :
  (forall current, emitted l current = emitted l' current) ->
  forall current, emitted (x :: l) current = emitted (x :: l') current.
Proof. intros H current; simpl; rewrite !H; reflexivity. Qed.

Lemma emitted_swap (x y : interval) (l : list interval) (current : datetime) :
  utc (fst x) = utc (fst y) ->
  well_formed x -> well_formed y -> written x -> written y ->
  emitted (x :: y :: l) current = emitted (y :: x :: l) current.
Proof.
  destruct x as [s e1], y as [s' e2]; unfold well_formed; simpl fst; simpl snd.
  intros Hs W1 W2 [Cs Ce1] [Cs' Ce2].
  assert (s = s') by (apply C_inj; auto). subst s'.
  destruct (Z.eq_dec (utc e1) (utc e2)) as [He|He].
  - assert (e1 = e2) by (apply C_inj; auto). subst e2. reflexivity.
  - simpl. split_tests; try lia; run_binds.
Qed.

Lemma emitted_tie (l l' : list interval) :
  tie_equiv l l' ->
  Forall well_formed l -> Forall written l ->
  forall current, emitted l current = emitted l' current.
Proof.
  induction 1 as [l|x y l Hxy|x l l' Hl IH|l1 l2 l3 H12 IH1 H23 IH2]; intros Hwf Hwr current.
  - reflexivity.
  - inversion Hwf as [|? ? Wx Hwf']; subst. inversion Hwf' as [|? ? Wy _]; subst.
    inversion Hwr as [|? ? Cx Hwr']; subst. inversion Hwr' as [|? ? Cy _]; subst.
    apply emitted_swap; auto.
  - inversion Hwf; subst. inversion Hwr; subst.
    apply emitted_cons_ext. intros c; apply IH; auto.
  - rewrite IH1 by assumption.
    pose proof (tie_equiv_perm _ _ H12) as P.
    apply IH2; [apply (Permutation_Forall P Hwf) | apply (Permutation_Forall P Hwr)].
Qed.

(** A busy range that starts inside the range before it is taken in by
    it. *)
Lemma merge_head (a z : interval) (rest : list interval) (current : datetime) :
  utc (fst a) <= utc (fst z) <= utc (snd a) ->
  emitted (a :: z :: rest) current
  = emitted ((fst a, pmax (snd a) (snd z)) :: rest) current.
Proof.
  destruct a as [a1 a2], z as [z1 z2]; simpl fst; simpl snd. intros H.
  destruct (Z.ltb_spec (utc a2) (utc z2)); simpl; split_tests; try lia; run_binds.
Qed.

Lemma absorb_head (b : interval) (T : list interval) :
  C (snd b) -> Forall written T ->
  forall a current,
    sorted_from (utc (fst a)) T ->
    utc (fst a) <= utc (fst b) <= utc (snd a) ->
    C (snd a) ->
    emitted (a :: pure_insert b T) current
    = emitted ((fst a, pmax (snd a) (snd b)) :: T) current.
Proof.
  intros Cb. induction T as [|z T IH]; intros HT a current Hs Hab Ca.
  - simpl pure_insert. apply merge_head; exact Hab.
  - inversion HT as [|? ? [_ Cz] HT']; subst. destruct Hs as [Hz Hs].
    simpl pure_insert.
    destruct (utc (fst z) <? utc (fst b)) eqn:L; rewrite ?Z.ltb_lt, ?Z.ltb_ge in L.
    + rewrite merge_head by lia.
      rewrite (merge_head (fst a, pmax (snd a) (snd b)) z)
        by (simpl; destruct (utc (snd a) <? utc (snd b)) eqn:M;
            rewrite ?Z.ltb_lt, ?Z.ltb_ge in M; lia).
      simpl fst; simpl snd.
      rewrite (pmax_swap (snd a) (snd b) (snd z)) by assumption.
      apply (IH HT' (fst a, pmax (snd a) (snd z))); simpl fst; simpl snd.
      * apply (sorted_from_weaken T (utc (fst z))); auto.
      * destruct (utc (snd a) <? utc (snd z)) eqn:M;
          rewrite ?Z.ltb_lt, ?Z.ltb_ge in M; lia.
      * destruct (utc (snd a) <? utc (snd z)); assumption.
    + apply merge_head; exact Hab.
Qed.

Lemma absorb (a b : interval) (S : list interval) :
  utc (fst a) <= utc (fst b) <= utc (snd a) ->
  C (snd a) -> C (snd b) -> Forall written S ->
  forall lo current,
    sorted_from lo S ->
    emitted (pure_insert a (pure_insert b S)) current
    = emitted (pure_insert (fst a, pmax (snd a) (snd b)) S) current.
Proof.
  intros Hab Ca Cb. induction S as [|y S IH]; intros HS lo current Hs.
  - simpl. replace (utc (fst b) <? utc (fst a)) with false
      by (symmetry; apply Z.ltb_ge; lia).
    apply (absorb_head b [] Cb HS a current I Hab Ca).
  - inversion HS as [|? ? _ HS']; subst. destruct Hs as [_ Hs].
    simpl pure_insert at 2 3.
    destruct (utc (fst y) <? utc (fst a)) eqn:L; rewrite ?Z.ltb_lt, ?Z.ltb_ge in L.
    + replace (utc (fst y) <? utc (fst b)) with true by (symmetry; apply Z.ltb_lt; lia).
      simpl pure_insert. replace (utc (fst y) <? utc (fst a)) with true
        by (symmetry; apply Z.ltb_lt; lia).
      apply emitted_cons_ext. intros c. apply (IH HS' (utc (fst y))); exact Hs.
    + assert (E : pure_insert a (pure_insert b (y :: S)) = a :: pure_insert b (y :: S)).
      { simpl. destruct (utc (fst y) <? utc (fst b)); simpl.
        - replace (utc (fst y) <? utc (fst a)) with false
            by (symmetry; apply Z.ltb_ge; lia). reflexivity.
        - replace (utc (fst b) <? utc (fst a)) with false
            by (symmetry; apply Z.ltb_ge; lia). reflexivity. }
      change (if utc (fst y) <? utc (fst b) then y :: pure_insert b S else b :: y :: S)
        with (pure_insert b (y :: S)).
      rewrite E. apply (absorb_head b (y :: S) Cb HS a current); auto.
      simpl; split; [lia | exact Hs].
Qed.

Lemma merge_emitted (a b : interval) (rest : list interval) (current : datetime) :
  overlapping_or_adjacent a b ->
  Forall well_formed (a :: b :: rest) ->
  Forall written (a :: b :: rest) ->
  emitted (pure_sort (a :: b :: rest)) current
  = emitted (pure_sort (interval_union a b :: rest)) current.
Proof.
  intros [O1 O2] Hwf Hwr.
  inversion Hwf as [|? ? Wa Hwf']; subst. inversion Hwf' as [|? ? Wb Hwf'']; subst.
  inversion Hwr as [|? ? [Ca1 Ca2] Hwr']; subst.
  inversion Hwr' as [|? ? [Cb1 Cb2] Hwr'']; subst.
  unfold well_formed in Wa, Wb.
  destruct (pure_sort_sorted rest) as [lo Hlo].
  pose proof (Permutation_Forall (pure_sort_perm rest) Hwr'') as HwrS.
  simpl pure_sort. unfold interval_union.
  destruct (utc (fst b) <? utc (fst a)) eqn:L; rewrite ?Z.ltb_lt, ?Z.ltb_ge in L.
  - rewrite (pmax_comm (snd a) (snd b)) by assumption.
    rewrite <- (absorb b a (pure_sort rest)) with (lo := lo); auto; [|lia].
    apply emitted_tie; [apply pure_insert_comm| |].
    + refine (Permutation_Forall _ Hwf).
      rewrite <- pure_insert_perm. apply perm_skip.
      rewrite <- pure_insert_perm. apply perm_skip, pure_sort_perm.
    + refine (Permutation_Forall _ Hwr).
      rewrite <- pure_insert_perm. apply perm_skip.
      rewrite <- pure_insert_perm. apply perm_skip, pure_sort_perm.
  - apply (absorb a b (pure_sort rest)) with (lo := lo); auto; lia.
Qed.

End MergeFacts.

(** * The properties of the specification *)

(** ** Termination of the clipper *)

(** Whatever the gap, the loop of [clip_to_working_hours] ends: with the
    fuel of [clip_fuel], or more, it leaves a result, the slots or the
    exception that stopped it. *)
Lemma clip_loop_ends
    (min_duration_minutes working_hours_start working_hours_end : Z)
    (gap_start gap_end : datetime) (fuel : nat) :
  (clip_fuel gap_start gap_end <= fuel)%nat ->
  clip_loop min_duration_minutes working_hours_start working_hours_end
    fuel gap_start gap_end gap_start
  = Some (clip_to_working_hours min_duration_minutes working_hours_start working_hours_end
            gap_start gap_end).
Proof.
  intros Hfuel.
  apply (clip_loop_more_fuel _ _ _ _ _ _ _ _ fuel (clip_fuel_enough _ _ _ _ _) Hfuel).
Qed.

(** Inside the calendar, and with working hours in 0..23, the loop ends as
    the specification says: with the slots, every turn having moved the
    cursor to the start of the working hours of the next day, and the
    cursor having reached or passed [gap_end]. *)
Lemma clip_loop_reaches_gap_end
    (min_duration_minutes working_hours_start working_hours_end : Z)
    (gap_start gap_end : datetime) :
  0 <= working_hours_start <= 23 ->
  0 <= working_hours_end <= 23 ->
  comparable gap_start gap_end = true ->
  in_calendar gap_end gap_start ->
  exists slots,
    clip_to_working_hours min_duration_minutes working_hours_start working_hours_end
      gap_start gap_end = Ok slots
    /\ forall fuel, (clip_fuel gap_start gap_end <= fuel)%nat ->
         exists final,
           clip_loop_cursor min_duration_minutes working_hours_start working_hours_end
             fuel gap_start gap_end gap_start = Some (Ok (slots, final))
           /\ utc gap_end <= utc final
           /\ ((final = gap_start /\ slots = [])
               \/ (utc gap_start < utc gap_end
                   /\ toordinal gap_start < toordinal final
                   /\ final = mkdt (toordinal final * MICROS_PER_DAY
                                    + working_hours_start * MICROS_PER_HOUR)
                                   (tzinfo gap_start))).
Proof.
  intros Hs He C [Hlo Hhi]. apply valid_hour_spec in Hs, He.
  destruct (clip_total min_duration_minutes working_hours_start working_hours_end
              gap_start gap_end Hs He C Hlo Hhi) as [slots Hslots].
  exists slots. split; [exact Hslots|]. intros fuel Hfuel.
  apply clip_loop_cursor_run; [reflexivity|].
  rewrite <- Hslots. apply clip_loop_ends. exact Hfuel.
Qed.

(** Every turn of the loop that completes moves the cursor to the start of
    the working hours of the next calendar day. *)
Lemma clip_body_next_day
    (min_duration_minutes working_hours_start working_hours_end : Z)
    (gap_start gap_end current current' : datetime) (yielded : list interval) :
  0 <= working_hours_start <= 23 ->
  clip_body min_duration_minutes working_hours_start working_hours_end
    gap_start gap_end current = Ok (yielded, current') ->
  toordinal current' = toordinal current + 1
  /\ current' = mkdt (toordinal current' * MICROS_PER_DAY
                      + working_hours_start * MICROS_PER_HOUR) (tzinfo gap_start).
Proof.
  intros Hs H. unfold clip_body in H.
  bind_inv H as work_start E1. bind_inv H as work_end E2.
  bind_inv H as slot_start E3. bind_inv H as slot_end E4.
  bind_inv H as nonempty E5. bind_inv H as yielded' E6.
  bind_inv H as next_day E7. bind_inv H as cur E8. injection H as _ <-.
  apply date_add_days_ok in E7; destruct E7 as [-> _].
  apply datetime_at_ok in E8; destruct E8 as [_ ->].
  rewrite toordinal_at_hour by exact Hs. auto.
Qed.

(** C10.  A gap on the last day of the calendar, with [gap_start <= gap_end]
    and working hours in 0..23, whose loop does not run until the cursor
    reaches [gap_end]: for the gap from 09:00 to 11:00 of 9999-12-31 and
    working hours 9 to 18 the loop is entered, its first turn asks for the
    day after 9999-12-31, and the [OverflowError] of that date ends the
    loop, with any fuel, before the cursor has moved; no run of the loop
    there ends with a cursor. *)
Theorem clip_to_working_hours_last_day_overflow :
  utc (at_hour MAXORDINAL 9 0) <= utc (at_hour MAXORDINAL 11 0)
  /\ 0 <= 9 <= 23 /\ 0 <= 18 <= 23
  /\ dt_lt (at_hour MAXORDINAL 9 0) (at_hour MAXORDINAL 11 0) = Ok true
  /\ clip_body 30 9 18 (at_hour MAXORDINAL 9 0) (at_hour MAXORDINAL 11 0)
       (at_hour MAXORDINAL 9 0) = Raise OverflowError
  /\ (forall fuel,
        clip_loop_cursor 30 9 18 (S fuel) (at_hour MAXORDINAL 9 0) (at_hour MAXORDINAL 11 0)
          (at_hour MAXORDINAL 9 0) = Some (Raise OverflowError))
  /\ (forall fuel slots final,
        clip_loop_cursor 30 9 18 fuel (at_hour MAXORDINAL 9 0) (at_hour MAXORDINAL 11 0)
          (at_hour MAXORDINAL 9 0) <> Some (Ok (slots, final)))
  /\ clip_to_working_hours 30 9 18 (at_hour MAXORDINAL 9 0) (at_hour MAXORDINAL 11 0)
     = Raise OverflowError.
Proof.
  assert (B : clip_body 30 9 18 (at_hour MAXORDINAL 9 0) (at_hour MAXORDINAL 11 0)
                (at_hour MAXORDINAL 9 0) = Raise OverflowError) by (vm_compute; reflexivity).
  assert (L : dt_lt (at_hour MAXORDINAL 9 0) (at_hour MAXORDINAL 11 0) = Ok true)
    by (vm_compute; reflexivity).
  assert (R : forall fuel,
             clip_loop_cursor 30 9 18 (S fuel) (at_hour MAXORDINAL 9 0)
               (at_hour MAXORDINAL 11 0) (at_hour MAXORDINAL 9 0)
             = Some (Raise OverflowError)).
  { intros fuel. cbn [clip_loop_cursor]. rewrite L, B. reflexivity. }
  split; [vm_compute; discriminate|].
  split; [lia|]. split; [lia|].
  split; [exact L|]. split; [exact B|]. split; [exact R|].
  split.
  - intros [|fuel] slots final; [discriminate|]. rewrite R. discriminate.
  - vm_compute; reflexivity.
Qed.

(** ** Order and exclusion *)

(** C5.  For every query and every list of busy intervals (in any order,
    overlapping or adjacent, each with [start <= end]), the slots returned
    are, in the order in which they are emitted, strictly increasing by
    start and pairwise non-overlapping. *)
Theorem free_slots_increasing_disjoint
    (min_duration_minutes working_hours_start working_hours_end : Z)
    (start_dt end_dt : datetime) (busy : list interval) (slots : list interval) :
  Forall well_formed busy ->
  free_slots_of min_duration_minutes working_hours_start working_hours_end
    start_dt end_dt busy = Ok slots ->
  increasing_disjoint slots.
Proof.
  intros Hwf H. apply free_slots_of_ok in H.
  destruct H as (sorted & current & free_slots & Hsort & Hsweep & Htail).
  pose proof (sort_by_start_perm _ _ Hsort) as P.
  destruct (sweep_chain _ _ _ _ sorted start_dt [] _ (utc start_dt)
              (Permutation_Forall P Hwf) Hsweep (Z.le_refl _) I) as [Hc Hle].
  simpl in Hc, Hle.
  destruct Htail as [(L & tail & Hclip & ->)|(L & ->)].
  - apply clip_chain in Hclip.
    apply (chain_increasing _ (utc start_dt) (utc end_dt)).
    apply (chain_app _ _ _ (utc current) (utc current) (utc end_dt) _ Hc Hclip); lia.
  - apply (chain_increasing _ _ _ Hc).
Qed.

Lemma free_slots_increasing_disjoint_witness :
  increasing_disjoint
    [(at_hour 739677 9 0, at_hour 739677 10 0);
     (at_hour 739677 13 0, at_hour 739677 18 0);
     (at_hour 739678 9 0, at_hour 739678 11 0)].
Proof.
  apply (free_slots_increasing_disjoint 30 9 18 (at_hour 739677 9 0) (at_hour 739678 11 0)
           [(at_hour 739677 12 0, at_hour 739677 13 0);
            (at_hour 739677 10 0, at_hour 739677 12 0);
            (at_hour 739677 11 0, at_hour 739677 12 0)]).
  - repeat constructor; vm_compute; discriminate.
  - vm_compute. reflexivity.
Defined.

(** C2.  For every query and every list of busy intervals, no slot that
    the free-slot computation returns intersects an input busy interval. *)
Theorem free_slots_exclude_busy
    (min_duration_minutes working_hours_start working_hours_end : Z)
    (start_dt end_dt : datetime) (busy : list interval) (slots : list interval) :
  free_slots_of min_duration_minutes working_hours_start working_hours_end
    start_dt end_dt busy = Ok slots ->
  forall s b, In s slots -> In b busy -> ~ intersects s b.
Proof.
  intros H s b Hs Hb. apply free_slots_of_ok in H.
  destruct H as (sorted & current & free_slots & Hsort & Hsweep & Htail).
  pose proof (sort_by_start_perm _ _ Hsort) as P.
  destruct (sort_by_start_sorted _ _ Hsort) as [lo Hlo].
  destruct (sweep_exclusion _ _ _ _ sorted start_dt [] _ lo Hlo Hsweep)
    as (Hle & Hpast & new & Hnew & Hx).
  simpl in Hle, Hpast, Hnew. subst free_slots.
  assert (Hb' : In b sorted) by (apply (Permutation_in _ P); exact Hb).
  assert (Hswept : forall s, In s new -> ~ intersects s b).
  { intros s' Hs'. destruct (Hx s' Hs') as (_ & _ & Hd). apply Hd; exact Hb'. }
  destruct Htail as [(L & tail & Hclip & ->)|(L & ->)]; [|apply Hswept; exact Hs].
  apply in_app_or in Hs; destruct Hs as [Hs|Hs]; [apply Hswept; exact Hs|].
  apply clip_chain in Hclip. destruct (chain_In _ _ _ _ Hclip Hs) as (A & B & C).
  specialize (Hpast L b Hb'). unfold intersects. lia.
Qed.

Lemma free_slots_exclude_busy_witness :
  ~ intersects (at_hour 739677 13 0, at_hour 739677 18 0)
               (at_hour 739677 12 0, at_hour 739677 13 0).
Proof.
  apply (free_slots_exclude_busy 30 9 18 (at_hour 739677 9 0) (at_hour 739677 18 0)
           [(at_hour 739677 12 0, at_hour 739677 13 0);
            (at_hour 739677 10 0, at_hour 739677 12 0)]
           [(at_hour 739677 9 0, at_hour 739677 10 0);
            (at_hour 739677 13 0, at_hour 739677 18 0)]).
  - vm_compute. reflexivity.
  - right; left; reflexivity.
  - left; reflexivity.
Defined.

(** ** Coverage without busy intervals *)

(** C1, as stated, fails: a range of ten minutes inside the working hours
    has ten minutes of working time, and with a minimum duration of thirty
    minutes no slot is returned. *)
Lemma no_busy_coverage_counterexample :
  exists slots,
    free_slots_of 30 9 18 (at_hour 739677 9 0) (at_time 739677 9 10 0) [] = Ok slots
    /\ total_duration slots
       <> sum_days (window_overlap 9 18 (at_hour 739677 9 0) (at_time 739677 9 10 0))
            739677 1.
Proof.
  exists []. split; [vm_compute; reflexivity | vm_compute; discriminate].
Qed.

(** C1, amended.  For every query with an empty busy list, working hours
    in 0..23 and a range inside the calendar, the free-slot computation
    returns slots whose total duration is the sum, over the calendar days
    of the range (and any days added around them), of the durations of the
    intersections of the range with the day's working window that last at
    least [min_duration_minutes]. *)
Theorem no_busy_coverage
    (min_duration_minutes working_hours_start working_hours_end : Z)
    (rs re : datetime) (first : Z) (n : nat) :
  aware rs -> aware re ->
  0 <= working_hours_start <= 23 ->
  0 <= working_hours_end <= 23 ->
  in_calendar re rs ->
  first <= toordinal rs ->
  (utc re + utcoffset rs) / MICROS_PER_DAY < first + Z.of_nat n ->
  exists slots,
    free_slots_of min_duration_minutes working_hours_start working_hours_end rs re []
    = Ok slots
    /\ total_duration slots
       = sum_days (fun day => at_least min_duration_minutes
                                (window_overlap working_hours_start working_hours_end
                                   rs re day))
           first n.
Proof.
  intros Ars Are Hs He [Hlo Hhi] Hfirst Hn.
  apply valid_hour_spec in Hs, He.
  unfold free_slots_of; simpl. rewrite dt_lt_aware by assumption; simpl.
  destruct (utc rs <? utc re) eqn:L; rewrite ?Z.ltb_lt, ?Z.ltb_ge in L.
  - destruct (clip_total min_duration_minutes working_hours_start working_hours_end rs re)
      as [slots Hslots]; auto using comparable_aware.
    rewrite Hslots; simpl. exists slots; split; [reflexivity|].
    apply (clip_sum _ _ _ _ _ _ first n Hslots He Hfirst Hn).
  - exists []; split; [reflexivity|]. symmetry; apply sum_days_zero.
    intros d _. apply (counted_backwards _ _ _ _ _ d L).
Qed.

Lemma no_busy_coverage_witness :
  exists slots,
    free_slots_of 30 9 18 (at_time 739677 17 45 0) (at_hour 739678 11 0) [] = Ok slots
    /\ total_duration slots
       = sum_days (fun day => at_least 30
                     (window_overlap 9 18 (at_time 739677 17 45 0) (at_hour 739678 11 0) day))
           739676 4.
Proof.
  apply (no_busy_coverage 30 9 18 (at_time 739677 17 45 0) (at_hour 739678 11 0) 739676 4);
    try (vm_compute; intuition discriminate); try lia.
Defined.

(** ** Scenario D *)

Lemma toordinal_at_hour' (day hour off : Z) :
  0 <= hour <= 23 -> toordinal (at_hour day hour off) = day.
Proof. intros H; unfold at_hour; apply toordinal_at_hour; exact H. Qed.

(** A range from 09:00 of one day to 11:00 of the next, no busy interval,
    working hours (9, 18) and thirty minutes: the two slots of scenario D,
    for every day that has a day after its next day in the calendar. *)
Lemma scenario_D_inside_calendar (day off : Z) :
  0 <= day -> day + 1 < MAXORDINAL ->
  free_slots_of 30 9 18 (at_hour day 9 off) (at_hour (day + 1) 11 off) []
  = Ok [(at_hour day 9 off, at_hour day 18 off);
        (at_hour (day + 1) 9 off, at_hour (day + 1) 11 off)].
Proof.
  intros Hlo Hhi.
  assert (Hutc : forall d h, utc (at_hour d h off)
                             = d * MICROS_PER_DAY + h * MICROS_PER_HOUR - off)
    by reflexivity.
  assert (A : forall d h, aware (at_hour d h off)) by (intros; discriminate).
  unfold free_slots_of; simpl sort_by_start; simpl sweep; simpl bind.
  rewrite !Hutc.
  replace (_ <? _) with true
    by (symmetry; apply Z.ltb_lt; unfold MICROS_PER_DAY, MICROS_PER_HOUR; lia).
  simpl bind.
  rewrite (clip_loop_run 30 9 18 _ _ 3
             (Ok [(at_hour day 9 off, at_hour day 18 off);
                  (at_hour (day + 1) 9 off, at_hour (day + 1) 11 off)])); [reflexivity|].
  (* first day *)
  cbn [clip_loop]. rewrite dt_lt_aware by apply A. rewrite !Hutc.
  replace (_ <? _) with true
    by (symmetry; apply Z.ltb_lt; unfold MICROS_PER_DAY, MICROS_PER_HOUR; lia).
  rewrite clip_body_eq by (apply comparable_aware; apply A).
  rewrite toordinal_at_hour' by lia.
  replace ((0 <? day + 1) && (day + 1 <=? MAXORDINAL)) with true
    by (symmetry; apply andb_true_iff; rewrite Z.ltb_lt, Z.leb_le; lia).
  change (valid_hour 9 && valid_hour 18) with true. cbv iota.
  assert (Y1 : yield_of 30 9 18 (at_hour (day + 1) 11 off) (at_hour day 9 off)
               = [(at_hour day 9 off, at_hour day 18 off)]).
  { unfold yield_of, slot_start_of, slot_end_of, work_at.
    rewrite toordinal_at_hour' by lia. fold (at_hour day 9 off) (at_hour day 18 off).
    simpl tzinfo. fold (at_hour day 9 off) (at_hour day 18 off).
    rewrite !Hutc. rewrite Z.ltb_irrefl.
    replace (day * MICROS_PER_DAY + 18 * MICROS_PER_HOUR - off
             <? (day + 1) * MICROS_PER_DAY + 11 * MICROS_PER_HOUR - off) with true
      by (symmetry; apply Z.ltb_lt; unfold MICROS_PER_DAY, MICROS_PER_HOUR; lia).
    rewrite !Hutc.
    replace (_ && _) with true; [reflexivity|].
    symmetry; apply andb_true_iff; unfold total_seconds_ge; rewrite Z.ltb_lt, Z.leb_le.
    unfold MICROS_PER_DAY, MICROS_PER_HOUR; lia. }
  rewrite Y1.
  change (next_cursor 9 (at_hour day 9 off) (at_hour day 9 off))
    with (mkdt ((toordinal (at_hour day 9 off) + 1) * MICROS_PER_DAY + 9 * MICROS_PER_HOUR)
               (Some off)).
  rewrite toordinal_at_hour' by lia. fold (at_hour (day + 1) 9 off).
  (* second day *)
  cbn [clip_loop]. rewrite dt_lt_aware by apply A. rewrite !Hutc.
  replace (_ <? _) with true
    by (symmetry; apply Z.ltb_lt; unfold MICROS_PER_DAY, MICROS_PER_HOUR; lia).
  rewrite clip_body_eq by (apply comparable_aware; apply A).
  rewrite toordinal_at_hour' by lia.
  replace ((0 <? day + 1 + 1) && (day + 1 + 1 <=? MAXORDINAL)) with true
    by (symmetry; apply andb_true_iff; rewrite Z.ltb_lt, Z.leb_le; lia).
  change (valid_hour 9 && valid_hour 18) with true. cbv iota.
  assert (Y2 : yield_of 30 9 18 (at_hour (day + 1) 11 off) (at_hour (day + 1) 9 off)
               = [(at_hour (day + 1) 9 off, at_hour (day + 1) 11 off)]).
  { unfold yield_of, slot_start_of, slot_end_of, work_at.
    rewrite toordinal_at_hour' by lia.
    simpl tzinfo. fold (at_hour (day + 1) 9 off) (at_hour (day + 1) 18 off).
    rewrite !Hutc. rewrite Z.ltb_irrefl.
    replace ((day + 1) * MICROS_PER_DAY + 18 * MICROS_PER_HOUR - off
             <? (day + 1) * MICROS_PER_DAY + 11 * MICROS_PER_HOUR - off) with false
      by (symmetry; apply Z.ltb_ge; unfold MICROS_PER_DAY, MICROS_PER_HOUR; lia).
    rewrite !Hutc.
    replace (_ && _) with true; [reflexivity|].
    symmetry; apply andb_true_iff; unfold total_seconds_ge; rewrite Z.ltb_lt, Z.leb_le.
    unfold MICROS_PER_DAY, MICROS_PER_HOUR; lia. }
  rewrite Y2.
  change (next_cursor 9 (at_hour day 9 off) (at_hour (day + 1) 9 off))
    with (mkdt ((toordinal (at_hour (day + 1) 9 off) + 1) * MICROS_PER_DAY
                + 9 * MICROS_PER_HOUR) (Some off)).
  rewrite toordinal_at_hour' by lia. fold (at_hour (day + 1 + 1) 9 off).
  (* the cursor has passed the end of the range *)
  cbn [clip_loop]. rewrite dt_lt_aware by apply A. rewrite !Hutc.
  replace (_ <? _) with false
    by (symmetry; apply Z.ltb_ge; unfold MICROS_PER_DAY, MICROS_PER_HOUR; lia).
  reflexivity.
Qed.

(** ** Merging busy intervals *)

Lemma datetime_eq (x y : datetime) : wall x = wall y -> tzinfo x = tzinfo y -> x = y.
Proof. destruct x, y; simpl; intros -> ->; reflexivity. Qed.

(** Busy intervals reported at one offset write one instant in one way. *)
Lemma coherent_same_offset (off : Z) (l : list interval) :
  Forall (fun d => tzinfo d = Some off) (endpoints l) -> coherent l.
Proof.
  intros H x y Hx Hy E. rewrite Forall_forall in H.
  pose proof (H x Hx) as Tx. pose proof (H y Hy) as Ty.
  apply datetime_eq; [|congruence].
  unfold utc, utcoffset in E. rewrite Tx, Ty in E. lia.
Qed.

Lemma in_endpoints (b : interval) (l : list interval) :
  In b l -> In (fst b) (endpoints l) /\ In (snd b) (endpoints l).
Proof.
  intros H; unfold endpoints; split; apply in_flat_map; exists b; simpl; auto.
Qed.

(** C6, as stated, fails.  On one day, at offset +00:00, the busy
    intervals 10:00-10:45 and 10:30-11:00 overlap and their union is
    10:00-11:00; a third busy interval runs from 10:15 to the same instant
    11:00, written 12:00+01:00.  With the three, the sweep leaves the
    cursor at 12:00+01:00 and the clipper reads the working hours at
    +01:00: the afternoon slot ends at 18:00+01:00.  With the union in
    place of the two, the cursor is 11:00+00:00 and the slot ends at
    18:00+00:00, one hour later. *)
Lemma merge_busy_counterexample :
  overlapping_or_adjacent busy_early busy_late
  /\ interval_union busy_early busy_late = (at_hour 739677 10 0, at_hour 739677 11 0)
  /\ free_slots_of 30 9 18 (at_hour 739677 9 0) (at_hour 739677 18 0)
       [busy_early; busy_other_offset; busy_late]
     = Ok [(at_hour 739677 9 0, at_hour 739677 10 0);
           (at_hour 739677 12 MICROS_PER_HOUR, at_hour 739677 18 MICROS_PER_HOUR)]
  /\ free_slots_of 30 9 18 (at_hour 739677 9 0) (at_hour 739677 18 0)
       [interval_union busy_early busy_late; busy_other_offset]
     = Ok [(at_hour 739677 9 0, at_hour 739677 10 0);
           (at_hour 739677 11 0, at_hour 739677 18 0)]
  /\ free_slots_of 30 9 18 (at_hour 739677 9 0) (at_hour 739677 18 0)
       [busy_early; busy_other_offset; busy_late]
     <> free_slots_of 30 9 18 (at_hour 739677 9 0) (at_hour 739677 18 0)
          [interval_union busy_early busy_late; busy_other_offset].
Proof.
  repeat split; try (vm_compute; reflexivity); try (vm_compute; discriminate).
Qed.

(** C6, amended.  For every query, replacing two overlapping or adjacent
    busy intervals of the input list by their union, wherever the two stand
    in the list and wherever the union is put, gives the same result of the
    free-slot computation, the same slots or the same exception, when the
    instants are offset-aware, the busy intervals have [start <= end] and
    the busy list writes no instant at two offsets. *)
Theorem merge_busy_same_result
    (min_duration_minutes working_hours_start working_hours_end : Z)
    (start_dt end_dt : datetime) (a b : interval) (rest busy busy' : list interval) :
  aware start_dt -> aware end_dt ->
  Forall aware_interval (a :: b :: rest) ->
  Forall well_formed (a :: b :: rest) ->
  coherent (a :: b :: rest) ->
  overlapping_or_adjacent a b ->
  Permutation busy (a :: b :: rest) ->
  Permutation busy' (interval_union a b :: rest) ->
  free_slots_of min_duration_minutes working_hours_start working_hours_end
    start_dt end_dt busy
  = free_slots_of min_duration_minutes working_hours_start working_hours_end
      start_dt end_dt busy'.
Proof.
  intros As Ae Haw Hwf Hco Hov P P'.
  set (C := fun d => In d (endpoints (a :: b :: rest))).
  assert (C_inj : forall x y, C x -> C y -> utc x = utc y -> x = y) by exact Hco.
  assert (Hwr : Forall (fun x : interval => C (fst x) /\ C (snd x)) (a :: b :: rest)).
  { apply Forall_forall; intros x Hx; apply in_endpoints; exact Hx. }
  assert (Hu : forall p q : datetime -> Prop,
             (forall x, In x (a :: b :: rest) -> p (fst x) /\ q (snd x)) ->
             (p (fst (interval_union a b)) /\ q (snd (interval_union a b)))).
  { intros p q H. destruct (H a (or_introl eq_refl)) as [Pa Qa].
    destruct (H b (or_intror (or_introl eq_refl))) as [Pb Qb].
    unfold interval_union; simpl.
    destruct (utc (fst b) <? utc (fst a)); destruct (utc (snd a) <? utc (snd b)); auto. }
  assert (Haw' : Forall aware_interval (interval_union a b :: rest)).
  { constructor; [apply (Hu aware aware); apply Forall_forall; exact Haw|].
    inversion Haw as [|? ? _ H]; inversion H; assumption. }
  assert (Hwr' : Forall (fun x : interval => C (fst x) /\ C (snd x))
                   (interval_union a b :: rest)).
  { constructor; [apply (Hu C C); apply Forall_forall; exact Hwr|].
    inversion Hwr as [|? ? _ H]; inversion H; assumption. }
  assert (Hwf' : Forall well_formed (interval_union a b :: rest)).
  { constructor; [|inversion Hwf as [|? ? _ H]; inversion H; assumption].
    inversion Hwf as [|? ? Wa H]; subst. inversion H as [|? ? Wb _]; subst.
    destruct Hov as [O1 O2]. unfold well_formed, interval_union in *; simpl.
    destruct (utc (fst b) <? utc (fst a)) eqn:L1; destruct (utc (snd a) <? utc (snd b)) eqn:L2;
      rewrite ?Z.ltb_lt, ?Z.ltb_ge in *; lia. }
  rewrite !free_slots_of_emitted; auto;
    try (apply (Permutation_Forall (Permutation_sym P) Haw));
    try (apply (Permutation_Forall (Permutation_sym P') Haw')).
  rewrite (emitted_tie _ _ _ _ C C_inj (pure_sort busy) (pure_sort (a :: b :: rest)));
    [|apply pure_sort_tie; exact P| |].
  2:{ apply (Permutation_Forall (pure_sort_perm busy)).
      apply (Permutation_Forall (Permutation_sym P) Hwf). }
  2:{ apply (Permutation_Forall (pure_sort_perm busy)).
      apply (Permutation_Forall (Permutation_sym P) Hwr). }
  rewrite (emitted_tie _ _ _ _ C C_inj (pure_sort busy')
             (pure_sort (interval_union a b :: rest)));
    [|apply pure_sort_tie; exact P'| |].
  2:{ apply (Permutation_Forall (pure_sort_perm busy')).
      apply (Permutation_Forall (Permutation_sym P') Hwf'). }
  2:{ apply (Permutation_Forall (pure_sort_perm busy')).
      apply (Permutation_Forall (Permutation_sym P') Hwr'). }
  apply (merge_emitted _ _ _ _ C C_inj); assumption.
Qed.

Lemma merge_busy_same_result_witness :
  free_slots_of 30 9 18 (at_hour 739677 9 0) (at_hour 739677 18 0)
    [(at_hour 739677 15 0, at_hour 739677 16 0);
     (at_hour 739677 11 0, at_hour 739677 13 0);
     (at_hour 739677 10 0, at_hour 739677 11 0)]
  = free_slots_of 30 9 18 (at_hour 739677 9 0) (at_hour 739677 18 0)
      [(at_hour 739677 15 0, at_hour 739677 16 0);
       (at_hour 739677 10 0, at_hour 739677 13 0)].
Proof.
  apply (merge_busy_same_result 30 9 18 (at_hour 739677 9 0) (at_hour 739677 18 0)
           (at_hour 739677 11 0, at_hour 739677 13 0)
           (at_hour 739677 10 0, at_hour 739677 11 0)
           [(at_hour 739677 15 0, at_hour 739677 16 0)]).
  - discriminate.
  - discriminate.
  - repeat constructor; discriminate.
  - repeat constructor; vm_compute; discriminate.
  - apply (coherent_same_offset 0); repeat constructor.
  - split; vm_compute; discriminate.
  - exact (Permutation_cons_append [_; _] _).
  - apply perm_swap.
Defined.

(** ** The tools *)

Lemma range_bounds_aware (fromisoformat : string -> option datetime) (w : world)
    (start_date end_date : string) (start_dt end_dt : datetime) :
  range_bounds fromisoformat w start_date end_date = Ok (start_dt, end_dt) ->
  aware start_dt /\ aware end_dt.
Proof.
  unfold range_bounds. intros H.
  bind_inv H as u E. bind_inv H as s E1. bind_inv H as e E2.
  injection H as <- <-. unfold aware, replace_tzinfo.
  destruct (tzinfo s) eqn:Ts; simpl; destruct (tzinfo e) eqn:Te; simpl;
    rewrite ?Ts, ?Te; split; discriminate.
Qed.

(** The bounds of the range do not depend on the timezone setting of the
    account. *)
Lemma range_bounds_ignores_setting (fromisoformat : string -> option datetime)
    (w : world) (setting : result (option string)) (start_date end_date : string) :
  range_bounds fromisoformat
    {| get_credentials := get_credentials w; build := build w;
       settings_timezone := setting;
       local_utcoffset := local_utcoffset w; now_utc := now_utc w;
       freebusy_query := freebusy_query w; events_insert := events_insert w |}
    start_date end_date
  = range_bounds fromisoformat w start_date end_date.
Proof. reflexivity. Qed.

(** C3.  With the account's timezone set to UTC and a machine eight hours
    ahead of UTC, naive bounds are given the offset of the machine,
    +08:00, not UTC: [_get_user_timezone] is asked and its answer is not
    used. *)
Theorem naive_bounds_take_machine_offset :
  _get_user_timezone example_world = "UTC"%string
  /\ range_bounds Iso.fromisoformat example_world
       "2026-03-02T09:00:00" "2026-03-02T18:00:00"
     = Ok (at_hour 739677 9 (8 * MICROS_PER_HOUR), at_hour 739677 18 (8 * MICROS_PER_HOUR)).
Proof. split; vm_compute; reflexivity. Qed.

(** C7.  A busy entry whose start is no timestamp: the [ValueError] of
    [_parse_iso8601] leaves [get_free_slots], while the same text given as
    [start_date] is answered with the message of
    [errors.unexpected_failure]. *)
Theorem malformed_busy_timestamp_escapes :
  get_free_slots Iso.fromisoformat Iso.isoformat Iso.exn_text world_with_malformed_busy
    "2026-03-02T09:00:00+00:00" "2026-03-02T18:00:00+00:00" 30 9 18 "primary"
  = Raise ValueError
  /\ get_free_slots Iso.fromisoformat Iso.isoformat Iso.exn_text world_with_malformed_busy
       "12 o'clock" "2026-03-02T18:00:00+00:00" 30 9 18 "primary"
     = Ok (errors.unexpected_failure (Iso.exn_text ValueError)).
Proof. split; vm_compute; reflexivity. Qed.

(** C4, as stated, fails: a range that ends before it starts is not
    rejected; the slot computation runs and the reply is no error. *)
Lemma inverted_range_not_rejected :
  get_free_slots Iso.fromisoformat Iso.isoformat Iso.exn_text example_world
    "2026-03-02T18:00:00+00:00" "2026-03-02T09:00:00+00:00" 30 9 18 "primary"
  = Ok "No free slots found in the given range."%string
  /\ is_error_reply "No free slots found in the given range." = false.
Proof. split; vm_compute; reflexivity. Qed.

Lemma render_free_slots_not_error (isoformat : datetime -> string)
    (min_duration_minutes working_hours_start working_hours_end : Z)
    (free_slots : list interval) :
  is_error_reply (render_free_slots isoformat min_duration_minutes working_hours_start
                    working_hours_end free_slots) = false.
Proof.
  unfold render_free_slots. destruct free_slots as [|s r]; [reflexivity|].
  match goal with
  | |- is_error_reply (fold_left ?f _ _) = false =>
      assert (H : forall slots t, exists t', fold_left f slots (String "F" t) = String "F" t')
  end.
  { intros slots; induction slots as [|x slots IH]; intros t; simpl; eauto. }
  destruct (H (s :: r) ("ree slots (" ++ str_int min_duration_minutes ++ "min min, "
                        ++ str_int working_hours_start ++ ":00-"
                        ++ str_int working_hours_end ++ ":00):")%string) as [t' Ht'].
  simpl in Ht' |- *. rewrite Ht'. reflexivity.
Qed.

(** C4, amended.  [get_free_slots] checks no precondition and has no
    [PreconditionError]: whatever the order of the bounds of the range, the
    sign of [min_duration_minutes] and the order of the two working hours
    (both hours of the day), once the bounds are parsed and the provider
    has answered with offset-aware timestamps, all inside the calendar, the
    slot computation runs, raises nothing, and its slots are the reply,
    which is no error message. *)
Theorem get_free_slots_checks_no_precondition
    (fromisoformat : string -> option datetime) (isoformat : datetime -> string)
    (exn_text : exn -> string) (w : world)
    (start_date end_date : string)
    (min_duration_minutes working_hours_start working_hours_end : Z)
    (calendar_id : string)
    (start_dt end_dt : datetime) (busy_list : list busy_entry)
    (busy_ranges : list interval) :
  range_bounds fromisoformat w start_date end_date = Ok (start_dt, end_dt) ->
  freebusy_query w {| timeMin := isoformat start_dt; timeMax := isoformat end_dt;
                      items := [calendar_id] |} = Ok busy_list ->
  build_busy_ranges fromisoformat busy_list = Ok busy_ranges ->
  Forall aware_interval busy_ranges ->
  0 <= working_hours_start <= 23 ->
  0 <= working_hours_end <= 23 ->
  in_calendar end_dt start_dt ->
  Forall (fun b => in_calendar end_dt (snd b)) busy_ranges ->
  exists free_slots reply,
    free_slots_of min_duration_minutes working_hours_start working_hours_end
      start_dt end_dt busy_ranges = Ok free_slots
    /\ get_free_slots fromisoformat isoformat exn_text w start_date end_date
         min_duration_minutes working_hours_start working_hours_end calendar_id
       = Ok reply
    /\ reply = render_free_slots isoformat min_duration_minutes working_hours_start
                 working_hours_end free_slots
    /\ is_error_reply reply = false.
Proof.
  intros Hrange Hquery Hbusy Haware Hs He Hcal Hcals.
  destruct (range_bounds_aware _ _ _ _ _ _ Hrange) as [As Ae].
  apply valid_hour_spec in Hs, He.
  destruct (free_slots_of_total min_duration_minutes working_hours_start working_hours_end
              end_dt start_dt busy_ranges Hs He As Ae Haware Hcal Hcals) as [free_slots Hf].
  exists free_slots. eexists. split; [exact Hf|]. split; [|split; [reflexivity|]].
  - unfold get_free_slots. rewrite Hrange, Hquery, Hbusy; simpl. rewrite Hf; reflexivity.
  - apply render_free_slots_not_error.
Qed.

Lemma get_free_slots_checks_no_precondition_witness :
  exists free_slots reply,
    free_slots_of (-5) 18 9 (at_hour 739677 18 0) (at_hour 739677 9 0) [] = Ok free_slots
    /\ get_free_slots Iso.fromisoformat Iso.isoformat Iso.exn_text example_world
         "2026-03-02T18:00:00+00:00" "2026-03-02T09:00:00+00:00" (-5) 18 9 "primary"
       = Ok reply
    /\ reply = render_free_slots Iso.isoformat (-5) 18 9 free_slots
    /\ is_error_reply reply = false.
Proof.
  apply (get_free_slots_checks_no_precondition Iso.fromisoformat Iso.isoformat Iso.exn_text
           example_world "2026-03-02T18:00:00+00:00" "2026-03-02T09:00:00+00:00"
           (-5) 18 9 "primary" (at_hour 739677 18 0) (at_hour 739677 9 0) [] []).
  - vm_compute; reflexivity.
  - vm_compute; reflexivity.
  - vm_compute; reflexivity.
  - constructor.
  - lia.
  - lia.
  - split; vm_compute; discriminate.
  - constructor.
Defined.

(** C9, as stated, fails: with no credentials file the reply to a start
    time of the day before is the message of the expired authentication,
    not the one of the event in the past. *)
Lemma create_event_in_past_counterexample :
  (exists start_dt,
      _parse_iso8601 Iso.fromisoformat "2026-03-01T09:00:00+00:00" = Ok start_dt
      /\ instant_of world_without_credentials start_dt < now_utc world_without_credentials)
  /\ fst (create_event Iso.fromisoformat Iso.isoformat Iso.exn_text
            world_without_credentials "Past Meeting" "2026-03-01T09:00:00+00:00" 60
            EmptyString EmptyString "primary")
     = errors.AUTH_EXPIRED
  /\ errors.AUTH_EXPIRED <> errors.event_in_past "2026-03-01T09:00:00+00:00".
Proof.
  split; [|split].
  - eexists; split; [vm_compute; reflexivity | vm_compute; reflexivity].
  - vm_compute; reflexivity.
  - vm_compute; discriminate.
Qed.

(** C9, amended.  For every start time that parses to an instant strictly
    before the current time, [create_event] sends no insert request to the
    provider, so that no event is created, and, when the calendar service
    is obtained, it returns the error of the event in the past. *)
Theorem create_event_in_past
    (fromisoformat : string -> option datetime) (isoformat : datetime -> string)
    (exn_text : exn -> string) (w : world)
    (title start_time : string) (duration_minutes : Z)
    (description location calendar_id : string) (start_dt : datetime) :
  _parse_iso8601 fromisoformat start_time = Ok start_dt ->
  instant_of w start_dt < now_utc w ->
  snd (create_event fromisoformat isoformat exn_text w title start_time duration_minutes
         description location calendar_id) = []
  /\ (_get_service w = Ok tt ->
      fst (create_event fromisoformat isoformat exn_text w title start_time
             duration_minutes description location calendar_id)
      = errors.event_in_past start_time).
Proof.
  intros Hparse Hpast. unfold create_event.
  destruct (_get_service w) as [[]|e] eqn:S; [|split; [reflexivity|discriminate]].
  rewrite Hparse. cbn [bind].
  assert (L : dt_lt (match tzinfo start_dt with
                     | Some _ => start_dt
                     | None => replace_tzinfo start_dt (tzinfo (_get_tz_aware_now w))
                     end) (_get_tz_aware_now w) = Ok true).
  { unfold dt_lt, comparable, instant_of in *.
    destruct (tzinfo start_dt) as [off|] eqn:T; simpl; rewrite ?T; simpl;
      f_equal; apply Z.ltb_lt; unfold utc, utcoffset; simpl; rewrite ?T; lia. }
  rewrite L. cbn [bind]. split; reflexivity.
Qed.

Lemma create_event_in_past_witness :
  snd (create_event Iso.fromisoformat Iso.isoformat Iso.exn_text example_world
         "Past Meeting" "2026-03-01T09:00:00" 60 EmptyString EmptyString "primary") = []
  /\ (_get_service example_world = Ok tt ->
      fst (create_event Iso.fromisoformat Iso.isoformat Iso.exn_text example_world
             "Past Meeting" "2026-03-01T09:00:00" 60 EmptyString EmptyString "primary")
      = errors.event_in_past "2026-03-01T09:00:00").
Proof.
  apply (create_event_in_past Iso.fromisoformat Iso.isoformat Iso.exn_text example_world
           "Past Meeting" "2026-03-01T09:00:00" 60 EmptyString EmptyString "primary"
           (mkdt (739676 * MICROS_PER_DAY + 9 * MICROS_PER_HOUR) None));
    vm_compute; reflexivity.
Defined.

(** C8.  Scenario D on the last two days of the calendar: the range from
    9999-12-30 09:00 to 9999-12-31 11:00 with no busy interval, working
    hours (9, 18) and thirty minutes.  After the slot of the second day
    the clipper asks for the day after 9999-12-31, and the computation
    ends with [OverflowError] in place of the two slots. *)
Theorem scenario_D_last_day :
  free_slots_of 30 9 18 (at_hour (MAXORDINAL - 1) 9 0) (at_hour MAXORDINAL 11 0) []
  = Raise OverflowError
  /\ get_free_slots Iso.fromisoformat Iso.isoformat Iso.exn_text example_world
       "9999-12-30T09:00:00+00:00" "9999-12-31T11:00:00+00:00" 30 9 18 "primary"
     = Raise OverflowError.
Proof. split; vm_compute; reflexivity. Qed.

(** * Further properties of the code *)

(** ** Where a slot comes from *)

Section SlotFacts.

Variable min_duration_minutes : Z.
Variable working_hours_start : Z.
Variable working_hours_end : Z.
Variable end_dt : datetime.

Notation clip_loop := (clip_loop min_duration_minutes working_hours_start working_hours_end).
Notation clip_to_working_hours :=
  (clip_to_working_hours min_duration_minutes working_hours_start working_hours_end).
Notation yield_of := (yield_of min_duration_minutes working_hours_start working_hours_end).
Notation next_cursor := (next_cursor working_hours_start).
Notation sweep :=
  (sweep min_duration_minutes working_hours_start working_hours_end end_dt).
Notation free_slots_of start_dt :=
  (free_slots_of min_duration_minutes working_hours_start working_hours_end start_dt end_dt).

(** A slot of the clipper is what the turn of one cursor yields, a cursor
    no earlier than the start of the gap. *)
Lemma clip_loop_turn (gap_start gap_end : datetime) (n : nat) (s : interval) :
  forall current l,
    tzinfo current = tzinfo gap_start ->
    clip_loop n gap_start gap_end current = Some (Ok l) ->
    In s l ->
    exists cursor,
      utc current <= utc cursor
      /\ In s (yield_of gap_end cursor)
      /\ valid_hour working_hours_start = true
      /\ valid_hour working_hours_end = true.
Proof.
  induction n as [|n IH]; intros current l Htz H Hs; [discriminate|].
  simpl in H. unfold dt_lt in H.
  destruct (comparable current gap_end) eqn:C; [|discriminate].
  destruct (utc current <? utc gap_end) eqn:L; [|injection H as <-; destruct Hs].
  rewrite clip_body_eq in H by exact C.
  destruct (valid_hour working_hours_start) eqn:Vs; simpl in H; [|discriminate].
  destruct (valid_hour working_hours_end) eqn:Ve; simpl in H; [|discriminate].
  destruct ((0 <? toordinal current + 1) && (toordinal current + 1 <=? MAXORDINAL));
    [|discriminate].
  destruct (clip_loop n gap_start gap_end (next_cursor gap_start current))
    as [[rest|e]|] eqn:R; try discriminate.
  injection H as <-.
  apply in_app_or in Hs. destruct Hs as [Hs|Hs].
  - exists current. repeat split; auto. lia.
  - destruct (IH (next_cursor gap_start current) rest eq_refl R Hs)
      as (cursor & Hle & Hin & _).
    exists cursor. repeat split; auto.
    apply valid_hour_spec in Vs.
    pose proof (toordinal_bounds current) as B.
    pose proof (utcoffset_eq _ _ Htz) as O.
    rewrite utc_next_cursor in Hle. unfold utc in *.
    unfold MICROS_PER_DAY, MICROS_PER_HOUR in *. lia.
Qed.

Lemma clip_turn (gap_start gap_end : datetime) (l : list interval) (s : interval) :
  clip_to_working_hours gap_start gap_end = Ok l ->
  In s l ->
  exists cursor,
    utc gap_start <= utc cursor
    /\ In s (yield_of gap_end cursor)
    /\ valid_hour working_hours_start = true
    /\ valid_hour working_hours_end = true.
Proof.
  intros H Hs.
  pose proof (clip_fuel_enough min_duration_minutes working_hours_start working_hours_end
                gap_start gap_end) as F.
  rewrite H in F. exact (clip_loop_turn _ _ _ _ _ _ eq_refl F Hs).
Qed.

(** A slot that the sweep adds is a slot of the clipper for a gap that
    starts no earlier than the cursor of the sweep and ends no later than
    [end_dt]. *)
Lemma sweep_turn (busy : list interval) (s : interval) :
  forall current free_slots out,
    sweep busy current free_slots = Ok out ->
    utc current <= utc (fst out)
    /\ (In s (snd out) ->
        In s free_slots
        \/ exists gap_end cursor,
            utc current <= utc cursor /\ utc gap_end <= utc end_dt
            /\ In s (yield_of gap_end cursor)
            /\ valid_hour working_hours_start = true
            /\ valid_hour working_hours_end = true).
Proof.
  induction busy as [|[bs be] rest IH]; intros current free_slots out H.
  - injection H as <-. simpl. split; [lia|auto].
  - apply sweep_cons_ok in H.
    destruct H as [[Hle H]|(Hlt & slots & Hslots & Hrest)].
    + apply IH in H. exact H.
    + assert (Hnew : In s slots ->
                     exists gap_end cursor,
                       utc current <= utc cursor /\ utc gap_end <= utc end_dt
                       /\ In s (yield_of gap_end cursor)
                       /\ valid_hour working_hours_start = true
                       /\ valid_hour working_hours_end = true).
      { intros Hs. destruct Hslots as [[_ Hclip]|[_ ->]]; [|destruct Hs].
        destruct (clip_turn _ _ _ _ Hclip Hs) as (cursor & A & B & V1 & V2).
        exists (if utc end_dt <? utc bs then end_dt else bs), cursor.
        repeat split; auto.
        destruct (utc end_dt <? utc bs) eqn:E;
          rewrite ?Z.ltb_lt, ?Z.ltb_ge in E; lia. }
      destruct Hrest as [[Hend ->]|[Hend H]].
      * simpl. split; [lia|]. intros Hs. apply in_app_or in Hs.
        destruct Hs as [Hs|Hs]; [left; exact Hs|right; apply Hnew; exact Hs].
      * apply IH in H. destruct H as [Hle H]. split; [lia|].
        intros Hs. destruct (H Hs) as [Hs'|(gap_end & cursor & A & R)].
        -- apply in_app_or in Hs'.
           destruct Hs' as [Hs'|Hs']; [left; exact Hs'|right; apply Hnew; exact Hs'].
        -- right. exists gap_end, cursor. split; [lia|exact R].
Qed.

Lemma free_slots_turn (start_dt : datetime) (busy l : list interval) (s : interval) :
  free_slots_of start_dt busy = Ok l ->
  In s l ->
  exists gap_end cursor,
    utc start_dt <= utc cursor /\ utc gap_end <= utc end_dt
    /\ In s (yield_of gap_end cursor)
    /\ valid_hour working_hours_start = true
    /\ valid_hour working_hours_end = true.
Proof.
  intros H Hs. apply free_slots_of_ok in H.
  destruct H as (sorted & current & free_slots & _ & Hsweep & Htail).
  apply (sweep_turn _ s) in Hsweep. simpl in Hsweep. destruct Hsweep as [Hle Hin].
  assert (Hswept : In s free_slots ->
                   exists gap_end cursor,
                     utc start_dt <= utc cursor /\ utc gap_end <= utc end_dt
                     /\ In s (yield_of gap_end cursor)
                     /\ valid_hour working_hours_start = true
                     /\ valid_hour working_hours_end = true).
  { intros Hs'. destruct (Hin Hs') as [[]|R]. exact R. }
  destruct Htail as [(_ & tail & Hclip & ->)|(_ & ->)]; [|apply Hswept; exact Hs].
  apply in_app_or in Hs. destruct Hs as [Hs|Hs]; [apply Hswept; exact Hs|].
  destruct (clip_turn _ _ _ _ Hclip Hs) as (cursor & A & R).
  exists end_dt, cursor. split; [lia|]. split; [lia|exact R].
Qed.

(** The slot of a turn starts on the calendar day of the cursor, at its
    offset. *)
Lemma work_at_slot_start (gap_end cursor : datetime) (s : interval) (hour : Z) :
  valid_hour working_hours_start = true ->
  In s (yield_of gap_end cursor) ->
  work_at (fst s) hour = work_at cursor hour.
Proof.
  intros V Hs. apply yield_of_spec in Hs. destruct Hs as (-> & _). simpl.
  unfold slot_start_of.
  destruct (utc cursor <? utc (work_at cursor working_hours_start)); [|reflexivity].
  unfold work_at at 1. simpl. unfold work_at.
  apply valid_hour_spec in V. rewrite toordinal_at_hour by exact V. reflexivity.
Qed.

End SlotFacts.

(** ** Busy intervals that do not meet the range *)

Lemma pure_insert_head (x : interval) (l : list interval) :
  (forall z, In z l -> utc (fst x) <= utc (fst z)) -> pure_insert x l = x :: l.
Proof.
  destruct l as [|y l]; [reflexivity|]. intros H. simpl.
  specialize (H y (or_introl eq_refl)).
  destruct (utc (fst y) <? utc (fst x)) eqn:L; [apply Z.ltb_lt in L; lia|reflexivity].
Qed.

Lemma sorted_from_filter (f : interval -> bool) (l : list interval) :
  forall lo, sorted_from lo l -> sorted_from lo (filter f l).
Proof.
  induction l as [|b r IH]; intros lo H; [exact I|].
  destruct H as [Hlo Hr]. simpl. destruct (f b).
  - split; [exact Hlo|apply IH; exact Hr].
  - apply (sorted_from_weaken _ (utc (fst b))); [exact Hlo|apply IH; exact Hr].
Qed.

Lemma pure_insert_filter (f : interval -> bool) (x : interval) (l : list interval) :
  forall lo, sorted_from lo l ->
  filter f (pure_insert x l) = if f x then pure_insert x (filter f l) else filter f l.
Proof.
  induction l as [|y r IH]; intros lo H.
  - simpl. destruct (f x); reflexivity.
  - destruct H as [Hlo Hr]. simpl.
    destruct (utc (fst y) <? utc (fst x)) eqn:L.
    + simpl. rewrite (IH _ Hr). destruct (f x), (f y); simpl; rewrite ?L; reflexivity.
    + apply Z.ltb_ge in L. simpl. destruct (f x) eqn:Fx; [|reflexivity].
      symmetry. change (pure_insert x (filter f (y :: r)) = x :: filter f (y :: r)).
      apply pure_insert_head. intros z Hz.
      apply filter_In in Hz. destruct Hz as [Hz _]. destruct Hz as [<-|Hz]; [exact L|].
      pose proof (sorted_from_In _ _ _ Hr Hz). lia.
Qed.

Lemma pure_sort_filter (f : interval -> bool) (l : list interval) :
  filter f (pure_sort l) = pure_sort (filter f l).
Proof.
  induction l as [|x r IH]; [reflexivity|]. simpl.
  destruct (pure_sort_sorted r) as [lo Hlo].
  rewrite (pure_insert_filter f x _ lo Hlo). rewrite IH.
  destruct (f x); reflexivity.
Qed.

Lemma filter_none {A : Type} (f : A -> bool) (l : list A) :
  (forall z, In z l -> f z = false) -> filter f l = [].
Proof.
  induction l as [|x r IH]; intros H; [reflexivity|]. simpl.
  rewrite (H x (or_introl eq_refl)). apply IH. intros z Hz. apply H. right; exact Hz.
Qed.

Lemma filter_both {A : Type} (f g : A -> bool) (l : list A) :
  filter g (filter f l) = filter (fun x => f x && g x) l.
Proof.
  induction l as [|x r IH]; [reflexivity|]. simpl.
  destruct (f x); simpl; [destruct (g x)|]; rewrite IH; reflexivity.
Qed.

Lemma Forall_filter_keeps {A : Type} (P : A -> Prop) (f : A -> bool) (l : list A) :
  Forall P l -> Forall P (filter f l).
Proof.
  intros H. apply Forall_forall. intros x Hx. apply filter_In in Hx.
  rewrite Forall_forall in H. apply H. apply Hx.
Qed.

Lemma bind_app_nil (c : result (list interval)) :
  (slots <- c ;; Ok (slots ++ [])) = c.
Proof. destruct c; simpl; rewrite ?app_nil_r; reflexivity. Qed.

Section RangeFacts.

Variable min_duration_minutes : Z.
Variable working_hours_start : Z.
Variable working_hours_end : Z.
Variable end_dt : datetime.

Notation clip_to_working_hours :=
  (clip_to_working_hours min_duration_minutes working_hours_start working_hours_end).
Notation emitted :=
  (emitted min_duration_minutes working_hours_start working_hours_end end_dt).

(** A busy interval that ends no later than some instant before the cursor
    is passed over. *)
Lemma emitted_drop_before (lo : datetime) (l : list interval) :
  forall current,
    utc lo <= utc current ->
    emitted l current = emitted (filter (fun b => utc lo <? utc (snd b)) l) current.
Proof.
  induction l as [|b rest IH]; intros current Hlo; [reflexivity|].
  simpl. destruct (utc lo <? utc (snd b)) eqn:K.
  - apply Z.ltb_lt in K. simpl.
    destruct (utc (snd b) <=? utc current); [apply IH; exact Hlo|].
    rewrite (IH (snd b)) by lia. reflexivity.
  - apply Z.ltb_ge in K.
    replace (utc (snd b) <=? utc current) with true
      by (symmetry; apply Z.leb_le; lia).
    apply IH; exact Hlo.
Qed.

(** Busy intervals that all start after [end_dt] leave the gap from the
    cursor to [end_dt]. *)
Lemma emitted_all_after (l : list interval) :
  aware end_dt ->
  Forall aware_interval l -> Forall well_formed l ->
  (forall b, In b l -> utc end_dt < utc (fst b)) ->
  forall current, aware current -> emitted l current = emitted [] current.
Proof.
  intros Ae. induction l as [|b rest IH]; intros Haw Hwf Hafter current Ac; [reflexivity|].
  inversion Haw as [|? ? [Ab1 Ab2] Haw']; subst.
  inversion Hwf as [|? ? Wb Hwf']; subst. unfold well_formed in Wb.
  assert (Hb : utc end_dt < utc (fst b)) by (apply Hafter; left; reflexivity).
  assert (Hrest : forall z, In z rest -> utc end_dt < utc (fst z))
    by (intros z Hz; apply Hafter; right; exact Hz).
  change (emitted (b :: rest) current)
    with (if utc (snd b) <=? utc current then emitted rest current
          else slots <- (if utc current <? utc (fst b)
                         then clip_to_working_hours current
                                (if utc end_dt <? utc (fst b) then end_dt else fst b)
                         else Ok []) ;;
               more <- emitted rest (snd b) ;; Ok (slots ++ more)).
  destruct (utc (snd b) <=? utc current); [apply IH; assumption|].
  rewrite (emitted_past_end _ _ _ _ rest Ae Haw' (snd b) Ab2) by lia.
  replace (utc end_dt <? utc (fst b)) with true by (symmetry; apply Z.ltb_lt; lia).
  cbn [bind]. rewrite bind_app_nil. simpl.
  destruct (utc current <? utc (fst b)) eqn:L1; destruct (utc current <? utc end_dt) eqn:L2;
    rewrite ?Z.ltb_lt, ?Z.ltb_ge in *; try reflexivity; try lia.
  apply clip_empty_gap; [apply comparable_aware; assumption|lia].
Qed.

Lemma emitted_drop_after (l : list interval) :
  aware end_dt ->
  Forall aware_interval l -> Forall well_formed l ->
  forall lo current,
    sorted_from lo l -> aware current ->
    emitted l current
    = emitted (filter (fun b => utc (fst b) <=? utc end_dt) l) current.
Proof.
  intros Ae. induction l as [|b rest IH]; intros Haw Hwf lo current Hs Ac; [reflexivity|].
  inversion Haw as [|? ? [Ab1 Ab2] Haw']; subst.
  inversion Hwf as [|? ? Wb Hwf']; subst.
  destruct Hs as [Hlo Hs].
  cbn [filter]. destruct (utc (fst b) <=? utc end_dt) eqn:K.
  - simpl. destruct (utc (snd b) <=? utc current); [apply (IH Haw' Hwf' _ _ Hs Ac)|].
    rewrite (IH Haw' Hwf' _ (snd b) Hs Ab2). reflexivity.
  - apply Z.leb_gt in K.
    rewrite filter_none.
    + apply emitted_all_after; auto.
      intros z [<-|Hz]; [exact K|].
      pose proof (sorted_from_In _ _ _ Hs Hz). lia.
    + intros z Hz. apply Z.leb_gt.
      pose proof (sorted_from_In _ _ _ Hs Hz). lia.
Qed.

End RangeFacts.

(** ** What every returned slot satisfies *)

(** X1.  Every slot that the free-slot computation returns lies inside the
    range asked for: it starts no earlier than [start_dt] and ends no later
    than [end_dt], whatever the busy list. *)
Theorem free_slots_within_range
    (min_duration_minutes working_hours_start working_hours_end : Z)
    (start_dt end_dt : datetime) (busy slots : list interval) (s : interval) :
  free_slots_of min_duration_minutes working_hours_start working_hours_end
    start_dt end_dt busy = Ok slots ->
  In s slots ->
  utc start_dt <= utc (fst s) /\ utc (snd s) <= utc end_dt.
Proof.
  intros H Hs.
  destruct (free_slots_turn _ _ _ _ _ _ _ _ H Hs) as (gap_end & cursor & A & B & Hin & _).
  apply yield_of_spec in Hin. destruct Hin as (_ & C & _ & D & _). lia.
Qed.

Lemma free_slots_within_range_witness :
  utc (at_time 739677 9 30 0) <= utc (fst (at_hour 739677 14 0, at_hour 739677 17 0))
  /\ utc (snd (at_hour 739677 14 0, at_hour 739677 17 0)) <= utc (at_hour 739677 17 0).
Proof.
  apply (free_slots_within_range 30 9 18 (at_time 739677 9 30 0) (at_hour 739677 17 0)
           [(at_hour 739677 11 0, at_hour 739677 14 0)]
           [(at_time 739677 9 30 0, at_hour 739677 11 0);
            (at_hour 739677 14 0, at_hour 739677 17 0)]).
  - vm_compute. reflexivity.
  - right; left; reflexivity.
Defined.

(** X2.  Every returned slot lies inside the working hours of one calendar
    day: read at the offset of its start, it starts no earlier than
    [working_hours_start]:00 of the day of its start and ends no later than
    [working_hours_end]:00 of that same day. *)
Theorem free_slots_within_working_hours
    (min_duration_minutes working_hours_start working_hours_end : Z)
    (start_dt end_dt : datetime) (busy slots : list interval) (s : interval) :
  free_slots_of min_duration_minutes working_hours_start working_hours_end
    start_dt end_dt busy = Ok slots ->
  In s slots ->
  utc (work_at (fst s) working_hours_start) <= utc (fst s)
  /\ utc (snd s) <= utc (work_at (fst s) working_hours_end).
Proof.
  intros H Hs.
  destruct (free_slots_turn _ _ _ _ _ _ _ _ H Hs) as (gap_end & cursor & _ & _ & Hin & V & _).
  rewrite !(work_at_slot_start _ _ _ _ _ _ _ V Hin).
  apply yield_of_spec in Hin. destruct Hin as (_ & _ & _ & _ & C & D & _). auto.
Qed.

Lemma free_slots_within_working_hours_witness :
  utc (work_at (fst (at_hour 739678 9 0, at_hour 739678 18 0)) 9)
  <= utc (fst (at_hour 739678 9 0, at_hour 739678 18 0))
  /\ utc (snd (at_hour 739678 9 0, at_hour 739678 18 0))
     <= utc (work_at (fst (at_hour 739678 9 0, at_hour 739678 18 0)) 18).
Proof.
  apply (free_slots_within_working_hours 30 9 18
           (at_hour 739677 20 0) (at_hour 739678 23 0) []
           [(at_hour 739678 9 0, at_hour 739678 18 0)]).
  - vm_compute. reflexivity.
  - left; reflexivity.
Defined.

(** X3.  Every returned slot is not empty and lasts at least
    [min_duration_minutes] minutes. *)
Theorem free_slots_last_long_enough
    (min_duration_minutes working_hours_start working_hours_end : Z)
    (start_dt end_dt : datetime) (busy slots : list interval) (s : interval) :
  free_slots_of min_duration_minutes working_hours_start working_hours_end
    start_dt end_dt busy = Ok slots ->
  In s slots ->
  0 < duration s /\ min_duration_minutes * MICROS_PER_MINUTE <= duration s.
Proof.
  intros H Hs.
  destruct (free_slots_turn _ _ _ _ _ _ _ _ H Hs) as (gap_end & cursor & _ & _ & Hin & _).
  apply yield_of_spec in Hin. destruct Hin as (_ & _ & C & _ & _ & _ & D).
  unfold duration in *. lia.
Qed.

Lemma free_slots_last_long_enough_witness :
  0 < duration (at_hour 739677 12 0, at_hour 739677 13 0)
  /\ 45 * MICROS_PER_MINUTE <= duration (at_hour 739677 12 0, at_hour 739677 13 0).
Proof.
  apply (free_slots_last_long_enough 45 9 18 (at_hour 739677 9 0) (at_hour 739677 13 0)
           [(at_time 739677 9 30 0, at_hour 739677 12 0)]
           [(at_hour 739677 12 0, at_hour 739677 13 0)]).
  - vm_compute. reflexivity.
  - left; reflexivity.
Defined.

(** ** Queries that return no slot *)

(** X4.  A range that is empty or inverted, [end_dt <= start_dt], returns
    no slot and raises nothing, whatever the busy list and the working
    hours (the instants being offset-aware). *)
Theorem empty_range_no_slots
    (min_duration_minutes working_hours_start working_hours_end : Z)
    (start_dt end_dt : datetime) (busy : list interval) :
  aware start_dt -> aware end_dt ->
  Forall aware_interval busy ->
  utc end_dt <= utc start_dt ->
  free_slots_of min_duration_minutes working_hours_start working_hours_end
    start_dt end_dt busy = Ok [].
Proof.
  intros As Ae Haw Hle.
  rewrite free_slots_of_emitted by assumption.
  apply emitted_past_end; auto.
  apply (Permutation_Forall (pure_sort_perm busy) Haw).
Qed.

Lemma empty_range_no_slots_witness :
  free_slots_of 30 9 99 (at_hour 739677 18 0) (at_hour 739677 9 MICROS_PER_HOUR)
    [(at_hour 739677 10 0, at_hour 739677 11 0)] = Ok [].
Proof.
  apply (empty_range_no_slots 30 9 99 (at_hour 739677 18 0) (at_hour 739677 9 MICROS_PER_HOUR)).
  - discriminate.
  - discriminate.
  - repeat constructor; discriminate.
  - vm_compute; discriminate.
Defined.

(** X5.  With working hours that leave no window,
    [working_hours_end <= working_hours_start], the computation returns no
    slot: whenever it returns, the list is empty, and on offset-aware input
    inside the calendar it does return. *)
Theorem empty_working_window_no_slots
    (min_duration_minutes working_hours_start working_hours_end : Z)
    (start_dt end_dt : datetime) (busy : list interval) :
  working_hours_end <= working_hours_start ->
  (forall slots,
      free_slots_of min_duration_minutes working_hours_start working_hours_end
        start_dt end_dt busy = Ok slots -> slots = [])
  /\ (0 <= working_hours_end -> working_hours_start <= 23 ->
      aware start_dt -> aware end_dt -> Forall aware_interval busy ->
      in_calendar end_dt start_dt ->
      Forall (fun b => in_calendar end_dt (snd b)) busy ->
      free_slots_of min_duration_minutes working_hours_start working_hours_end
        start_dt end_dt busy = Ok []).
Proof.
  intros Hw.
  assert (Hnone : forall slots,
             free_slots_of min_duration_minutes working_hours_start working_hours_end
               start_dt end_dt busy = Ok slots -> slots = []).
  { intros [|s r] H; [reflexivity|exfalso].
    destruct (free_slots_turn _ _ _ _ _ _ _ s H (or_introl eq_refl))
      as (gap_end & cursor & _ & _ & Hin & _).
    apply yield_of_spec in Hin. destruct Hin as (_ & _ & A & _ & B & C & _).
    rewrite utc_work_at in B, C. unfold MICROS_PER_HOUR in *. lia. }
  split; [exact Hnone|].
  intros H0 H23 As Ae Haw Hcal Hbusy.
  destruct (free_slots_of_total min_duration_minutes working_hours_start working_hours_end
              end_dt start_dt busy) as [l Hl]; auto;
    try (apply valid_hour_spec; lia).
  rewrite Hl. rewrite (Hnone l Hl). reflexivity.
Qed.

Lemma empty_working_window_no_slots_witness :
  (forall slots,
      free_slots_of 30 18 9 (at_hour 739677 0 0) (at_hour 739679 0 0) [] = Ok slots ->
      slots = [])
  /\ free_slots_of 30 18 9 (at_hour 739677 0 0) (at_hour 739679 0 0) [] = Ok [].
Proof.
  destruct (empty_working_window_no_slots 30 18 9
              (at_hour 739677 0 0) (at_hour 739679 0 0) []) as [A B].
  - lia.
  - split; [exact A|]. apply B.
    + lia.
    + lia.
    + discriminate.
    + discriminate.
    + constructor.
    + split; vm_compute; discriminate.
    + constructor.
Defined.

(** X6.  When one busy interval covers the whole range, starting no later
    than [start_dt] and ending no earlier than [end_dt], no slot is
    returned, whatever else the busy list holds: the result is the empty
    list, or an exception. *)
Theorem covered_range_no_slots
    (min_duration_minutes working_hours_start working_hours_end : Z)
    (start_dt end_dt : datetime) (busy : list interval) (b : interval) :
  In b busy ->
  utc (fst b) <= utc start_dt ->
  utc end_dt <= utc (snd b) ->
  free_slots_of min_duration_minutes working_hours_start working_hours_end
    start_dt end_dt busy = Ok []
  \/ exists e,
      free_slots_of min_duration_minutes working_hours_start working_hours_end
        start_dt end_dt busy = Raise e.
Proof.
  intros Hb Hlo Hhi.
  destruct (free_slots_of min_duration_minutes working_hours_start working_hours_end
              start_dt end_dt busy) as [slots|e] eqn:H; [|right; exists e; reflexivity].
  left. destruct slots as [|s r]; [reflexivity|exfalso].
  destruct (free_slots_turn _ _ _ _ _ _ _ s H (or_introl eq_refl))
    as (gap_end & cursor & A & B & Hin & _).
  apply yield_of_spec in Hin. destruct Hin as (_ & C & D & E & _).
  apply free_slots_of_ok in H.
  destruct H as (sorted & current & free_slots & Hsort & Hsweep & Htail).
  pose proof (sort_by_start_perm _ _ Hsort) as P.
  destruct (sort_by_start_sorted _ _ Hsort) as [lo Hsorted].
  destruct (sweep_exclusion _ _ _ _ sorted start_dt [] _ lo Hsorted Hsweep)
    as (Hle & Hpast & new & Hnew & Hx).
  simpl in Hle, Hpast, Hnew. subst free_slots.
  assert (Hb' : In b sorted) by (apply (Permutation_in _ P); exact Hb).
  assert (Hswept : In s new -> False).
  { intros Hs. destruct (Hx s Hs) as (_ & _ & Hd).
    apply (Hd b Hb'). unfold intersects. lia. }
  destruct Htail as [(L & tail & Hclip & Heq)|(L & Heq)].
  - specialize (Hpast L b Hb'). lia.
  - apply Hswept. rewrite <- Heq. left; reflexivity.
Qed.

Lemma covered_range_no_slots_witness :
  free_slots_of 30 9 18 (at_hour 739677 9 0) (at_hour 739677 18 0)
    [(at_hour 739677 12 0, at_hour 739677 13 0);
     (at_hour 739677 8 0, at_hour 739677 19 0)] = Ok []
  \/ exists e,
      free_slots_of 30 9 18 (at_hour 739677 9 0) (at_hour 739677 18 0)
        [(at_hour 739677 12 0, at_hour 739677 13 0);
         (at_hour 739677 8 0, at_hour 739677 19 0)] = Raise e.
Proof.
  apply (covered_range_no_slots 30 9 18 (at_hour 739677 9 0) (at_hour 739677 18 0)
           [(at_hour 739677 12 0, at_hour 739677 13 0);
            (at_hour 739677 8 0, at_hour 739677 19 0)]
           (at_hour 739677 8 0, at_hour 739677 19 0)).
  - right; left; reflexivity.
  - vm_compute; discriminate.
  - vm_compute; discriminate.
Defined.

(** ** What of the busy list matters *)

(** X7.  Busy intervals that do not meet the range, because they end no
    later than [start_dt] or start after [end_dt], have no effect: dropping
    them from the busy list gives the same result, the same slots or the
    same exception (offset-aware instants, busy intervals with
    [start <= end]). *)
Theorem busy_outside_range_ignored
    (min_duration_minutes working_hours_start working_hours_end : Z)
    (start_dt end_dt : datetime) (busy : list interval) :
  aware start_dt -> aware end_dt ->
  Forall aware_interval busy ->
  Forall well_formed busy ->
  free_slots_of min_duration_minutes working_hours_start working_hours_end
    start_dt end_dt busy
  = free_slots_of min_duration_minutes working_hours_start working_hours_end
      start_dt end_dt (filter (meets_range start_dt end_dt) busy).
Proof.
  intros As Ae Haw Hwf.
  rewrite !free_slots_of_emitted; auto using Forall_filter_keeps.
  rewrite (emitted_drop_before _ _ _ _ start_dt (pure_sort busy) start_dt (Z.le_refl _)).
  destruct (pure_sort_sorted busy) as [lo Hlo].
  rewrite (emitted_drop_after _ _ _ _ _ Ae) with (lo := lo); auto.
  - rewrite filter_both. rewrite pure_sort_filter. reflexivity.
  - apply Forall_filter_keeps. apply (Permutation_Forall (pure_sort_perm busy) Haw).
  - apply Forall_filter_keeps. apply (Permutation_Forall (pure_sort_perm busy) Hwf).
  - apply sorted_from_filter. exact Hlo.
Qed.

Lemma busy_outside_range_ignored_witness :
  free_slots_of 30 9 18 (at_hour 739677 9 0) (at_hour 739677 18 0)
    [(at_hour 739677 19 0, at_hour 739677 20 0);
     (at_hour 739677 12 0, at_hour 739677 13 0);
     (at_hour 739677 7 0, at_hour 739677 9 0)]
  = free_slots_of 30 9 18 (at_hour 739677 9 0) (at_hour 739677 18 0)
      (filter (meets_range (at_hour 739677 9 0) (at_hour 739677 18 0))
         [(at_hour 739677 19 0, at_hour 739677 20 0);
          (at_hour 739677 12 0, at_hour 739677 13 0);
          (at_hour 739677 7 0, at_hour 739677 9 0)]).
Proof.
  apply (busy_outside_range_ignored 30 9 18 (at_hour 739677 9 0) (at_hour 739677 18 0)).
  - discriminate.
  - discriminate.
  - repeat constructor; discriminate.
  - repeat constructor; vm_compute; discriminate.
Defined.

(** X8.  The order of the busy list does not matter: two lists that hold
    the same busy intervals in different orders give the same result
    (offset-aware instants, busy intervals with [start <= end], no instant
    written at two offsets). *)
Theorem busy_order_irrelevant
    (min_duration_minutes working_hours_start working_hours_end : Z)
    (start_dt end_dt : datetime) (busy busy' : list interval) :
  aware start_dt -> aware end_dt ->
  Forall aware_interval busy ->
  Forall well_formed busy ->
  coherent busy ->
  Permutation busy busy' ->
  free_slots_of min_duration_minutes working_hours_start working_hours_end
    start_dt end_dt busy
  = free_slots_of min_duration_minutes working_hours_start working_hours_end
      start_dt end_dt busy'.
Proof.
  intros As Ae Haw Hwf Hco P.
  set (C := fun d => In d (endpoints busy)).
  assert (C_inj : forall x y, C x -> C y -> utc x = utc y -> x = y) by exact Hco.
  assert (Hwr : Forall (fun x : interval => C (fst x) /\ C (snd x)) busy).
  { apply Forall_forall; intros x Hx; apply in_endpoints; exact Hx. }
  rewrite !free_slots_of_emitted; auto; [|apply (Permutation_Forall P Haw)].
  apply (emitted_tie _ _ _ _ C C_inj).
  - apply pure_sort_tie; exact P.
  - apply (Permutation_Forall (pure_sort_perm busy) Hwf).
  - apply (Permutation_Forall (pure_sort_perm busy) Hwr).
Qed.

Lemma busy_order_irrelevant_witness :
  free_slots_of 30 9 18 (at_hour 739677 9 0) (at_hour 739678 18 0)
    [(at_hour 739677 10 0, at_hour 739677 11 0);
     (at_hour 739678 10 0, at_hour 739678 12 0);
     (at_hour 739677 10 0, at_hour 739677 14 0)]
  = free_slots_of 30 9 18 (at_hour 739677 9 0) (at_hour 739678 18 0)
      [(at_hour 739678 10 0, at_hour 739678 12 0);
       (at_hour 739677 10 0, at_hour 739677 14 0);
       (at_hour 739677 10 0, at_hour 739677 11 0)].
Proof.
  apply (busy_order_irrelevant 30 9 18 (at_hour 739677 9 0) (at_hour 739678 18 0)).
  - discriminate.
  - discriminate.
  - repeat constructor; discriminate.
  - repeat constructor; vm_compute; discriminate.
  - apply (coherent_same_offset 0); repeat constructor.
  - exact (Permutation_cons_append _ _).
Defined.

(** ** Text, and what [_parse_iso8601] does to it *)

Section TextFacts.

Local Open Scope string_scope.

Lemma lstrip_all_space (s : string) : all_space s = true -> lstrip s = EmptyString.
Proof.
  induction s as [|c r IH]; [reflexivity|]. simpl.
  destruct (is_space c); [exact IH|discriminate].
Qed.

Lemma rstrip_all_space (s : string) : all_space s = true -> rstrip s = EmptyString.
Proof.
  induction s as [|c r IH]; [reflexivity|]. simpl.
  destruct (is_space c); [|discriminate]. intros H. rewrite (IH H). reflexivity.
Qed.

Lemma lstrip_spaces (pre s : string) :
  all_space pre = true -> lstrip (pre ++ s) = lstrip s.
Proof.
  induction pre as [|c r IH]; [reflexivity|]. simpl.
  destruct (is_space c); [exact IH|discriminate].
Qed.

Lemma rstrip_spaces (s post : string) :
  all_space post = true -> rstrip (s ++ post) = rstrip s.
Proof.
  intros H. induction s as [|c r IH]; [apply rstrip_all_space; exact H|].
  simpl. rewrite IH. reflexivity.
Qed.

Lemma strip_spaces (pre s post : string) :
  all_space pre = true -> all_space post = true ->
  strip (pre ++ s ++ post) = strip s.
Proof.
  intros Hpre Hpost. unfold strip. rewrite (lstrip_spaces _ _ Hpre).
  induction s as [|c r IH].
  - simpl. rewrite (lstrip_all_space _ Hpost). reflexivity.
  - simpl. destruct (is_space c); [exact IH|].
    change (String c (r ++ post)) with (String c r ++ post).
    apply rstrip_spaces. exact Hpost.
Qed.

(** A text that starts with no white space is kept by [lstrip], one that
    ends with none by [rstrip]. *)
Lemma lstrip_keeps (s t : string) :
  lstrip t = t -> lstrip (s ++ t) = lstrip s ++ t.
Proof.
  intros H. induction s as [|c r IH]; [exact H|]. simpl.
  destruct (is_space c); [exact IH|reflexivity].
Qed.

Lemma rstrip_keeps (s t : string) :
  rstrip t = t -> t <> EmptyString -> rstrip (s ++ t) = s ++ t.
Proof.
  intros H Hne. induction s as [|c r IH]; [exact H|]. simpl. rewrite IH.
  destruct (r ++ t) eqn:E; [|reflexivity].
  destruct r; simpl in E; [contradiction|discriminate].
Qed.

Lemma chop_Z_app_Z (s : string) : chop_Z (s ++ "Z") = Some s.
Proof.
  induction s as [|c r IH]; [reflexivity|].
  change (String c r ++ "Z") with (String c (r ++ "Z")).
  cbn [chop_Z]. rewrite IH. destruct r; reflexivity.
Qed.

Lemma chop_Z_app_none (s t : string) :
  chop_Z t = None -> t <> EmptyString -> chop_Z (s ++ t) = None.
Proof.
  intros H Hne. induction s as [|c r IH]; [exact H|].
  change (String c r ++ t) with (String c (r ++ t)).
  cbn [chop_Z]. rewrite IH.
  destruct (r ++ t) eqn:E; [|reflexivity].
  destruct r; simpl in E; [contradiction|discriminate].
Qed.

End TextFacts.

(** ** Replies *)

Lemma http_reply_is_error (exn_text : exn -> string) (e : exn) :
  is_error_reply (http_reply exn_text e) = true.
Proof.
  destruct e; try reflexivity. unfold http_reply.
  destruct (_ && _); [reflexivity|]. destruct (500 <=? status); reflexivity.
Qed.

Lemma http_reply_404_is_error (exn_text : exn -> string) (event_id : string) (e : exn) :
  is_error_reply (http_reply_404 exn_text event_id e) = true.
Proof.
  destruct e; try reflexivity. unfold http_reply_404.
  destruct (status =? 404); [reflexivity|]. apply http_reply_is_error.
Qed.

(** The instant of [_get_tz_aware_now] is the instant of the clock. *)
Lemma utc_now (w : world) : utc (_get_tz_aware_now w) = now_utc w.
Proof. unfold utc, utcoffset, _get_tz_aware_now. simpl. lia. Qed.

Lemma add_minutes_ok (d : datetime) (n : Z) (r : datetime) :
  add_minutes d n = Ok r ->
  tzinfo r = tzinfo d /\ wall r = wall d + n * MICROS_PER_MINUTE.
Proof.
  unfold add_minutes. destruct (_ && _); [|discriminate].
  intros H; injection H as <-. split; reflexivity.
Qed.

(** ** The patch of [update_event] *)

Section PatchFacts.

Variable fromisoformat : string -> option datetime.
Variable isoformat : datetime -> string.
Variable float_minutes : Z -> Z.

Notation _parse_iso8601 := (_parse_iso8601 fromisoformat).
Notation build_patch := (build_patch fromisoformat isoformat float_minutes).

Lemma build_patch_ok (existing : event) (title start_time : option string)
    (duration_minutes : option Z) (description location : option string)
    (patch : patch_body) :
  build_patch existing title start_time duration_minutes description location = Ok patch ->
  patch_summary patch = title
  /\ patch_description patch = description
  /\ patch_location patch = location
  /\ match start_time, duration_minutes with
     | Some s, Some d =>
         exists start_dt end_dt,
           _parse_iso8601 s = Ok start_dt
           /\ add_minutes start_dt d = Ok end_dt
           /\ patch_start patch = Some (isoformat start_dt, "UTC"%string)
           /\ patch_end patch = Some (isoformat end_dt, "UTC"%string)
     | Some s, None =>
         exists start_dt,
           _parse_iso8601 s = Ok start_dt
           /\ patch_start patch = Some (isoformat start_dt, "UTC"%string)
           /\ ((truthy (start_raw existing) && truthy (end_raw existing) = false
                /\ patch_end patch = None)
               \/ exists old_start old_end s e td end_dt,
                   start_raw existing = Some old_start
                   /\ end_raw existing = Some old_end
                   /\ _parse_iso8601 old_start = Ok s
                   /\ _parse_iso8601 old_end = Ok e
                   /\ dt_sub e s = Ok td
                   /\ add_timedelta start_dt (float_minutes td) = Ok end_dt
                   /\ patch_end patch = Some (isoformat end_dt, "UTC"%string))
     | None, Some d =>
         patch_start patch = None
         /\ ((truthy (start_raw existing) = false /\ patch_end patch = None)
             \/ exists old_start start_dt end_dt,
                 start_raw existing = Some old_start
                 /\ _parse_iso8601 old_start = Ok start_dt
                 /\ add_minutes start_dt d = Ok end_dt
                 /\ patch_end patch = Some (isoformat end_dt, "UTC"%string))
     | None, None => patch_start patch = None /\ patch_end patch = None
     end.
Proof.
  unfold build_patch. intros H. bind_inv H as times E. injection H as <-.
  cbn [patch_summary patch_description patch_location patch_start patch_end].
  repeat (split; [reflexivity|]).
  fold (start_raw existing) in E. fold (end_raw existing) in E.
  destruct start_time as [s|], duration_minutes as [d|].
  - bind_inv E as start_dt E1. bind_inv E as end_dt E2. injection E as <-.
    exists start_dt, end_dt. auto.
  - bind_inv E as start_dt E1. exists start_dt. split; [exact E1|].
    destruct (start_raw existing) as [[|c1 r1]|] eqn:S;
      try (injection E as <-; split; [reflexivity|left; split; reflexivity]).
    destruct (end_raw existing) as [[|c2 r2]|] eqn:N;
      try (injection E as <-; split; [reflexivity|left; split; reflexivity]).
    bind_inv E as s1 E2. bind_inv E as e E3. bind_inv E as td E4.
    bind_inv E as end_dt E5. injection E as <-.
    split; [reflexivity|]. right.
    exists (String c1 r1), (String c2 r2), s1, e, td, end_dt. auto 10.
  - destruct (start_raw existing) as [[|c1 r1]|] eqn:S;
      try (injection E as <-; split; [reflexivity|left; split; reflexivity]).
    bind_inv E as start_dt E1. bind_inv E as end_dt E2. injection E as <-.
    split; [reflexivity|]. right. exists (String c1 r1), start_dt, end_dt. auto.
  - injection E as <-. split; reflexivity.
Qed.

End PatchFacts.

(** A patch request is sent only for a patch that was built from the event
    as fetched and that holds some key. *)
Lemma update_event_sent
    (fromisoformat : string -> option datetime) (isoformat : datetime -> string)
    (exn_text : exn -> string) (float_minutes : Z -> Z) (w : world) (p : provider)
    (event_id : string) (title start_time : option string)
    (duration_minutes : option Z) (description location : option string)
    (calendar_id : string) (calendar event : string) (patch : patch_body) :
  In (calendar, event, patch)
     (snd (update_event fromisoformat isoformat exn_text float_minutes w p event_id
             title start_time duration_minutes description location calendar_id)) ->
  calendar = calendar_id /\ event = event_id
  /\ snd (update_event fromisoformat isoformat exn_text float_minutes w p event_id
            title start_time duration_minutes description location calendar_id)
     = [(calendar_id, event_id, patch)]
  /\ patch_is_empty patch = false
  /\ exists existing,
      _get_service w = Ok tt
      /\ events_get p calendar_id event_id = Ok existing
      /\ build_patch fromisoformat isoformat float_minutes existing title start_time
           duration_minutes description location = Ok patch.
Proof.
  unfold update_event.
  destruct (_ <- _get_service w ;; events_get p calendar_id event_id)
    as [existing|e] eqn:G; [|destruct e; intros []].
  destruct (build_patch _ _ _ existing title start_time duration_minutes description location)
    as [built|e] eqn:B; [|intros []].
  destruct (patch_is_empty built) eqn:Em; [intros []|].
  intros Hin.
  assert (Heq : (calendar, event, patch) = (calendar_id, event_id, built)).
  { destruct (events_patch p calendar_id event_id built); destruct Hin as [H|[]]; auto. }
  injection Heq as -> -> ->. clear Hin.
  bind_inv G as u Hs. destruct u.
  repeat split; auto.
  - destruct (events_patch p calendar_id event_id built); reflexivity.
  - exists existing. auto.
Qed.

(** ** The events at an instant *)

Lemma parse_raises (fromisoformat : string -> option datetime) (s : string) (e : exn) :
  _parse_iso8601 fromisoformat s = Raise e -> e = ValueError.
Proof.
  unfold _parse_iso8601. destruct (fromisoformat _); [discriminate|].
  intros H; injection H as <-; reflexivity.
Qed.

Lemma localized_aware (dt d : datetime) :
  aware dt ->
  aware (match tzinfo d with Some _ => d | None => replace_tzinfo d (tzinfo dt) end).
Proof.
  intros A. unfold aware in *.
  destruct (tzinfo d) eqn:T; simpl; [rewrite T; discriminate|exact A].
Qed.

Section EventFacts.

Variable fromisoformat : string -> option datetime.

Notation _parse_iso8601 := (_parse_iso8601 fromisoformat).
Notation event_time := (event_time fromisoformat).
Notation readable := (readable fromisoformat).
Notation happening_at := (happening_at fromisoformat).

(** One turn of the loop of [overlapping_events]. *)
Lemma overlapping_events_cons (dt : datetime) (ev : event) (rest : list event) :
  aware dt ->
  overlapping_events fromisoformat dt (ev :: rest)
  = if readable dt ev
    then overlapping <- overlapping_events fromisoformat dt rest ;;
         Ok (if happening_at dt ev then ev :: overlapping else overlapping)
    else Raise ValueError.
Proof.
  intros A. cbn [overlapping_events].
  fold (start_raw ev). fold (end_raw ev).
  unfold readable, happening_at, event_time.
  destruct (start_raw ev) as [[|c1 r1]|]; cbn [truthy andb negb orb];
    try (destruct (overlapping_events fromisoformat dt rest); reflexivity).
  destruct (end_raw ev) as [[|c2 r2]|]; cbn [truthy andb negb orb].
  - destruct (_parse_iso8601 (String c1 r1));
      destruct (overlapping_events fromisoformat dt rest); reflexivity.
  - destruct (_parse_iso8601 (String c1 r1)) as [a|e1] eqn:P1; cbn [bind].
    + destruct (_parse_iso8601 (String c2 r2)) as [b|e2] eqn:P2; cbn [bind].
      * rewrite (dt_le_aware _ dt (localized_aware dt a A) A). cbn [bind].
        fold (replace_tzinfo a (tzinfo dt)). fold (replace_tzinfo b (tzinfo dt)).
        destruct (utc _ <=? utc dt); cbn [andb].
        -- rewrite (dt_le_aware dt _ A (localized_aware dt b A)). reflexivity.
        -- reflexivity.
      * rewrite (parse_raises _ _ _ P2). reflexivity.
    + rewrite (parse_raises _ _ _ P1). reflexivity.
  - destruct (_parse_iso8601 (String c1 r1));
      destruct (overlapping_events fromisoformat dt rest); reflexivity.
Qed.

(** The loop is a filter, or a [ValueError]. *)
Lemma overlapping_events_filter (dt : datetime) (events : list event) :
  aware dt ->
  overlapping_events fromisoformat dt events
  = if forallb (readable dt) events
    then Ok (filter (happening_at dt) events)
    else Raise ValueError.
Proof.
  intros A. induction events as [|ev rest IH]; [reflexivity|].
  rewrite (overlapping_events_cons dt ev rest A). rewrite IH.
  cbn [forallb filter].
  destruct (readable dt ev); [|reflexivity].
  destruct (forallb (readable dt) rest); [|reflexivity].
  cbn [andb bind]. destruct (happening_at dt ev); reflexivity.
Qed.

End EventFacts.

Lemma add_timedelta_ok (d : datetime) (td : Z) (r : datetime) :
  add_timedelta d td = Ok r ->
  tzinfo r = tzinfo d /\ wall r = wall d + td
  /\ MICROS_PER_DAY <= wall d + td < (MAXORDINAL + 1) * MICROS_PER_DAY.
Proof.
  unfold add_timedelta.
  destruct (MICROS_PER_DAY <=? wall d + td) eqn:L1; [|discriminate].
  destruct (wall d + td <? (MAXORDINAL + 1) * MICROS_PER_DAY) eqn:L2; [|discriminate].
  intros H; injection H as <-.
  apply Z.leb_le in L1. apply Z.ltb_lt in L2. repeat split; assumption.
Qed.

(** The instant asked about is the parsed text, read at the offset of the
    machine when it has none, and the window runs from one day before it
    to one day after it. *)
Lemma window_of_ok (fromisoformat : string -> option datetime) (w : world)
    (datetime_str : string) (dt window_start window_end : datetime) :
  window_of fromisoformat w datetime_str = Ok (dt, window_start, window_end) ->
  _get_service w = Ok tt
  /\ aware dt
  /\ (exists parsed,
        _parse_iso8601 fromisoformat datetime_str = Ok parsed
        /\ wall dt = wall parsed /\ utc dt = instant_of w parsed)
  /\ tzinfo window_start = tzinfo dt /\ wall window_start = wall dt - MICROS_PER_DAY
  /\ tzinfo window_end = tzinfo dt /\ wall window_end = wall dt + MICROS_PER_DAY.
Proof.
  unfold window_of. intros H.
  bind_inv H as u Hs. destruct u. bind_inv H as parsed Hp.
  bind_inv H as ws H1. bind_inv H as we H2. injection H as <- <- <-.
  apply add_timedelta_ok in H1, H2.
  destruct H1 as (T1 & W1 & _). destruct H2 as (T2 & W2 & _).
  split; [exact Hs|]. split.
  { unfold aware. destruct (tzinfo parsed) eqn:T; simpl; [rewrite T|]; discriminate. }
  split.
  { exists parsed. split; [exact Hp|].
    unfold instant_of, utc, utcoffset.
    destruct (tzinfo parsed) eqn:T; simpl; rewrite ?T; split; lia. }
  repeat split; auto; lia.
Qed.

(** ** auth.py *)

(** The credentials returned come from token.json as it was, or are in
    token.json as it is left. *)
Lemma get_credentials_token (g : auth.google) (fs : auth.files) (creds : auth.Credentials) :
  auth.returned (auth.get_credentials g fs) = Ok creds ->
  (auth.disk (auth.get_credentials g fs) = fs
   /\ exists text, auth._TOKEN_FILE fs = Some text
                   /\ auth.from_authorized_user_file g text = Ok creds)
  \/ auth._TOKEN_FILE (auth.disk (auth.get_credentials g fs)) = Some (auth.to_json creds).
Proof.
  auth_cases; try discriminate; intros H; injection H as <-;
    try (right; reflexivity).
  left. split; [reflexivity|]. eauto.
Qed.

(** A writing that fails can cost the token: with an expired token that is
    refreshed and a disk that is full, [get_credentials] raises the error
    of the writing and leaves token.json empty. *)
Lemma get_credentials_can_empty_token :
  auth.get_credentials example_google files_on_full_disk
  = {| auth.returned := Raise OtherException;
       auth.disk := auth.with_token files_on_full_disk EmptyString;
       auth.calls := [auth.Refresh expired_credentials] |}.
Proof. reflexivity. Qed.

(** ** The summary line of an event *)

Section SummaryFacts.

Local Open Scope string_scope.

(** A text without bar is read back from what follows it up to " |". *)
Lemma before_bar (i1 : string) :
  forall i2 r1 r2,
    no_bar i1 = true -> no_bar i2 = true ->
    i1 ++ String " " (String "|" r1) = i2 ++ String " " (String "|" r2) ->
    i1 = i2.
Proof.
  induction i1 as [|c t IH]; intros [|c2 t2] r1 r2 N1 N2 H; simpl in *.
  - reflexivity.
  - exfalso. injection H as Hc Ht. destruct t2 as [|c3 t3]; simpl in Ht.
    + discriminate Ht.
    + injection Ht as <- _. simpl in N2. rewrite andb_false_r in N2. discriminate.
  - exfalso. injection H as Hc Ht. destruct t as [|c3 t3]; simpl in Ht.
    + discriminate Ht.
    + injection Ht as -> _. simpl in N1. rewrite andb_false_r in N1. discriminate.
  - injection H as -> Ht.
    apply andb_true_iff in N1, N2. destruct N1 as [_ N1]. destruct N2 as [_ N2].
    rewrite (IH t2 r1 r2 N1 N2 Ht). reflexivity.
Qed.

(** A listing under a header keeps the first character of the header. *)
Lemma render_events_head (c : ascii) (events : list event) :
  forall header, exists text, render_events (String c header) events = String c text.
Proof.
  unfold render_events.
  induction events as [|ev rest IH]; intros header; simpl; eauto.
Qed.

End SummaryFacts.

(** ** Timestamps *)

(** X9.  [_parse_iso8601] reads a final [Z] as the offset [+00:00]: a text
    that ends in [Z] gives what the same text gives with [+00:00] in its
    place, the same value or the same [ValueError], whatever
    [fromisoformat] accepts. *)
Theorem parse_Z_suffix_as_utc (fromisoformat : string -> option datetime) (s : string) :
  _parse_iso8601 fromisoformat (s ++ "Z") = _parse_iso8601 fromisoformat (s ++ "+00:00").
Proof.
  unfold _parse_iso8601, strip.
  rewrite !lstrip_keeps by reflexivity.
  rewrite !rstrip_keeps by (reflexivity || discriminate).
  rewrite chop_Z_app_Z.
  rewrite chop_Z_app_none by (reflexivity || discriminate).
  reflexivity.
Qed.

(** X10.  [_parse_iso8601] ignores white space around a timestamp: the
    text with blanks, tabs or line ends before and after it parses to what
    the text alone parses to. *)
Theorem parse_ignores_surrounding_space
    (fromisoformat : string -> option datetime) (pre s post : string) :
  all_space pre = true ->
  all_space post = true ->
  _parse_iso8601 fromisoformat (pre ++ s ++ post) = _parse_iso8601 fromisoformat s.
Proof.
  intros Hpre Hpost. unfold _parse_iso8601.
  rewrite (strip_spaces _ _ _ Hpre Hpost). reflexivity.
Qed.

Lemma parse_ignores_surrounding_space_witness :
  _parse_iso8601 Iso.fromisoformat ("  " ++ "2026-03-02T09:00:00Z" ++ newline)
  = _parse_iso8601 Iso.fromisoformat "2026-03-02T09:00:00Z".
Proof.
  apply (parse_ignores_surrounding_space Iso.fromisoformat "  " "2026-03-02T09:00:00Z" newline).
  - reflexivity.
  - reflexivity.
Defined.

(** ** [create_event] *)

(** X11.  [create_event] sends at most one insert request, and its reply
    tells what became of it: the reply is "Created event: " with the
    summary of the event that the provider returned exactly when one
    request was sent and accepted; in every other case the reply is an
    error message and either nothing was sent or the one request sent was
    refused. *)
Theorem create_event_reply_tells
    (fromisoformat : string -> option datetime) (isoformat : datetime -> string)
    (exn_text : exn -> string) (w : world)
    (title start_time : string) (duration_minutes : Z)
    (description location calendar_id : string) :
  (exists body ev,
      create_event fromisoformat isoformat exn_text w title start_time duration_minutes
        description location calendar_id
      = (("Created event: " ++ _format_event_summary ev)%string, [(calendar_id, body)])
      /\ events_insert w calendar_id body = Ok ev
      /\ is_error_reply ("Created event: " ++ _format_event_summary ev) = false)
  \/ (exists reply,
         is_error_reply reply = true
         /\ (create_event fromisoformat isoformat exn_text w title start_time
               duration_minutes description location calendar_id = (reply, [])
             \/ exists body e,
                 create_event fromisoformat isoformat exn_text w title start_time
                   duration_minutes description location calendar_id
                 = (reply, [(calendar_id, body)])
                 /\ events_insert w calendar_id body = Raise e)).
Proof.
  unfold create_event.
  match goal with
  | |- context [match ?p with Ok _ => _ | Raise _ => _ end] =>
      destruct p as [[body|]|e]
  end.
  - destruct (events_insert w calendar_id body) as [ev|e] eqn:E.
    + left. exists body, ev. auto.
    + right. eexists. split; [|right; exists body, e; split; [reflexivity|exact E]].
      destruct e; try reflexivity. apply http_reply_is_error.
  - right. eexists. split; [|left; reflexivity]. reflexivity.
  - right. eexists. split; [|left; reflexivity].
    destruct e; try reflexivity. apply http_reply_is_error.
Qed.

(** X12.  Every insert request that [create_event] sends is for the
    calendar and the title given, starts at the parsed [start_time], read
    at the offset of the machine when it has none, carries an offset, does
    not start before now, and ends exactly [duration_minutes] minutes after
    it starts, at the same offset. *)
Theorem create_event_request_invariants
    (fromisoformat : string -> option datetime) (isoformat : datetime -> string)
    (exn_text : exn -> string) (w : world)
    (title start_time : string) (duration_minutes : Z)
    (description location calendar_id : string)
    (calendar : string) (body : event_body) :
  In (calendar, body)
     (snd (create_event fromisoformat isoformat exn_text w title start_time
             duration_minutes description location calendar_id)) ->
  calendar = calendar_id
  /\ body_summary body = title
  /\ exists parsed start_dt end_dt,
      _parse_iso8601 fromisoformat start_time = Ok parsed
      /\ wall start_dt = wall parsed
      /\ utc start_dt = instant_of w parsed
      /\ aware start_dt
      /\ now_utc w <= utc start_dt
      /\ tzinfo end_dt = tzinfo start_dt
      /\ wall end_dt = wall start_dt + duration_minutes * MICROS_PER_MINUTE
      /\ body_start body = (isoformat start_dt, "UTC"%string)
      /\ body_end body = (isoformat end_dt, "UTC"%string).
Proof.
  unfold create_event.
  match goal with
  | |- context [match ?p with Ok _ => _ | Raise _ => _ end] =>
      destruct p as [[sent|]|e] eqn:P
  end; [|intros []|intros []].
  intros Hin.
  assert (Heq : (calendar, body) = (calendar_id, sent)).
  { destruct (events_insert w calendar_id sent); destruct Hin as [H|[]]; auto. }
  injection Heq as -> ->. clear Hin.
  bind_inv P as u Eservice. bind_inv P as parsed Eparse.
  bind_inv P as past Epast.
  destruct past; [discriminate|].
  bind_inv P as end_dt Eend. injection P as <-.
  apply dt_lt_ok in Epast. destruct Epast as [Hcmp Hpast].
  symmetry in Hpast. apply Z.ltb_ge in Hpast. rewrite utc_now in Hpast.
  apply add_minutes_ok in Eend. destruct Eend as [Htz Hwall].
  split; [reflexivity|]. split; [reflexivity|].
  exists parsed.
  exists (match tzinfo parsed with
          | Some _ => parsed
          | None => replace_tzinfo parsed (tzinfo (_get_tz_aware_now w))
          end), end_dt.
  repeat split; auto.
  - destruct (tzinfo parsed); reflexivity.
  - unfold instant_of, utc, utcoffset. destruct (tzinfo parsed) eqn:T; simpl; rewrite ?T; lia.
  - unfold aware. destruct (tzinfo parsed) eqn:T; simpl; rewrite ?T; discriminate.
Qed.

Lemma create_event_request_invariants_witness :
  "primary"%string = "primary"%string
  /\ body_summary {| body_summary := "Review";
                     body_start := ("2026-03-03T09:00:00+08:00", "UTC");
                     body_end := ("2026-03-03T09:45:00+08:00", "UTC");
                     body_description := None;
                     body_location := Some "Room 2" |}%string = "Review"%string
  /\ exists parsed start_dt end_dt,
      _parse_iso8601 Iso.fromisoformat "2026-03-03T09:00:00" = Ok parsed
      /\ wall start_dt = wall parsed
      /\ utc start_dt = instant_of example_world parsed
      /\ aware start_dt
      /\ now_utc example_world <= utc start_dt
      /\ tzinfo end_dt = tzinfo start_dt
      /\ wall end_dt = wall start_dt + 45 * MICROS_PER_MINUTE
      /\ body_start {| body_summary := "Review";
                       body_start := ("2026-03-03T09:00:00+08:00", "UTC");
                       body_end := ("2026-03-03T09:45:00+08:00", "UTC");
                       body_description := None;
                       body_location := Some "Room 2" |}%string
         = (Iso.isoformat start_dt, "UTC"%string)
      /\ body_end {| body_summary := "Review";
                     body_start := ("2026-03-03T09:00:00+08:00", "UTC");
                     body_end := ("2026-03-03T09:45:00+08:00", "UTC");
                     body_description := None;
                     body_location := Some "Room 2" |}%string
         = (Iso.isoformat end_dt, "UTC"%string).
Proof.
  apply (create_event_request_invariants Iso.fromisoformat Iso.isoformat Iso.exn_text
           example_world "Review" "2026-03-03T09:00:00" 45 EmptyString "Room 2" "primary").
  vm_compute. left. reflexivity.
Defined.

(** ** Errors *)



(** X14.  The six messages of errors.py can be told apart: whatever the
    event id, the start time and the exception text put into them, no two
    of them are the same text, and each starts with "Error:". *)
Theorem error_messages_distinct (event_id start_time message : string) :
  NoDup [errors.AUTH_EXPIRED; errors.QUOTA_EXCEEDED; errors.NETWORK_FAILURE;
         errors.event_not_found event_id; errors.event_in_past start_time;
         errors.unexpected_failure message]
  /\ Forall (fun reply => is_error_reply reply = true)
       [errors.AUTH_EXPIRED; errors.QUOTA_EXCEEDED; errors.NETWORK_FAILURE;
        errors.event_not_found event_id; errors.event_in_past start_time;
        errors.unexpected_failure message].
Proof.
  split.
  - repeat constructor; simpl; intuition discriminate.
  - repeat constructor.
Qed.

(** X15.  The [except HttpError] clauses shared by the tools answer
    [errors.NETWORK_FAILURE] for exactly the HTTP errors of status 500 or
    more, and [errors.QUOTA_EXCEEDED] for exactly those of status 403 whose
    text holds "quota" in any letter case. *)
Theorem http_reply_classifies (exn_text : exn -> string) (e : exn) :
  (http_reply exn_text e = errors.NETWORK_FAILURE
   <-> exists status reason, e = HttpError status reason /\ 500 <= status)
  /\ (http_reply exn_text e = errors.QUOTA_EXCEEDED
      <-> exists reason, e = HttpError 403 reason
                         /\ contains "quota" (lower (exn_text e)) = true).
Proof.
  split; split.
  - destruct e; try discriminate. unfold http_reply.
    destruct (_ && _); [discriminate|].
    destruct (500 <=? status) eqn:L; [|discriminate].
    intros _. exists status, reason. split; [reflexivity|apply Z.leb_le; exact L].
  - intros (status & reason & -> & L). unfold http_reply.
    replace (status =? 403) with false by (symmetry; apply Z.eqb_neq; lia).
    apply Z.leb_le in L. rewrite L. reflexivity.
  - destruct e; try discriminate. unfold http_reply.
    destruct (status =? 403) eqn:S; simpl.
    + apply Z.eqb_eq in S. subst status.
      destruct (contains _ _) eqn:Q; [|discriminate].
      intros _. exists reason. split; reflexivity.
    + destruct (500 <=? status); discriminate.
  - intros (reason & -> & Q). unfold http_reply. rewrite Q. reflexivity.
Qed.

(** ** [update_event] *)

(** X16.  [update_event] sends no patch when it is given nothing to
    change: with no title, start time, description or location, and with no
    duration or with a duration for an event that has no start, the reply
    is "No changes provided" with the summary of the event as it is, and no
    patch request is sent. *)
Theorem update_event_without_changes
    (fromisoformat : string -> option datetime) (isoformat : datetime -> string)
    (exn_text : exn -> string) (float_minutes : Z -> Z) (w : world) (p : provider)
    (event_id calendar_id : string) (duration_minutes : option Z) (existing : event) :
  _get_service w = Ok tt ->
  events_get p calendar_id event_id = Ok existing ->
  duration_minutes = None \/ truthy (start_raw existing) = false ->
  update_event fromisoformat isoformat exn_text float_minutes w p event_id
    None None duration_minutes None None calendar_id
  = (Ok ("No changes provided. Event: " ++ _format_event_summary existing)%string, []).
Proof.
  intros Hs Hg Hd. unfold update_event. rewrite Hs. cbn [bind]. rewrite Hg.
  unfold build_patch.
  destruct Hd as [->|Hd]; [reflexivity|].
  destruct duration_minutes as [d|]; [|reflexivity].
  unfold start_raw in Hd.
  destruct (py_or (fst (event_start existing)) (snd (event_start existing)))
    as [[|c r]|]; try discriminate; reflexivity.
Qed.

Lemma update_event_without_changes_witness :
  update_event Iso.fromisoformat Iso.isoformat Iso.exn_text exact_minutes
    example_world
    {| events_get := fun _ _ => Ok example_undated;
       events_patch := events_patch example_provider;
       events_list := events_list example_provider |}
    "ev789" None None (Some 30) None None "primary"
  = (Ok ("No changes provided. Event: " ++ _format_event_summary example_undated)%string,
     []).
Proof.
  apply (update_event_without_changes Iso.fromisoformat Iso.isoformat Iso.exn_text
           exact_minutes example_world).
  - reflexivity.
  - reflexivity.
  - right. reflexivity.
Defined.

(** X17.  Only provided fields are changed: every patch request that
    [update_event] sends is for the calendar and the event given, holds
    some key, and its keys for title, description and location are exactly
    the ones provided; it holds a start exactly when a start time is
    provided, and no end when neither a start time nor a duration is. *)
Theorem update_event_only_provided_fields
    (fromisoformat : string -> option datetime) (isoformat : datetime -> string)
    (exn_text : exn -> string) (float_minutes : Z -> Z) (w : world) (p : provider)
    (event_id : string) (title start_time : option string)
    (duration_minutes : option Z) (description location : option string)
    (calendar_id : string) (calendar event : string) (patch : patch_body) :
  In (calendar, event, patch)
     (snd (update_event fromisoformat isoformat exn_text float_minutes w p event_id
             title start_time duration_minutes description location calendar_id)) ->
  calendar = calendar_id /\ event = event_id
  /\ patch_is_empty patch = false
  /\ patch_summary patch = title
  /\ patch_description patch = description
  /\ patch_location patch = location
  /\ (patch_start patch = None <-> start_time = None)
  /\ (start_time = None -> duration_minutes = None -> patch_end patch = None).
Proof.
  intros Hin. apply update_event_sent in Hin.
  destruct Hin as (-> & -> & _ & Hne & existing & _ & _ & B).
  apply build_patch_ok in B. destruct B as (B1 & B2 & B3 & B4).
  repeat (split; [auto; fail|]).
  destruct start_time as [s|], duration_minutes as [d|].
  - destruct B4 as (start_dt & end_dt & _ & _ & -> & _).
    split; [split; discriminate|discriminate].
  - destruct B4 as (start_dt & _ & -> & _).
    split; [split; discriminate|discriminate].
  - destruct B4 as (-> & _). split; [split; reflexivity|discriminate].
  - destruct B4 as (-> & ->). split; [split; reflexivity|reflexivity].
Qed.

Lemma update_event_only_provided_fields_witness :
  "primary"%string = "primary"%string /\ "ev123"%string = "ev123"%string
  /\ patch_is_empty {| patch_summary := None; patch_description := None;
                       patch_location := Some "Room 2"%string;
                       patch_start := None; patch_end := None |} = false
  /\ patch_summary {| patch_summary := None; patch_description := None;
                      patch_location := Some "Room 2"%string;
                      patch_start := None; patch_end := None |} = None
  /\ patch_description {| patch_summary := None; patch_description := None;
                          patch_location := Some "Room 2"%string;
                          patch_start := None; patch_end := None |} = None
  /\ patch_location {| patch_summary := None; patch_description := None;
                       patch_location := Some "Room 2"%string;
                       patch_start := None; patch_end := None |} = Some "Room 2"%string
  /\ (patch_start {| patch_summary := None; patch_description := None;
                     patch_location := Some "Room 2"%string;
                     patch_start := None; patch_end := None |} = None
      <-> @None string = None)
  /\ (@None string = None -> @None Z = None ->
      patch_end {| patch_summary := None; patch_description := None;
                   patch_location := Some "Room 2"%string;
                   patch_start := None; patch_end := None |} = None).
Proof.
  apply (update_event_only_provided_fields Iso.fromisoformat Iso.isoformat Iso.exn_text
           exact_minutes example_world example_provider
           "ev123" None None None None (Some "Room 2"%string) "primary").
  vm_compute. left. reflexivity.
Defined.

(** X18.  [update_event] sends at most one patch request, and what it
    returns tells what became of it: "Updated event: " with the summary of
    the event that the provider returned exactly when a patch was sent and
    accepted; when a patch was sent and refused, an error message; and when
    nothing was sent, an error message, "No changes provided" with the
    summary of the event as fetched, or an exception, which leaves
    [update_event] only before anything is sent. *)
Theorem update_event_reply_tells
    (fromisoformat : string -> option datetime) (isoformat : datetime -> string)
    (exn_text : exn -> string) (float_minutes : Z -> Z) (w : world) (p : provider)
    (event_id : string) (title start_time : option string)
    (duration_minutes : option Z) (description location : option string)
    (calendar_id : string) :
  (exists patch updated,
      update_event fromisoformat isoformat exn_text float_minutes w p event_id
        title start_time duration_minutes description location calendar_id
      = (Ok ("Updated event: " ++ _format_event_summary updated)%string,
         [(calendar_id, event_id, patch)])
      /\ events_patch p calendar_id event_id patch = Ok updated
      /\ is_error_reply ("Updated event: " ++ _format_event_summary updated) = false)
  \/ (exists patch e reply,
         update_event fromisoformat isoformat exn_text float_minutes w p event_id
           title start_time duration_minutes description location calendar_id
         = (Ok reply, [(calendar_id, event_id, patch)])
         /\ events_patch p calendar_id event_id patch = Raise e
         /\ is_error_reply reply = true)
  \/ (exists outcome,
         update_event fromisoformat isoformat exn_text float_minutes w p event_id
           title start_time duration_minutes description location calendar_id
         = (outcome, [])
         /\ match outcome with
            | Raise _ => True
            | Ok reply =>
                is_error_reply reply = true
                \/ exists existing,
                    events_get p calendar_id event_id = Ok existing
                    /\ reply = ("No changes provided. Event: "
                                ++ _format_event_summary existing)%string
            end).
Proof.
  unfold update_event.
  destruct (_ <- _get_service w ;; events_get p calendar_id event_id)
    as [existing|e] eqn:G.
  - bind_inv G as u Hs.
    destruct (build_patch _ _ _ existing title start_time duration_minutes
                description location) as [patch|e].
    + destruct (patch_is_empty patch).
      * right; right. eexists. split; [reflexivity|]. right. exists existing. auto.
      * destruct (events_patch p calendar_id event_id patch) as [updated|e] eqn:E.
        -- left. exists patch, updated. auto.
        -- right; left. exists patch, e. eexists. split; [reflexivity|].
           split; [exact E|]. apply http_reply_404_is_error.
    + right; right. eexists. split; [reflexivity|exact I].
  - right; right.
    destruct e; (eexists; split; [reflexivity|]; left;
                 try reflexivity; apply http_reply_404_is_error).
Qed.

(** X19.  A [start_time] that is no timestamp: [update_event], which has
    fetched the event by then, lets the [ValueError] of [_parse_iso8601]
    escape and sends no patch, whereas [create_event] answers the same text
    with the message of [errors.unexpected_failure] and sends no insert. *)
Theorem malformed_start_time_update_escapes
    (fromisoformat : string -> option datetime) (isoformat : datetime -> string)
    (exn_text : exn -> string) (float_minutes : Z -> Z) (w : world) (p : provider)
    (event_id calendar_id start_time : string) (title : option string)
    (duration_minutes : option Z) (description location : option string)
    (existing : event)
    (new_title new_description new_location : string) (new_duration : Z) :
  _get_service w = Ok tt ->
  events_get p calendar_id event_id = Ok existing ->
  _parse_iso8601 fromisoformat start_time = Raise ValueError ->
  update_event fromisoformat isoformat exn_text float_minutes w p event_id
    title (Some start_time) duration_minutes description location calendar_id
  = (Raise ValueError, [])
  /\ create_event fromisoformat isoformat exn_text w new_title start_time new_duration
       new_description new_location calendar_id
     = (errors.unexpected_failure (exn_text ValueError), []).
Proof.
  intros Hs Hg Hp. split.
  - unfold update_event. rewrite Hs. cbn [bind]. rewrite Hg.
    unfold build_patch. rewrite Hp. reflexivity.
  - unfold create_event. rewrite Hs. cbn [bind]. rewrite Hp. reflexivity.
Qed.

Lemma malformed_start_time_update_escapes_witness :
  update_event Iso.fromisoformat Iso.isoformat Iso.exn_text exact_minutes
    example_world example_provider "ev123"
    (Some "Review"%string) (Some "tomorrow at nine"%string) None None None "primary"
  = (Raise ValueError, [])
  /\ create_event Iso.fromisoformat Iso.isoformat Iso.exn_text example_world
       "Review" "tomorrow at nine" 60 EmptyString EmptyString "primary"
     = (errors.unexpected_failure (Iso.exn_text ValueError), []).
Proof.
  apply (malformed_start_time_update_escapes Iso.fromisoformat Iso.isoformat Iso.exn_text
           exact_minutes example_world example_provider "ev123" "primary"
           "tomorrow at nine" (Some "Review"%string) None None None example_event).
  - reflexivity.
  - reflexivity.
  - reflexivity.
Defined.

(** X20.  When a duration is given, the end that [update_event] puts in
    the patch lies that many minutes after the start, at the offset of the
    start, the start being the new start time when one is given (sent as it
    parses, with no offset added and no look at the clock) and else the
    start of the event as fetched; an event that has no start gets no
    end. *)
Theorem update_event_end_follows_duration
    (fromisoformat : string -> option datetime) (isoformat : datetime -> string)
    (exn_text : exn -> string) (float_minutes : Z -> Z) (w : world) (p : provider)
    (event_id : string) (title start_time : option string)
    (duration_minutes : Z) (description location : option string)
    (calendar_id : string) (calendar event : string) (patch : patch_body) :
  In (calendar, event, patch)
     (snd (update_event fromisoformat isoformat exn_text float_minutes w p event_id
             title start_time (Some duration_minutes) description location
             calendar_id)) ->
  exists existing,
    events_get p calendar_id event_id = Ok existing
    /\ ((start_time = None /\ truthy (start_raw existing) = false
         /\ patch_end patch = None)
        \/ exists text start_dt end_dt,
            (start_time = Some text
             /\ patch_start patch = Some (isoformat start_dt, "UTC"%string)
             \/ start_time = None /\ start_raw existing = Some text)
            /\ _parse_iso8601 fromisoformat text = Ok start_dt
            /\ wall end_dt = wall start_dt + duration_minutes * MICROS_PER_MINUTE
            /\ tzinfo end_dt = tzinfo start_dt
            /\ patch_end patch = Some (isoformat end_dt, "UTC"%string)).
Proof.
  intros Hin. apply update_event_sent in Hin.
  destruct Hin as (_ & _ & _ & _ & existing & _ & Hg & B).
  exists existing. split; [exact Hg|].
  apply build_patch_ok in B. destruct B as (_ & _ & _ & B).
  destruct start_time as [s|].
  - destruct B as (start_dt & end_dt & P & A & S & E).
    apply add_minutes_ok in A. destruct A as [T W].
    right. exists s, start_dt, end_dt. auto 10.
  - destruct B as (S & [[Hn E]|(old & start_dt & end_dt & R & P & A & E)]).
    + left. auto.
    + apply add_minutes_ok in A. destruct A as [T W].
      right. exists old, start_dt, end_dt. auto 10.
Qed.

Lemma update_event_end_follows_duration_witness :
  exists existing,
    events_get example_provider "primary" "ev123" = Ok existing
    /\ ((@None string = None /\ truthy (start_raw existing) = false
         /\ patch_end {| patch_summary := None; patch_description := None;
                         patch_location := None; patch_start := None;
                         patch_end := Some ("2026-03-02T10:30:00+00:00", "UTC")%string |}
            = None)
        \/ exists text start_dt end_dt,
            (@None string = Some text
             /\ patch_start {| patch_summary := None; patch_description := None;
                               patch_location := None; patch_start := None;
                               patch_end :=
                                 Some ("2026-03-02T10:30:00+00:00", "UTC")%string |}
                = Some (Iso.isoformat start_dt, "UTC"%string)
             \/ @None string = None /\ start_raw existing = Some text)
            /\ _parse_iso8601 Iso.fromisoformat text = Ok start_dt
            /\ wall end_dt = wall start_dt + 30 * MICROS_PER_MINUTE
            /\ tzinfo end_dt = tzinfo start_dt
            /\ patch_end {| patch_summary := None; patch_description := None;
                            patch_location := None; patch_start := None;
                            patch_end :=
                              Some ("2026-03-02T10:30:00+00:00", "UTC")%string |}
               = Some (Iso.isoformat end_dt, "UTC"%string)).
Proof.
  apply (update_event_end_follows_duration Iso.fromisoformat Iso.isoformat Iso.exn_text
           exact_minutes example_world example_provider
           "ev123" None None 30 None None "primary" "primary" "ev123").
  vm_compute. left. reflexivity.
Defined.

(** ** [get_events_at_time] *)

(** X21.  [get_events_at_time] asks the provider once, for the window from
    one day before the instant to one day after it, and lists exactly the
    returned events that have a start and an end with the instant between
    them, end points included, in the order of the provider; a start or an
    end without offset, such as the date of an all-day event, is read at
    the offset of the instant; an event that lacks a start or an end is
    passed over; and if a start or an end of an event that has both is no
    timestamp, the [ValueError] leaves [get_events_at_time]. *)
Theorem events_at_time_lists_what_happens
    (fromisoformat : string -> option datetime) (isoformat : datetime -> string)
    (exn_text : exn -> string) (w : world) (p : provider)
    (datetime_str calendar_id : string) (dt window_start window_end : datetime)
    (events : list event) :
  window_of fromisoformat w datetime_str = Ok (dt, window_start, window_end) ->
  events_list p {| list_calendarId := calendar_id;
                   list_timeMin := isoformat window_start;
                   list_timeMax := Some (isoformat window_end);
                   list_maxResults := None;
                   list_singleEvents := true;
                   list_orderBy := "startTime" |} = Ok events ->
  wall window_start = wall dt - MICROS_PER_DAY
  /\ wall window_end = wall dt + MICROS_PER_DAY
  /\ get_events_at_time fromisoformat isoformat exn_text w p datetime_str calendar_id
     = (if forallb (readable fromisoformat dt) events
        then Ok match filter (happening_at fromisoformat dt) events with
                | [] => ("No events at " ++ datetime_str ++ ".")%string
                | _ :: _ =>
                    render_events ("Events at " ++ datetime_str ++ ":")
                      (filter (happening_at fromisoformat dt) events)
                end
        else Raise ValueError,
        [{| list_calendarId := calendar_id;
            list_timeMin := isoformat window_start;
            list_timeMax := Some (isoformat window_end);
            list_maxResults := None;
            list_singleEvents := true;
            list_orderBy := "startTime" |}]).
Proof.
  intros Hw Hl. pose proof (window_of_ok _ _ _ _ _ _ Hw) as (_ & A & _ & _ & W1 & _ & W2).
  split; [exact W1|]. split; [exact W2|].
  unfold get_events_at_time. rewrite Hw. rewrite Hl.
  rewrite (overlapping_events_filter fromisoformat dt events A).
  destruct (forallb (readable fromisoformat dt) events); [|reflexivity].
  cbn [bind]. destruct (filter (happening_at fromisoformat dt) events); reflexivity.
Qed.

Lemma events_at_time_lists_what_happens_witness :
  wall (at_time 739676 10 30 0) = wall (at_time 739677 10 30 0) - MICROS_PER_DAY
  /\ wall (at_time 739678 10 30 0) = wall (at_time 739677 10 30 0) + MICROS_PER_DAY
  /\ get_events_at_time Iso.fromisoformat Iso.isoformat Iso.exn_text example_world
       example_provider "2026-03-02T10:30:00+00:00" "primary"
     = (if forallb (readable Iso.fromisoformat (at_time 739677 10 30 0))
             [example_all_day; example_undated; example_event]
        then Ok match filter (happening_at Iso.fromisoformat (at_time 739677 10 30 0))
                        [example_all_day; example_undated; example_event] with
                | [] => ("No events at " ++ "2026-03-02T10:30:00+00:00" ++ ".")%string
                | _ :: _ =>
                    render_events ("Events at " ++ "2026-03-02T10:30:00+00:00" ++ ":")
                      (filter (happening_at Iso.fromisoformat (at_time 739677 10 30 0))
                         [example_all_day; example_undated; example_event])
                end
        else Raise ValueError,
        [{| list_calendarId := "primary";
            list_timeMin := Iso.isoformat (at_time 739676 10 30 0);
            list_timeMax := Some (Iso.isoformat (at_time 739678 10 30 0));
            list_maxResults := None;
            list_singleEvents := true;
            list_orderBy := "startTime" |}]).
Proof.
  apply (events_at_time_lists_what_happens Iso.fromisoformat Iso.isoformat Iso.exn_text
           example_world example_provider "2026-03-02T10:30:00+00:00" "primary"
           (at_time 739677 10 30 0) (at_time 739676 10 30 0) (at_time 739678 10 30 0)
           [example_all_day; example_undated; example_event]).
  - vm_compute. reflexivity.
  - reflexivity.
Defined.



(** ** [get_credentials] of auth.py *)

(** X23.  [get_credentials] never changes client_secret.json, and it
    changes token.json only after a refresh or the OAuth flow has given it
    credentials.  The credentials it returns are either the valid ones read
    from token.json, nothing having been called or written, or credentials
    just obtained, which token.json then holds.  When it raises, token.json
    is as it was, unless the exception is that of the writing of the
    credentials just obtained, met after [open(_TOKEN_FILE, "w")] had
    emptied the file: token.json then holds what was written by then. *)
Theorem get_credentials_persists (g : auth.google) (fs : auth.files) :
  auth._CREDENTIALS_FILE (auth.disk (auth.get_credentials g fs)) = auth._CREDENTIALS_FILE fs
  /\ (auth.calls (auth.get_credentials g fs) = [] ->
      auth.disk (auth.get_credentials g fs) = fs)
  /\ (forall e,
         auth.returned (auth.get_credentials g fs) = Raise e ->
         auth.disk (auth.get_credentials g fs) = fs
         \/ (auth.calls (auth.get_credentials g fs) <> []
             /\ exists creds written,
                 auth.write_token fs (auth.to_json creds) = auth.Broken e written
                 /\ auth.disk (auth.get_credentials g fs) = auth.with_token fs written))
  /\ (forall creds,
         auth.returned (auth.get_credentials g fs) = Ok creds ->
         (auth.calls (auth.get_credentials g fs) = []
          /\ auth.disk (auth.get_credentials g fs) = fs
          /\ auth.valid creds = true
          /\ exists text, auth._TOKEN_FILE fs = Some text
                          /\ auth.from_authorized_user_file g text = Ok creds)
         \/ (auth.calls (auth.get_credentials g fs) <> []
             /\ auth.write_token fs (auth.to_json creds) = auth.Written
             /\ auth._TOKEN_FILE (auth.disk (auth.get_credentials g fs))
                = Some (auth.to_json creds))).
Proof.
  auth_cases.
  all: split; [solve [auto]|].
  all: split; [solve [auto | discriminate]|].
  all: split.
  all: try (intros ? H; discriminate H).
  all: try (intros ? H; injection H as <-).
  all: try (left; reflexivity).
  all: try (right; split; [discriminate|]; eauto; fail).
  left. repeat split; eauto.
Qed.

(** X24.  [get_credentials] calls the Google libraries at most once after
    reading the token: it refreshes only credentials read from token.json
    that are not valid, are expired and have a refresh token; and it runs
    the OAuth flow only on the text of an existing client_secret.json, and
    only when there is no token.json or its credentials are neither valid
    nor refreshable. *)
Theorem get_credentials_calls (g : auth.google) (fs : auth.files) :
  (List.length (auth.calls (auth.get_credentials g fs)) <= 1)%nat
  /\ (forall creds,
         In (auth.Refresh creds) (auth.calls (auth.get_credentials g fs)) ->
         exists text,
           auth._TOKEN_FILE fs = Some text
           /\ auth.from_authorized_user_file g text = Ok creds
           /\ auth.valid creds = false
           /\ auth.expired creds = true
           /\ truthy (auth.refresh_token creds) = true)
  /\ (forall client_secret,
         In (auth.RunLocalServer client_secret) (auth.calls (auth.get_credentials g fs)) ->
         auth._CREDENTIALS_FILE fs = Some client_secret
         /\ (auth._TOKEN_FILE fs = None
             \/ exists text creds,
                 auth._TOKEN_FILE fs = Some text
                 /\ auth.from_authorized_user_file g text = Ok creds
                 /\ auth.valid creds = false
                 /\ auth.expired creds && truthy (auth.refresh_token creds) = false)).
Proof.
  auth_cases.
  all: split; [lia|].
  all: split.
  all: try (intros ? H; contradiction).
  all: try (intros ? [H|[]]; discriminate H).
  all: intros ? [H|[]]; injection H as <-.
  all: try match goal with
         | R : _ && _ = true |- _ => apply andb_true_iff in R; destruct R
         end.
  all: eauto 10.
Qed.

(** X25.  Once [get_credentials] has returned valid credentials, the next
    call on the files it left returns them again from token.json, with no
    refresh, no OAuth flow and nothing written, provided the library reads
    back the token that it wrote. *)
Theorem get_credentials_served_from_token
    (g : auth.google) (fs : auth.files) (creds : auth.Credentials) :
  auth.returned (auth.get_credentials g fs) = Ok creds ->
  auth.valid creds = true ->
  auth.from_authorized_user_file g (auth.to_json creds) = Ok creds ->
  auth.get_credentials g (auth.disk (auth.get_credentials g fs))
  = {| auth.returned := Ok creds;
       auth.disk := auth.disk (auth.get_credentials g fs);
       auth.calls := [] |}.
Proof.
  intros Hr Hv Hback.
  assert (Hread : forall fs', (exists text, auth._TOKEN_FILE fs' = Some text
                                 /\ auth.from_authorized_user_file g text = Ok creds) ->
                    auth.get_credentials g fs'
                    = {| auth.returned := Ok creds; auth.disk := fs'; auth.calls := [] |}).
  { intros fs' (text & T & L). unfold auth.get_credentials.
    rewrite T, L. cbn [bind]. rewrite Hv. reflexivity. }
  apply Hread.
  destruct (get_credentials_token g fs creds Hr) as [(Hd & Hfile)|Hfile].
  - rewrite Hd. exact Hfile.
  - exists (auth.to_json creds). auto.
Qed.

Lemma get_credentials_served_from_token_witness :
  auth.get_credentials example_google
    (auth.disk (auth.get_credentials example_google files_with_expired_token))
  = {| auth.returned := Ok valid_credentials;
       auth.disk := auth.disk (auth.get_credentials example_google files_with_expired_token);
       auth.calls := [] |}.
Proof.
  apply (get_credentials_served_from_token example_google files_with_expired_token
           valid_credentials).
  - reflexivity.
  - reflexivity.
  - reflexivity.
Defined.

(** X26.  With no client_secret.json and no token that can be used (no
    token.json, or credentials in it that are neither valid nor
    refreshable), [get_credentials] raises [FileNotFoundError], having
    called nothing and written nothing, and a tool run on these files
    answers [errors.AUTH_EXPIRED]. *)
Theorem missing_files_mean_auth_expired
    (fromisoformat : string -> option datetime) (isoformat : datetime -> string)
    (exn_text : exn -> string) (g : auth.google) (fs : auth.files) (w : world)
    (start_date end_date calendar_id : string)
    (min_duration_minutes working_hours_start working_hours_end : Z) :
  auth._CREDENTIALS_FILE fs = None ->
  auth._TOKEN_FILE fs = None
  \/ (exists text creds,
         auth._TOKEN_FILE fs = Some text
         /\ auth.from_authorized_user_file g text = Ok creds
         /\ auth.valid creds = false
         /\ auth.expired creds && truthy (auth.refresh_token creds) = false) ->
  auth.get_credentials g fs
  = {| auth.returned := Raise FileNotFoundError; auth.disk := fs; auth.calls := [] |}
  /\ _get_service (world_with_files g fs w) = Raise FileNotFoundError
  /\ get_free_slots fromisoformat isoformat exn_text (world_with_files g fs w)
       start_date end_date min_duration_minutes working_hours_start working_hours_end
       calendar_id
     = Ok errors.AUTH_EXPIRED.
Proof.
  intros Hsecret Htoken.
  assert (H : auth.get_credentials g fs
              = {| auth.returned := Raise FileNotFoundError;
                   auth.disk := fs; auth.calls := [] |}).
  { unfold auth.get_credentials. rewrite Hsecret.
    destruct Htoken as [->|(text & creds & -> & L & V & R)]; [reflexivity|].
    rewrite L. cbn [bind]. rewrite V, R. reflexivity. }
  split; [exact H|].
  assert (Hs : _get_service (world_with_files g fs w) = Raise FileNotFoundError).
  { unfold _get_service, world_with_files. cbn [get_credentials]. rewrite H. reflexivity. }
  split; [exact Hs|].
  unfold get_free_slots, range_bounds. rewrite Hs. reflexivity.
Qed.

Lemma missing_files_mean_auth_expired_witness :
  auth.get_credentials example_google no_files
  = {| auth.returned := Raise FileNotFoundError; auth.disk := no_files; auth.calls := [] |}
  /\ _get_service (world_with_files example_google no_files example_world)
     = Raise FileNotFoundError
  /\ get_free_slots Iso.fromisoformat Iso.isoformat Iso.exn_text
       (world_with_files example_google no_files example_world)
       "2026-03-02T09:00:00+00:00" "2026-03-02T18:00:00+00:00" 30 9 18 "primary"
     = Ok errors.AUTH_EXPIRED.
Proof.
  apply (missing_files_mean_auth_expired Iso.fromisoformat Iso.isoformat Iso.exn_text
           example_google no_files example_world).
  - reflexivity.
  - left. reflexivity.
Defined.

(** ** The bounds of [get_free_slots] *)

(** X27.  The bounds of the range keep the clock reading that was given,
    and an offset that was given; a start without offset is read at the
    offset of the machine, and an end without offset at the offset of the
    start, the one given with the start if there is one. *)
Theorem range_bounds_offsets
    (fromisoformat : string -> option datetime) (w : world)
    (start_date end_date : string) (start_dt end_dt : datetime) :
  range_bounds fromisoformat w start_date end_date = Ok (start_dt, end_dt) ->
  exists parsed_start parsed_end,
    _parse_iso8601 fromisoformat start_date = Ok parsed_start
    /\ _parse_iso8601 fromisoformat end_date = Ok parsed_end
    /\ wall start_dt = wall parsed_start
    /\ wall end_dt = wall parsed_end
    /\ tzinfo start_dt = match tzinfo parsed_start with
                         | Some offset => Some offset
                         | None => Some (local_utcoffset w)
                         end
    /\ tzinfo end_dt = match tzinfo parsed_end with
                       | Some offset => Some offset
                       | None => tzinfo start_dt
                       end.
Proof.
  unfold range_bounds. intros H.
  bind_inv H as u Hs. bind_inv H as ps Hps. bind_inv H as pe Hpe.
  injection H as <- <-. exists ps, pe.
  split; [exact Hps|]. split; [exact Hpe|].
  destruct (tzinfo ps) eqn:Ts; destruct (tzinfo pe) eqn:Te; simpl;
    rewrite ?Ts, ?Te; auto.
Qed.

Lemma range_bounds_offsets_witness :
  exists parsed_start parsed_end,
    _parse_iso8601 Iso.fromisoformat "2026-03-02T09:00:00+05:00" = Ok parsed_start
    /\ _parse_iso8601 Iso.fromisoformat "2026-03-02T18:00:00" = Ok parsed_end
    /\ wall (at_hour 739677 9 (5 * MICROS_PER_HOUR)) = wall parsed_start
    /\ wall (at_hour 739677 18 (5 * MICROS_PER_HOUR)) = wall parsed_end
    /\ tzinfo (at_hour 739677 9 (5 * MICROS_PER_HOUR))
       = match tzinfo parsed_start with
         | Some offset => Some offset
         | None => Some (local_utcoffset example_world)
         end
    /\ tzinfo (at_hour 739677 18 (5 * MICROS_PER_HOUR))
       = match tzinfo parsed_end with
         | Some offset => Some offset
         | None => tzinfo (at_hour 739677 9 (5 * MICROS_PER_HOUR))
         end.
Proof.
  apply (range_bounds_offsets Iso.fromisoformat example_world
           "2026-03-02T09:00:00+05:00" "2026-03-02T18:00:00").
  vm_compute. reflexivity.
Defined.

(** ** Listings *)

(** X28.  The line of an event tells its id: two events whose ids hold no
    vertical bar and whose summary lines are the same text have the same
    id. *)
Theorem summary_line_tells_id (ev1 ev2 : event) (id1 id2 : string) :
  event_id ev1 = Some id1 ->
  event_id ev2 = Some id2 ->
  no_bar id1 = true ->
  no_bar id2 = true ->
  _format_event_summary ev1 = _format_event_summary ev2 ->
  id1 = id2.
Proof.
  intros E1 E2 N1 N2. unfold _format_event_summary. rewrite E1, E2.
  intros H. injection H as H.
  apply (before_bar _ _ _ _ N1 N2 H).
Qed.

Lemma summary_line_tells_id_witness : "ev123"%string = "ev123"%string.
Proof.
  apply (summary_line_tells_id example_event
           {| event_id := Some "ev123"%string;
              event_summary := event_summary example_event;
              event_start := (None, Some "2026-03-02T10:00:00+00:00"%string);
              event_end := (Some "2026-03-02T11:00:00+00:00"%string, Some "2026-03-02"%string);
              event_location := Some EmptyString |}).
  - reflexivity.
  - reflexivity.
  - reflexivity.
  - reflexivity.
  - reflexivity.
Defined.

(** X29.  [list_events] sends at most one list request, for the events
    from now on and at most [max_results] of them, and its reply tells what
    became of it: the listing of the returned events under a header, or
    "No upcoming events." when there is none, exactly when the request was
    sent and answered, neither being an error message; and an error
    message when the service could not be obtained, nothing being sent, or
    when the request was refused. *)
Theorem list_events_reply_tells
    (isoformat : datetime -> string) (exn_text : exn -> string)
    (w : world) (p : provider) (max_results : Z) (calendar_id : string) :
  let request := {| list_calendarId := calendar_id;
                    list_timeMin := isoformat (_get_tz_aware_now w);
                    list_timeMax := None;
                    list_maxResults := Some max_results;
                    list_singleEvents := true;
                    list_orderBy := "startTime" |} in
  (exists events reply,
      events_list p request = Ok events
      /\ list_events isoformat exn_text w p max_results calendar_id = (reply, [request])
      /\ reply = match events with
                 | [] => "No upcoming events."%string
                 | _ :: _ =>
                     render_events ("Next " ++ str_int max_results ++ " upcoming events:")
                       events
                 end
      /\ is_error_reply reply = false)
  \/ (exists reply,
         is_error_reply reply = true
         /\ ((exists e, _get_service w = Raise e)
             /\ list_events isoformat exn_text w p max_results calendar_id = (reply, [])
             \/ (exists e, events_list p request = Raise e)
                /\ list_events isoformat exn_text w p max_results calendar_id
                   = (reply, [request]))).
Proof.
  intros request. unfold list_events. fold request.
  destruct (_get_service w) as [u|e] eqn:S.
  - destruct (events_list p request) as [events|e] eqn:L.
    + left. exists events. eexists. split; [reflexivity|]. split; [reflexivity|].
      destruct events as [|ev rest]; [split; reflexivity|]. split; [reflexivity|].
      destruct (render_events_head "N" (ev :: rest)
                  ("ext " ++ str_int max_results ++ " upcoming events:")%string)
        as [text Ht].
      simpl in Ht |- *. rewrite Ht. reflexivity.
    + right. eexists. split; [|right; split; [exists e; reflexivity|reflexivity]].
      destruct e; try reflexivity. apply http_reply_is_error.
  - right. eexists. split; [|left; split; [exists e; reflexivity|reflexivity]].
    destruct e; try reflexivity. apply http_reply_is_error.
Qed.
